(** * ccinput: the NWChem input generator ([ccinput/packages/nwchem.py])

    A shallow embedding of [NWChemCalculation] and the properties of its
    generation pipeline.

    Python strings are modelled by [string]; the embedding covers the code
    points below 256 (one [ascii] per code point), which contains every
    character the generator itself writes and the whole allow-list of
    [clean].  Exceptions are values of [exn]; the object under construction
    and the caller's request live in one store, [World], threaded through
    the small state-and-exception monad [M]. *)

From Stdlib Require Import String Ascii List ZArith Bool Arith Lia DecimalString
  Permutation.
Import ListNotations.
Local Open Scope list_scope.
Local Open Scope string_scope.

(** ** Python [str] operations used by the generator *)

Module PyStr.

Definition nl : string := String "010"%char "".
Definition dquote : string := String "034"%char "".

(** [str.isspace] on one character, for code points below 256. *)
Definition isspace (c : ascii) : bool :=
  let n := nat_of_ascii c in
  ((9 <=? n)%nat && (n <=? 13)%nat) || ((28 <=? n)%nat && (n <=? 32)%nat)
  || (n =? 133)%nat || (n =? 160)%nat.

(** [str.lower] on one character, for code points below 256. *)
Definition lower_chr (c : ascii) : ascii :=
  let n := nat_of_ascii c in
  if ((65 <=? n)%nat && (n <=? 90)%nat)
     || ((192 <=? n)%nat && (n <=? 222)%nat && negb (n =? 215)%nat)
  then ascii_of_nat (n + 32) else c.

Fixpoint lower (s : string) : string :=
  match s with
  | "" => ""
  | String c s' => String (lower_chr c) (lower s')
  end.

Fixpoint lstrip (s : string) : string :=
  match s with
  | "" => ""
  | String c s' => if isspace c then lstrip s' else s
  end.

(** [rstrip]: a character is kept when it is not a space or when something
    is kept after it. *)
Fixpoint rstrip (s : string) : string :=
  match s with
  | "" => ""
  | String c s' =>
      match rstrip s' with
      | "" => if isspace c then "" else String c ""
      | r => String c r
      end
  end.

Definition strip (s : string) : string := rstrip (lstrip s).

(** [s1.startswith(s2)], written [startswith s2 s1]. *)
Fixpoint startswith (p s : string) : bool :=
  match p, s with
  | "", _ => true
  | String _ _, "" => false
  | String a p', String b s' => Ascii.eqb a b && startswith p' s'
  end.

(** [p in s] for strings; [s.find(p) != -1] is the same test. *)
Fixpoint contains (p s : string) : bool :=
  startswith p s ||
  match s with
  | "" => false
  | String _ s' => contains p s'
  end.

(** Number of positions of [s] at which [p] starts. *)
Fixpoint occurrences (p s : string) : nat :=
  (if startswith p s then 1 else 0) +
  match s with
  | "" => 0
  | String _ s' => occurrences p s'
  end.

Fixpoint endswith (p s : string) : bool :=
  String.eqb p s ||
  match s with
  | "" => false
  | String _ s' => endswith p s'
  end.

(** [s.replace(old, new)] for a non-empty [old]: scan from the left, and
    at every match emit [new] and skip the matched characters ([skip]
    counts the characters of the current match still to pass). *)
Fixpoint replace_from (old new : string) (skip : nat) (s : string) : string :=
  match s with
  | "" => ""
  | String c s' =>
      match skip with
      | S k => replace_from old new k s'
      | O =>
          if startswith old s
          then new ++ replace_from old new (String.length old - 1) s'
          else String c (replace_from old new 0 s')
      end
  end.

Definition replace (old new s : string) : string := replace_from old new 0 s.

(** [s.split(sep)] for a one-character separator. *)
Fixpoint split (sep : ascii) (s : string) : list string :=
  match s with
  | "" => [""]
  | String c s' =>
      if Ascii.eqb c sep then "" :: split sep s'
      else match split sep s' with
           | h :: t => String c h :: t
           | [] => [String c ""]
           end%list
  end.

(** [sep.join(l)]. *)
Fixpoint join (sep : string) (l : list string) : string :=
  match l with
  | [] => ""
  | [x] => x
  | x :: rest => x ++ sep ++ join sep rest
  end.

(** The first field of [line.split()] (split on runs of white space);
    [None] when the line is blank. *)
Fixpoint take_word (s : string) : string :=
  match s with
  | "" => ""
  | String c s' => if isspace c then "" else String c (take_word s')
  end.

Definition first_field (line : string) : option string :=
  match lstrip line with
  | "" => None
  | s => Some (take_word s)
  end.

(** [s[:n]] and [s[n:]] for [0 <= n]. *)
Fixpoint take (n : nat) (s : string) : string :=
  match n, s with
  | S k, String c s' => String c (take k s')
  | _, _ => ""
  end.

Fixpoint drop (n : nat) (s : string) : string :=
  match n, s with
  | S k, String _ s' => drop k s'
  | _, _ => s
  end.

(** [s.find(p)]: index of the first occurrence. *)
Fixpoint find (p s : string) : option nat :=
  if startswith p s then Some 0
  else match s with
       | "" => None
       | String _ s' => option_map S (find p s')
       end.

(** [s.rfind(c)] for one character. *)
Fixpoint rfind_chr (c : ascii) (s : string) : option nat :=
  match s with
  | "" => None
  | String a s' =>
      match rfind_chr c s' with
      | Some i => Some (S i)
      | None => if Ascii.eqb a c then Some 0 else None
      end
  end.

(** [str(n)] for an [int]. *)
Definition of_Z (z : Z) : string := NilZero.string_of_int (Z.to_int z).

(** No character of [p] is white space. *)
Fixpoint no_space (p : string) : bool :=
  match p with
  | "" => true
  | String c p' => negb (isspace c) && no_space p'
  end.

End PyStr.
Import PyStr.


(** ** Data model *)

(** [CalcType], the members this module names. *)
Inductive CalcType :=
  | OPT | CONSTR_OPT | TS | FREQ | NMR | SP | UVVIS | UVVIS_TDA | OPTFREQ | MEP.

Definition CalcType_eqb (a b : CalcType) : bool :=
  match a, b with
  | OPT, OPT | CONSTR_OPT, CONSTR_OPT | TS, TS | FREQ, FREQ | NMR, NMR
  | SP, SP | UVVIS, UVVIS | UVVIS_TDA, UVVIS_TDA | OPTFREQ, OPTFREQ
  | MEP, MEP => true
  | _, _ => false
  end.

(** The exceptions the generator raises itself, and the built-in ones its
    unguarded look-ups can raise. *)
Inductive exn :=
  | ImpossibleCalculation
  | InvalidParameter
  | UnimplementedError
  | MissingParameter
  | KeyError
  | AttributeError.

Inductive result (A : Type) :=
  | Ok (a : A)
  | Raise (e : exn).
Arguments Ok {A} a.
Arguments Raise {A} e.

(** A Python [dict] with string keys: insertion order is iteration order. *)
Definition dict := list (string * string).

Fixpoint dict_get (k : string) (d : dict) : option string :=
  match d with
  | [] => None
  | (k', v) :: d' => if String.eqb k k' then Some v else dict_get k d'
  end%list.

Definition dict_has (k : string) (d : dict) : bool :=
  match dict_get k d with Some _ => true | None => false end.

(** [d[k] = v]: an existing key keeps its place. *)
Fixpoint dict_set (k v : string) (d : dict) : dict :=
  match d with
  | [] => [(k, v)]
  | (k', v') :: d' =>
      if String.eqb k k' then (k, v) :: d' else (k', v') :: dict_set k v d'
  end%list.

(** [calc.mem] is a number when the request is built and the text
    [f"{mem} mb"] after the constructor has run. *)
Inductive int_or_str :=
  | AnInt (z : Z)
  | AStr (s : string).

Definition format (v : int_or_str) : string :=
  match v with
  | AnInt z => of_Z z
  | AStr s => s
  end.

(** [parameters.custom_basis_sets]: the code takes [len] of it, compares it
    with [''], tests membership and calls [items()]; a [dict] answers all
    four, a [str] all but the last. *)
Inductive str_or_dict :=
  | TheStr (s : string)
  | TheDict (d : dict).

Definition len (x : str_or_dict) : nat :=
  match x with
  | TheStr s => String.length s
  | TheDict d => List.length d
  end.

(** [x != ''] : a [dict] never equals a [str]. *)
Definition ne_empty_str (x : str_or_dict) : bool :=
  match x with
  | TheStr s => negb (String.eqb s "")
  | TheDict _ => true
  end.

(** [a in x] *)
Definition member (a : string) (x : str_or_dict) : bool :=
  match x with
  | TheStr s => contains a s
  | TheDict d => dict_has a d
  end.

(** [x.items()] *)
Definition items (x : str_or_dict) : result dict :=
  match x with
  | TheStr _ => Raise AttributeError
  | TheDict d => Ok d
  end.

(** A constraint of the request: its [scan] flag and what its own
    [to_nwchem()] returns. *)
Record Constraint := mkConstraint {
  scan : bool;
  to_nwchem : string
}.

Record Parameters := mkParameters {
  software : string;
  theory_level : string;
  method : string;
  basis_set : string;
  custom_basis_sets : str_or_dict;
  solvent : string;
  solvation_model : string;
  solvation_radii : string;
  custom_solvation_radii : string;
  specifications : string;
  d3 : bool;
  d3bj : bool
}.

Record Calculation := mkCalculation {
  parameters : Parameters;
  calc_type : CalcType;
  header : string;
  name : string;
  mem : int_or_str;
  charge : Z;
  multiplicity : Z;
  xyz : string;
  constraints : list Constraint
}.

Definition set_theory_level (t : string) (p : Parameters) : Parameters :=
  mkParameters p.(software) t p.(method) p.(basis_set) p.(custom_basis_sets)
    p.(solvent) p.(solvation_model) p.(solvation_radii)
    p.(custom_solvation_radii) p.(specifications) p.(d3) p.(d3bj).

Definition set_parameters (p : Parameters) (c : Calculation) : Calculation :=
  mkCalculation p c.(calc_type) c.(header) c.(name) c.(mem) c.(charge)
    c.(multiplicity) c.(xyz) c.(constraints).

Definition set_mem (m : int_or_str) (c : Calculation) : Calculation :=
  mkCalculation c.(parameters) c.(calc_type) c.(header) c.(name) m c.(charge)
    c.(multiplicity) c.(xyz) c.(constraints).

(** What the module imports from the rest of the package and from
    [basis_set_exchange]: synonym look-ups, tables, the coordinate cleaner
    and the basis database.  A look-up that raises returns [Raise]; a table
    without the key returns [None]; [get_basis] returns [None] when the query
    raises anything; [float_str r] is [str(float(r))], [None] when [float]
    raises [ValueError]. *)
Record Collaborators := mkCollaborators {
  get_basis_set : string -> string -> result string;
  get_solvent : string -> string -> string -> result string;
  clean_xyz : string -> result string;
  SOFTWARE_MULTIPLICITY_nwchem : Z -> option string;
  ATOMIC_NUMBER : string -> option Z;
  LOWERCASE_ATOMIC_SYMBOLS : string -> option string;
  get_basis : string -> Z -> option string;
  float_str : string -> option string
}.

(** The fields of the object under construction.  [has_scan], [appendix],
    [command_line] and [commands] are set once in the constructor and never
    read or written again; they are left out.  [self_basis_set] is [None]
    until the attribute is first assigned: the constructor does not
    initialise it. *)
Record NWChemCalculation := mkSelf {
  method_block : string;
  calculation_block : string;
  additional_block : string;
  self_solvation_radii : dict;
  xyz_structure : string;
  tasks : string;
  input_file : string;
  self_basis_set : option string
}.

Definition with_method_block (v : string) (o : NWChemCalculation) :=
  mkSelf v o.(calculation_block) o.(additional_block) o.(self_solvation_radii)
    o.(xyz_structure) o.(tasks) o.(input_file) o.(self_basis_set).
Definition with_calculation_block (v : string) (o : NWChemCalculation) :=
  mkSelf o.(method_block) v o.(additional_block) o.(self_solvation_radii)
    o.(xyz_structure) o.(tasks) o.(input_file) o.(self_basis_set).
Definition with_additional_block (v : string) (o : NWChemCalculation) :=
  mkSelf o.(method_block) o.(calculation_block) v o.(self_solvation_radii)
    o.(xyz_structure) o.(tasks) o.(input_file) o.(self_basis_set).
Definition with_solvation_radii (v : dict) (o : NWChemCalculation) :=
  mkSelf o.(method_block) o.(calculation_block) o.(additional_block) v
    o.(xyz_structure) o.(tasks) o.(input_file) o.(self_basis_set).
Definition with_xyz_structure (v : string) (o : NWChemCalculation) :=
  mkSelf o.(method_block) o.(calculation_block) o.(additional_block)
    o.(self_solvation_radii) v o.(tasks) o.(input_file) o.(self_basis_set).
Definition with_tasks (v : string) (o : NWChemCalculation) :=
  mkSelf o.(method_block) o.(calculation_block) o.(additional_block)
    o.(self_solvation_radii) o.(xyz_structure) v o.(input_file)
    o.(self_basis_set).
Definition with_input_file (v : string) (o : NWChemCalculation) :=
  mkSelf o.(method_block) o.(calculation_block) o.(additional_block)
    o.(self_solvation_radii) o.(xyz_structure) o.(tasks) v o.(self_basis_set).
Definition with_basis_set (v : option string) (o : NWChemCalculation) :=
  mkSelf o.(method_block) o.(calculation_block) o.(additional_block)
    o.(self_solvation_radii) o.(xyz_structure) o.(tasks) o.(input_file) v.

(** The store of one generation run.  [self.calc = calc] binds the caller's
    object, it does not copy it: [calc] is that one object, which the caller
    still holds when the constructor returns or raises.  [warnings] are the
    messages passed to [warn], [printed] the lines sent to [print], [files]
    the files written, each as (name, content), oldest first. *)
Record World := mkWorld {
  calc : Calculation;
  self : NWChemCalculation;
  warnings : list string;
  printed : list string;
  files : list (string * string)
}.

(** ** The state-and-exception monad *)

Definition M (A : Type) : Type := World -> result A * World.

Definition ret {A} (a : A) : M A := fun w => (Ok a, w).

Definition bind {A B} (m : M A) (k : A -> M B) : M B :=
  fun w =>
    match m w with
    | (Ok a, w') => k a w'
    | (Raise e, w') => (Raise e, w')
    end.

Definition raise {A} (e : exn) : M A := fun w => (Raise e, w).

(** [try: m except: h] with a bare [except]. *)
Definition try_except {A} (m : M A) (h : M A) : M A :=
  fun w =>
    match m w with
    | (Ok a, w') => (Ok a, w')
    | (Raise _, w') => h w'
    end.

Definition lift {A} (r : result A) : M A := fun w => (r, w).

Definition get_calc : M Calculation := fun w => (Ok w.(calc), w).
Definition get_self : M NWChemCalculation := fun w => (Ok w.(self), w).

Definition update_calc (f : Calculation -> Calculation) : M unit :=
  fun w => (Ok tt, mkWorld (f w.(calc)) w.(self) w.(warnings) w.(printed) w.(files)).
Definition update_self (f : NWChemCalculation -> NWChemCalculation) : M unit :=
  fun w => (Ok tt, mkWorld w.(calc) (f w.(self)) w.(warnings) w.(printed) w.(files)).
Definition warn (msg : string) : M unit :=
  fun w => (Ok tt, mkWorld w.(calc) w.(self) (w.(warnings) ++ [msg])%list w.(printed) w.(files)).
Definition print (s : string) : M unit :=
  fun w => (Ok tt, mkWorld w.(calc) w.(self) w.(warnings) (w.(printed) ++ [s])%list w.(files)).
Definition write_file (fname content : string) : M unit :=
  fun w => (Ok tt, mkWorld w.(calc) w.(self) w.(warnings) w.(printed)
                     (w.(files) ++ [(fname, content)])%list).

Declare Scope monad_scope.
Delimit Scope monad_scope with monad.
Notation "x <- m ;; k" := (bind m (fun x => k))
  (at level 61, m at next level, right associativity) : monad_scope.
Notation "m ;; k" := (bind m (fun _ => k))
  (at level 61, right associativity) : monad_scope.

(** [for x in l: body] *)
Fixpoint for_each {A} (l : list A) (body : A -> M unit) : M unit :=
  match l with
  | [] => ret tt
  | x :: l' => bind (body x) (fun _ => for_each l' body)
  end%list.

Definition when (b : bool) (m : M unit) : M unit := if b then m else ret tt.

Local Open Scope monad_scope.

Definition in_list (s : string) (l : list string) : bool :=
  existsb (String.eqb s) l.

(** ** The generator *)

Section Generator.

Variable env : Collaborators.

Definition KEYWORDS (t : CalcType) : option (list string) :=
  match t with
  | OPT => Some ["optimize"]
  | CONSTR_OPT => Some ["optimize"]
  | TS => Some ["saddle"]
  | FREQ => Some ["freq"]
  | NMR => Some ["property"]
  | SP => Some ["energy"]
  | OPTFREQ => Some ["optimize"; "freq"]
  | MEP => Some ["neb ignore"]
  | UVVIS | UVVIS_TDA => None
  end%list.

(** A subscript on a table: [KeyError] when the key is missing. *)
Definition subscript {A} (o : option A) : M A :=
  match o with
  | Some a => ret a
  | None => raise KeyError
  end.

Definition add_tasks (s : string) : M unit :=
  update_self (fun o => with_tasks (o.(tasks) ++ s) o).
Definition add_method_block (s : string) : M unit :=
  update_self (fun o => with_method_block (o.(method_block) ++ s) o).
Definition add_calculation_block (s : string) : M unit :=
  update_self (fun o => with_calculation_block (o.(calculation_block) ++ s) o).
Definition add_additional_block (s : string) : M unit :=
  update_self (fun o => with_additional_block (o.(additional_block) ++ s) o).

(** *** [clean] and [separate_lines] *)

Definition WHITELIST : string :=
  "0123456789abcdefghijklmnopqrstuvwxyzABCDEFGHIJKLMNOPQRSTUVWXYZ/()=-,._ ".

Fixpoint chr_in (c : ascii) (s : string) : bool :=
  match s with
  | "" => false
  | String a s' => Ascii.eqb c a || chr_in c s'
  end.

Fixpoint clean (s : string) : string :=
  match s with
  | "" => ""
  | String c s' => if chr_in c WHITELIST then String c (clean s') else clean s'
  end.

Fixpoint clean_lines (lines : list string) : list string :=
  match lines with
  | [] => []
  | line :: rest =>
      if negb (String.eqb (strip line) "")
      then clean (strip (lower line)) :: clean_lines rest
      else clean_lines rest
  end%list.

Definition separate_lines (text : string) : string :=
  join nl (clean_lines (split ";" text)).

(** *** [handle_tasks] *)

Definition dft_block (c : Calculation) : string :=
  nl ++ "            xc " ++ c.(parameters).(method) ++ nl
     ++ "            mult " ++ of_Z c.(multiplicity) ++ nl
     ++ "            ".

Definition handle_tasks : M unit :=
  c <- get_calc ;;
  words <- subscript (KEYWORDS c.(calc_type)) ;;
  for_each words (fun word =>
    c <- get_calc ;;
    let keyword :=
      if String.eqb c.(parameters).(theory_level) "ccsd"
      then c.(parameters).(method)
      else c.(parameters).(theory_level) in
    add_tasks ("task " ++ keyword ++ " " ++ word ++ " " ++ nl)) ;;
  c <- get_calc ;;
  (if String.eqb c.(parameters).(theory_level) "scf" then
     let scf_block := nl in
     let scf_block :=
       if negb (String.eqb c.(parameters).(method) "hf")
       then scf_block ++ c.(parameters).(method) ++ " " ++ nl
       else scf_block in
     m <- subscript (env.(SOFTWARE_MULTIPLICITY_nwchem) c.(multiplicity)) ;;
     let scf_block := scf_block ++ m ++ " " ++ nl in
     add_method_block scf_block
   else if String.eqb c.(parameters).(theory_level) "dft" then
     add_method_block (dft_block c) ;;
     (if c.(parameters).(d3) then add_method_block ("disp vdw 3 " ++ nl)
      else if c.(parameters).(d3bj) then add_method_block ("disp vdw 4 " ++ nl)
      else ret tt)
   else if in_list c.(parameters).(theory_level) ["mp2"; "ccsd"] then
     add_method_block nl
   else ret tt) ;;
  when (CalcType_eqb c.(calc_type) NMR)
    (add_calculation_block (" " ++ nl ++ " property " ++ nl ++ " shielding " ++ nl)).

(** *** [parse_custom_solvation_radii] and [handle_solvation] *)

Definition parse_custom_solvation_radii : M unit :=
  c <- get_calc ;;
  for_each (split ";" c.(parameters).(custom_solvation_radii)) (fun radius =>
    if String.eqb (strip radius) "" then ret tt
    else
      match split "=" radius with
      | [element; rad] =>
          match env.(LOWERCASE_ATOMIC_SYMBOLS) element with
          | None => raise InvalidParameter
          | Some _element =>
              match env.(float_str) rad with
              | None => raise InvalidParameter
              | Some _rad =>
                  update_self (fun o =>
                    with_solvation_radii
                      (dict_set _element _rad o.(self_solvation_radii)) o)
              end
          end
      | _ => raise InvalidParameter
      end%list).

Definition handle_solvation : M unit :=
  c <- get_calc ;;
  let p := c.(parameters) in
  if negb (in_list (lower p.(solvent)) [""; "vacuum"]) then
    solvent_keyword <-
      lift (env.(get_solvent) p.(solvent) p.(software) p.(solvation_model)) ;;
    let solvation_model := lower p.(solvation_model) in
    add_additional_block
      (nl ++ " cosmo " ++ nl ++ " minbem 3 " ++ nl ++ " ificos 1 " ++ nl
          ++ " solvent " ++ solvent_keyword ++ " " ++ nl) ;;
    (if in_list solvation_model ["cosmo"] then ret tt
     else if in_list solvation_model ["smd"; "smd18"] then
       add_additional_block ("do_cosmo_smd " ++ nl) ;;
       when (negb (String.eqb p.(theory_level) "dft"))
         (raise UnimplementedError)
     else raise UnimplementedError) ;;
    when (negb (in_list p.(solvation_radii) [""; "default"]))
      (raise UnimplementedError) ;;
    when (negb (String.eqb p.(custom_solvation_radii) ""))
      (parse_custom_solvation_radii ;;
       o <- get_self ;;
       let radii :=
         join nl (map (fun kv => fst kv ++ " " ++ snd kv) o.(self_solvation_radii)) in
       write_file (c.(name) ++ "_sol.parameters") radii ;;
       add_additional_block ("parameters " ++ c.(name) ++ "_sol.parameters " ++ nl) ;;
       warn ("Addtitional file " ++ c.(name)
             ++ "_sol.parameters was generated. This file will be needed for calculation to run."))
  else ret tt.

(** *** [handle_specifications] *)

(** The pattern of line 236 is: any characters, an opening parenthesis, a
    group of any characters, a closing parenthesis.  Inside one line both
    runs of any characters are greedy, so the group closes at the last
    closing parenthesis of the line and opens at the last opening
    parenthesis before it.  The result is the index of that opening
    parenthesis and the group. *)
Definition match_line (l : string) : option (nat * string) :=
  match rfind_chr ")" l with
  | None => None
  | Some j =>
      match rfind_chr "(" (take j l) with
      | None => None
      | Some i => Some (i, drop (S i) (take j l))
      end
  end.

(** The dot does not match a newline, so a match lies within one line, and
    the leftmost match is in the first line that has one. *)
Fixpoint search_lines (lines : list string) (offset : nat)
  : option (nat * string) :=
  match lines with
  | [] => None
  | l :: rest =>
      match match_line l with
      | Some (i, g) => Some (offset + i, g)
      | None => search_lines rest (offset + String.length l + 1)
      end
  end%list.

(** [matched], the result of [re.search] on [spec], as the pair of
    [matched.span(1)[0]] and [matched.group(1)]. *)
Definition re_search_block (spec : string) : option (nat * string) :=
  match search_lines (split "010" spec) 0 with
  | Some (i, g) => Some (S i, g)
  | None => None
  end.

Definition string_synonyms : list string :=
  ["string"; "freezing string sethod"; "fsm"; "freezing string"]%list.

(** The body of [for spec in s.split("\n")]: the object and the local
    [temp] before and after one token. *)
Definition route (c : Calculation) (st : NWChemCalculation * string)
    (spec : string) : NWChemCalculation * string :=
  let (o, temp) := st in
  let t := c.(calc_type) in
  let theory := c.(parameters).(theory_level) in
  match re_search_block spec with
  | None =>
      if in_list spec string_synonyms
      then (with_tasks (replace "neb" "string" o.(tasks)) o, temp)
      else (with_additional_block (o.(additional_block) ++ spec ++ " " ++ nl) o, temp)
  | Some (start, command) =>
      let block_name := take (start - 1) spec in
      if String.eqb block_name "scf" || String.eqb block_name "dft"
         || String.eqb block_name "hf"
      then (with_method_block (o.(method_block) ++ command ++ " " ++ nl) o, temp)
      else if (String.eqb block_name "opt" || String.eqb block_name "ts")
              && (CalcType_eqb t CONSTR_OPT || CalcType_eqb t OPT
                  || CalcType_eqb t TS || CalcType_eqb t OPTFREQ)
      then
        let o :=
          if String.eqb o.(calculation_block) ""
          then with_calculation_block
                 (o.(calculation_block) ++ nl ++ " driver " ++ nl) o
          else o in
        (with_calculation_block (o.(calculation_block) ++ command ++ " " ++ nl) o, temp)
      else if String.eqb block_name "nmr" && CalcType_eqb t NMR
      then (with_calculation_block (o.(calculation_block) ++ command ++ " " ++ nl) o, temp)
      else if String.eqb block_name "freq" && CalcType_eqb t FREQ
      then
        let o :=
          if String.eqb o.(calculation_block) ""
          then with_calculation_block
                 (o.(calculation_block) ++ nl ++ " freq " ++ nl) o
          else o in
        (with_calculation_block (o.(calculation_block) ++ command ++ " " ++ nl) o, temp)
      else if String.eqb block_name "freq" && CalcType_eqb t OPTFREQ
      then (o, temp ++ command ++ " " ++ nl)
      else if in_list block_name ["neb"; "string"; "fsm"] && CalcType_eqb t MEP
      then
        let o :=
          if String.eqb o.(calculation_block) ""
          then with_calculation_block
                 (o.(calculation_block) ++ nl ++ " neb " ++ nl) o
          else o in
        (with_calculation_block (o.(calculation_block) ++ command ++ " " ++ nl) o, temp)
      else if String.eqb block_name "sol" || String.eqb block_name "cosmo"
              || String.eqb block_name "smd"
      then (with_additional_block
              (replace ("cosmo " ++ nl) ("cosmo " ++ nl ++ " " ++ command ++ " " ++ nl)
                 o.(additional_block)) o, temp)
      else if String.eqb block_name "mp2" && String.eqb theory "mp2"
      then (with_method_block (o.(method_block) ++ command ++ " " ++ nl) o, temp)
      else if String.eqb block_name "cc" && String.eqb theory "ccsd"
      then (with_method_block (o.(method_block) ++ command ++ " " ++ nl) o, temp)
      else (o, temp)
  end.

(** Lines 230-283: the routing of the specification string and the
    patches that follow it. *)
Definition route_specifications : M unit :=
  c <- get_calc ;;
  let p := c.(parameters) in
  when (negb (String.eqb (strip (clean p.(specifications))) ""))
    (let temp := nl in
     let s := separate_lines p.(specifications) in
     print s ;;
     o <- get_self ;;
     let (o', temp) := fold_left (route c) (split "010" s) (o, temp) in
     update_self (fun _ => o') ;;
     when (negb (String.eqb temp nl))
       (add_additional_block (nl ++ " freq " ++ temp ++ " end " ++ nl))) ;;
  o <- get_self ;;
  when (String.eqb p.(theory_level) "mp2" && String.eqb o.(method_block) ("mp2" ++ nl))
    (update_self (with_method_block "")) ;;
  o <- get_self ;;
  when (String.eqb p.(theory_level) "ccsd" && String.eqb o.(method_block) ("ccsd" ++ nl))
    (update_self (with_method_block "")) ;;
  o <- get_self ;;
  when (contains "string" o.(tasks))
    (update_self (with_calculation_block
                    (replace "neb" "string" o.(calculation_block)))).

(** Lines 285-301: the constraints and the scans. *)
Definition handle_constraints : M unit :=
  c <- get_calc ;;
  when (CalcType_eqb c.(calc_type) CONSTR_OPT)
    (when (Nat.eqb (List.length c.(constraints)) 0) (raise InvalidParameter) ;;
     let constraints_ :=
       fold_left (fun acc k => acc ++ k.(to_nwchem)) c.(constraints) "" in
     when (negb (String.eqb constraints_ ""))
       (add_additional_block
          (nl ++ " geometry adjust " ++ nl ++ " zcoord " ++ nl ++ " "
              ++ constraints_ ++ " end " ++ nl ++ " end " ++ nl))) ;;
  when (CalcType_eqb c.(calc_type) CONSTR_OPT)
    (for_each c.(constraints) (fun k =>
       when k.(scan) (add_additional_block k.(to_nwchem)))).

Definition handle_specifications : M unit :=
  route_specifications ;; handle_constraints.

(** *** [handle_xyz] *)

Definition handle_xyz : M unit :=
  c <- get_calc ;;
  cleaned <- lift (env.(clean_xyz) c.(xyz)) ;;
  let lines :=
    map (fun i => i ++ nl)
        (filter (fun i => negb (String.eqb i "")) (split "010" cleaned)) in
  update_self (with_xyz_structure (join "" lines)).

(** *** [handle_basis_sets] and [parse_custom_basis_set] *)

(** [re.search] of a literal [start], a lazy group and a literal [stop]
    under [re.DOTALL]: the group runs from the first [start] to the first
    [stop] after it. *)
Definition between (start stop s : string) : option string :=
  match find start s with
  | None => None
  | Some p =>
      let rest := drop (p + String.length start) s in
      match find stop rest with
      | None => None
      | Some q => Some (take q rest)
      end
  end.

(** The first loop of [parse_custom_basis_set], over the lines of the
    geometry: [unique_atoms] and [normal_atoms]. *)
Definition scan_atoms (custom_basis_sets : str_or_dict)
    (acc : list string * list string) (line : string)
  : list string * list string :=
  let (unique_atoms, normal_atoms) := acc in
  if String.eqb (strip line) "" then acc
  else
    match first_field line with
    | None => acc
    | Some a =>
        if negb (in_list a unique_atoms) then
          let unique_atoms := (unique_atoms ++ [a])%list in
          if negb (in_list a normal_atoms) && negb (member a custom_basis_sets)
          then (unique_atoms, (normal_atoms ++ [a])%list)
          else (unique_atoms, normal_atoms)
        else acc
    end.

(** The locals the second loop fills. *)
Record Splice := mkSplice {
  to_append_bs : list string;
  to_append_ecp : list string;
  not_recoginzed_bs : dict;
  custom_atoms : list string
}.

Definition basis_marker : string :=
  "BASIS " ++ dquote ++ "ao basis" ++ dquote ++ " SPHERICAL PRINT" ++ nl.

(** The body of [for el, bs_keyword in custom_basis_sets.items()]. *)
Definition splice_element (unique_atoms : list string) (loc : Splice)
    (item : string * string) : M Splice :=
  let (el, bs_keyword) := item in
  if negb (in_list el unique_atoms) then ret loc
  else
    let custom_atoms := (loc.(custom_atoms) ++ [el])%list in
    match env.(ATOMIC_NUMBER) el with
    | None => raise InvalidParameter
    | Some el_num =>
        match env.(get_basis) bs_keyword el_num with
        | None =>
            warn ("Basis set " ++ bs_keyword
                  ++ " couldn't be pulled from basis set exchange. The ECP will not be added to this basis set.") ;;
            ret (mkSplice loc.(to_append_bs) loc.(to_append_ecp)
                   (dict_set el bs_keyword loc.(not_recoginzed_bs)) custom_atoms)
        | Some bs =>
            let matched_ECP := between ("ECP" ++ nl) "END" bs in
            let matched_bs := between basis_marker "END" bs in
            let to_append_ecp :=
              match matched_ECP with
              | Some g => (loc.(to_append_ecp) ++ [g])%list
              | None => loc.(to_append_ecp)
              end in
            match matched_bs with
            | None => raise AttributeError
            | Some g =>
                ret (mkSplice (loc.(to_append_bs) ++ [g])%list to_append_ecp
                       loc.(not_recoginzed_bs) custom_atoms)
            end
        end
    end.

Fixpoint splice_elements (unique_atoms : list string) (loc : Splice)
    (l : dict) : M Splice :=
  match l with
  | [] => ret loc
  | item :: rest =>
      loc' <- splice_element unique_atoms loc item ;;
      splice_elements unique_atoms loc' rest
  end%list.

(** Reading [self.basis_set]: [AttributeError] while it is not set. *)
Definition read_basis_set : M string :=
  o <- get_self ;;
  match o.(self_basis_set) with
  | Some b => ret b
  | None => raise AttributeError
  end.

Definition assign_basis_set (b : string) : M unit :=
  update_self (with_basis_set (Some b)).

(** [self.basis_set += s] *)
Definition add_basis_set (s : string) : M unit :=
  b <- read_basis_set ;; assign_basis_set (b ++ s).

Definition parse_custom_basis_set (base_bs : string) : M unit :=
  c <- get_calc ;;
  let custom_basis_sets := c.(parameters).(custom_basis_sets) in
  let (unique_atoms, normal_atoms) :=
    fold_left (scan_atoms custom_basis_sets) (split "010" c.(xyz)) ([], [])%list in
  its <- lift (items custom_basis_sets) ;;
  loc <- splice_elements unique_atoms (mkSplice [] [] [] []) its ;;
  when (0 <? List.length loc.(custom_atoms))%nat
    (let custom_bs := join nl loc.(to_append_bs) in
     assign_basis_set ("basis spherical " ++ nl ++ " " ++ custom_bs ++ " " ++ nl ++ " ") ;;
     when (0 <? List.length normal_atoms)%nat
       (add_basis_set ("* library " ++ base_bs ++ " except "
                       ++ join " " loc.(custom_atoms) ++ " " ++ nl))) ;;
  when (0 <? List.length loc.(not_recoginzed_bs))%nat
    (_ <- read_basis_set ;;
     (* the attribute holds a string here, never [None]: the test of line
        216 is false *)
     for_each loc.(not_recoginzed_bs) (fun kv =>
       add_basis_set (fst kv ++ " library " ++ snd kv ++ " " ++ nl))) ;;
  try_except (add_basis_set "end")
    (assign_basis_set ("basis " ++ nl ++ " * library " ++ base_bs ++ " " ++ nl ++ " end")) ;;
  when (0 <? List.length loc.(to_append_ecp))%nat
    (add_basis_set (nl ++ " " ++ nl ++ " ecp " ++ nl) ;;
     add_basis_set (join nl loc.(to_append_ecp)) ;;
     add_basis_set " end").

Definition handle_basis_sets : M unit :=
  c <- get_calc ;;
  let p := c.(parameters) in
  basis_set_ <- lift (env.(get_basis_set) p.(basis_set) "nwchem") ;;
  if negb (String.eqb basis_set_ "") && Nat.eqb (len p.(custom_basis_sets)) 0
  then assign_basis_set ("basis " ++ nl ++ " * library " ++ basis_set_ ++ " " ++ nl ++ " end")
  else if ne_empty_str p.(custom_basis_sets)
  then parse_custom_basis_set basis_set_
  else raise MissingParameter.

(** *** [close_blocks] *)

Definition close_method_block (o : NWChemCalculation) : NWChemCalculation :=
  if negb (contains ("end " ++ nl) o.(method_block))
     && negb (String.eqb o.(method_block) "")
  then with_method_block (o.(method_block) ++ " end " ++ nl) o
  else o.

Definition close_calculation_block (o : NWChemCalculation) : NWChemCalculation :=
  if negb (contains ("end " ++ nl) o.(calculation_block))
     && negb (String.eqb o.(calculation_block) "")
  then with_calculation_block (o.(calculation_block) ++ " end " ++ nl) o
  else o.

Definition close_additional_block (o : NWChemCalculation) : NWChemCalculation :=
  if negb (contains ("end " ++ nl) o.(additional_block))
     && negb (String.eqb (clean o.(additional_block)) "")
  then with_additional_block (o.(additional_block) ++ "end " ++ nl) o
  else o.

Definition close_blocks : M unit :=
  update_self close_method_block ;;
  update_self close_calculation_block ;;
  update_self close_additional_block.

(** *** [create_input_file] *)

(** [TEMPLATE.format(...)] with the ten fields in order. *)
Definition TEMPLATE_format (header name mem charge xyz_structure basis_set
    method_block calculation_block additional_block tasks : string) : string :=
  "TITLE " ++ dquote ++ header ++ dquote ++ nl
  ++ "    start " ++ name ++ nl
  ++ "    memory total " ++ mem ++ nl
  ++ "    charge " ++ charge ++ nl
  ++ nl
  ++ "    geometry units angstroms" ++ nl
  ++ "    " ++ xyz_structure ++ "end" ++ nl
  ++ nl
  ++ "    " ++ basis_set ++ nl
  ++ nl
  ++ "    " ++ method_block ++ calculation_block ++ additional_block ++ nl
  ++ "    " ++ tasks ++ nl
  ++ "    ".

Definition strip_lines (raw : string) : string :=
  join nl (map strip (split "010" raw)).

Definition create_input_file : M unit :=
  c <- get_calc ;;
  o <- get_self ;;
  b <- read_basis_set ;;
  let raw :=
    TEMPLATE_format c.(header) c.(name) (format c.(mem)) (of_Z c.(charge))
      o.(xyz_structure) b o.(method_block) o.(calculation_block)
      o.(additional_block) o.(tasks) in
  update_self (with_input_file (strip_lines raw)).

(** *** The constructor *)

(** The theory level the constructor writes back into the request. *)
Definition nwchem_theory_level (p : Parameters) : string :=
  if String.eqb p.(theory_level) "hf" || String.eqb p.(method) "uhf"
     || String.eqb p.(method) "rhf"
  then "scf"
  else if String.eqb p.(theory_level) "cc" then "ccsd"
  else p.(theory_level).

Definition __init__ : M unit :=
  update_calc (fun c => set_mem (AStr (format c.(mem) ++ " mb")) c) ;;
  update_calc (fun c =>
    set_parameters (set_theory_level (nwchem_theory_level c.(parameters))
                      c.(parameters)) c) ;;
  c <- get_calc ;;
  update_self (with_method_block c.(parameters).(theory_level)) ;;
  match KEYWORDS c.(calc_type) with
  | None => raise ImpossibleCalculation
  | Some _ =>
      handle_tasks ;;
      handle_solvation ;;
      handle_specifications ;;
      handle_xyz ;;
      handle_basis_sets ;;
      close_blocks ;;
      create_input_file
  end.

(** The store when the constructor starts on the caller's [calc]: every
    buffer empty, [basis_set] not set. *)
Definition start (calc : Calculation) : World :=
  mkWorld calc (mkSelf "" "" "" [] "" "" "" None) [] [] [].

(** [NWChemCalculation(calc).output]: the document, or the exception, with
    the store the run leaves behind. *)
Definition generate (calc : Calculation) : result string * World :=
  match __init__ (start calc) with
  | (Ok _, w) => (Ok w.(self).(input_file), w)
  | (Raise e, w) => (Raise e, w)
  end.

End Generator.

(** ** Notions used in the statements *)

(** The closing marker [close_blocks] looks for. *)
Definition closing_marker : string := "end " ++ nl.

(** The store once the constructor has done its own assignments, before the
    first stage: the request with its memory suffixed and its theory level
    aliased, the method block holding the theory level. *)
Definition configured (calc : Calculation) : World :=
  let p := calc.(parameters) in
  mkWorld
    (set_parameters (set_theory_level (nwchem_theory_level p) p)
       (set_mem (AStr (format calc.(mem) ++ " mb")) calc))
    (mkSelf (nwchem_theory_level p) "" "" [] "" "" "" None) [] [] [].

(** The stages in the order the constructor runs them. *)
Definition stages (env : Collaborators) : M unit :=
  handle_tasks env ;;
  handle_solvation env ;;
  handle_specifications ;;
  handle_xyz env ;;
  handle_basis_sets env ;;
  close_blocks ;;
  create_input_file.

(** The three steps of [close_blocks] on the object. *)
Definition closed (o : NWChemCalculation) : NWChemCalculation :=
  close_additional_block (close_calculation_block (close_method_block o)).

(** [after] is the block [before] as the closer leaves it: it holds a
    closing marker; a block that held one already is unchanged; a block that
    held none ends with the marker and holds it once. *)
Definition closed_block (before after : string) : Prop :=
  contains closing_marker after = true
  /\ (contains closing_marker before = true -> after = before)
  /\ (contains closing_marker before = false ->
      endswith closing_marker after = true
      /\ occurrences closing_marker after = 1).

(** The tokens the router loops over: none when the sanitized specification
    string is blank. *)
Definition tokens_of (text : string) : list string :=
  if negb (String.eqb (strip (clean text)) "")
  then split "010" (separate_lines text)
  else [].

(** The effect of lines 230-283 on the object, for the request [c]. *)
Definition routed (c : Calculation) (o : NWChemCalculation) : NWChemCalculation :=
  let p := c.(parameters) in
  let o1 :=
    if negb (String.eqb (strip (clean p.(specifications))) "") then
      let (o', temp) :=
        fold_left (route c) (split "010" (separate_lines p.(specifications))) (o, nl) in
      if negb (String.eqb temp nl)
      then with_additional_block
             (o'.(additional_block) ++ nl ++ " freq " ++ temp ++ " end " ++ nl) o'
      else o'
    else o in
  let o2 :=
    if String.eqb p.(theory_level) "mp2" && String.eqb o1.(method_block) ("mp2" ++ nl)
    then with_method_block "" o1 else o1 in
  let o3 :=
    if String.eqb p.(theory_level) "ccsd" && String.eqb o2.(method_block) ("ccsd" ++ nl)
    then with_method_block "" o2 else o2 in
  if contains "string" o3.(tasks)
  then with_calculation_block (replace "neb" "string" o3.(calculation_block)) o3
  else o3.

(** The block name of a token of the form [blockname(argument)]. *)
Definition block_name_of (spec : string) : option string :=
  match re_search_block spec with
  | Some (start, _) => Some (take (start - 1) spec)
  | None => None
  end.

(** The block names the router acts on, for the kind and theory level of
    [c]: the guards of lines 247-275. *)
Definition recognised (c : Calculation) (block_name : string) : bool :=
  let t := c.(calc_type) in
  let theory := c.(parameters).(theory_level) in
  (String.eqb block_name "scf" || String.eqb block_name "dft"
   || String.eqb block_name "hf")
  || ((String.eqb block_name "opt" || String.eqb block_name "ts")
      && (CalcType_eqb t CONSTR_OPT || CalcType_eqb t OPT
          || CalcType_eqb t TS || CalcType_eqb t OPTFREQ))
  || (String.eqb block_name "nmr" && CalcType_eqb t NMR)
  || (String.eqb block_name "freq" && CalcType_eqb t FREQ)
  || (String.eqb block_name "freq" && CalcType_eqb t OPTFREQ)
  || (in_list block_name ["neb"; "string"; "fsm"] && CalcType_eqb t MEP)
  || (String.eqb block_name "sol" || String.eqb block_name "cosmo"
      || String.eqb block_name "smd")
  || (String.eqb block_name "mp2" && String.eqb theory "mp2")
  || (String.eqb block_name "cc" && String.eqb theory "ccsd").

(** The argument of a token of the form [blockname(argument)]:
    [matched.group(1)]. *)
Definition argument_of (spec : string) : option string :=
  match re_search_block spec with
  | Some (_, command) => Some command
  | None => None
  end.

(** The four texts a token can reach: the method block, the
    calculation-type block, the ancillary block and the local [temp] of
    frequency commands. *)
Inductive Buffer := Method | CalculationType | Ancillary | FrequencyCommands.

(** The buffer the chain of lines 247-275 selects for a block name, for the
    kind and theory level of [c]; [None] when no guard of the chain holds. *)
Definition buffer_of (c : Calculation) (block_name : string) : option Buffer :=
  let t := c.(calc_type) in
  let theory := c.(parameters).(theory_level) in
  if String.eqb block_name "scf" || String.eqb block_name "dft"
     || String.eqb block_name "hf"
  then Some Method
  else if (String.eqb block_name "opt" || String.eqb block_name "ts")
          && (CalcType_eqb t CONSTR_OPT || CalcType_eqb t OPT
              || CalcType_eqb t TS || CalcType_eqb t OPTFREQ)
  then Some CalculationType
  else if String.eqb block_name "nmr" && CalcType_eqb t NMR
  then Some CalculationType
  else if String.eqb block_name "freq" && CalcType_eqb t FREQ
  then Some CalculationType
  else if String.eqb block_name "freq" && CalcType_eqb t OPTFREQ
  then Some FrequencyCommands
  else if in_list block_name ["neb"; "string"; "fsm"] && CalcType_eqb t MEP
  then Some CalculationType
  else if String.eqb block_name "sol" || String.eqb block_name "cosmo"
          || String.eqb block_name "smd"
  then Some Ancillary
  else if String.eqb block_name "mp2" && String.eqb theory "mp2"
  then Some Method
  else if String.eqb block_name "cc" && String.eqb theory "ccsd"
  then Some Method
  else None.

(** What a token written to the calculation-type block puts before its
    argument: the header of lines 255, 261 and 267 when the block is still
    empty (none for [nmr], line 258), nothing otherwise. *)
Definition opening (block_name block : string) : string :=
  if String.eqb block ""
  then
    if String.eqb block_name "opt" || String.eqb block_name "ts"
    then nl ++ " driver " ++ nl
    else if String.eqb block_name "freq" then nl ++ " freq " ++ nl
    else if String.eqb block_name "nmr" then ""
    else nl ++ " neb " ++ nl
  else "".

(** The token is one the router appends to the method block. *)
Definition routes_to_method (theory spec : string) : bool :=
  match block_name_of spec with
  | None => false
  | Some b =>
      (String.eqb b "scf" || String.eqb b "dft" || String.eqb b "hf")
      || (String.eqb b "mp2" && String.eqb theory "mp2")
      || (String.eqb b "cc" && String.eqb theory "ccsd")
  end.

(** One token changes at most one of the method block, the
    calculation-type block, the ancillary block and [temp]. *)
Definition touches_at_most_one (st st' : NWChemCalculation * string) : Prop :=
  (fst st' = with_method_block (fst st').(method_block) (fst st) /\ snd st' = snd st)
  \/ (fst st' = with_calculation_block (fst st').(calculation_block) (fst st)
      /\ snd st' = snd st)
  \/ (fst st' = with_additional_block (fst st').(additional_block) (fst st)
      /\ snd st' = snd st)
  \/ fst st' = fst st.


(** The atoms of the geometry, as [parse_custom_basis_set] collects them. *)
Definition unique_atoms_of (c : Calculation) : list string :=
  fst (fold_left (scan_atoms c.(parameters).(custom_basis_sets))
         (split "010" c.(xyz)) ([], [])).

(** An override the second loop of [parse_custom_basis_set] passes without
    raising: its element is absent from the geometry, or it is a known
    element whose query fails or returns text with a basis section. *)
Definition item_ok (env : Collaborators) (unique_atoms : list string)
    (item : string * string) : Prop :=
  in_list (fst item) unique_atoms = false
  \/ exists el_num,
       env.(ATOMIC_NUMBER) (fst item) = Some el_num
       /\ (env.(get_basis) (snd item) el_num = None
           \/ exists bs g,
                env.(get_basis) (snd item) el_num = Some bs
                /\ between basis_marker "END" bs = Some g).

(** The store with more warnings, and with [self.basis_set] assigned. *)
Definition add_warnings (msgs : list string) (w : World) : World :=
  mkWorld w.(calc) w.(self) (w.(warnings) ++ msgs)%list w.(printed) w.(files).

Definition store_basis_set (b : string) (w : World) : World :=
  mkWorld w.(calc) (with_basis_set (Some b) w.(self)) w.(warnings) w.(printed)
    w.(files).

(** The block lines 210-227 write once the loop has found a custom atom. *)
Definition spliced_block (base_bs : string) (normal_atoms : list string)
    (loc : Splice) : string :=
  let b0 :=
    "basis spherical " ++ nl ++ " " ++ join nl loc.(to_append_bs) ++ " " ++ nl ++ " " in
  let b1 :=
    if (0 <? List.length normal_atoms)%nat
    then b0 ++ "* library " ++ base_bs ++ " except "
            ++ join " " loc.(custom_atoms) ++ " " ++ nl
    else b0 in
  let b2 :=
    fold_left (fun b kv => b ++ fst kv ++ " library " ++ snd kv ++ " " ++ nl)
      loc.(not_recoginzed_bs) b1 in
  let b3 := b2 ++ "end" in
  if (0 <? List.length loc.(to_append_ecp))%nat
  then ((b3 ++ nl ++ " " ++ nl ++ " ecp " ++ nl) ++ join nl loc.(to_append_ecp))
       ++ " end"
  else b3.

(** The warning of line 202. *)
Definition basis_warning (bs_keyword : string) : string :=
  "Basis set " ++ bs_keyword
  ++ " couldn't be pulled from basis set exchange. The ECP will not be added to this basis set.".

(** [m] keeps the property [I] of the store, whether it returns or raises. *)
Definition preserves {A} (I : World -> Prop) (m : M A) : Prop :=
  forall w, I w -> I (snd (m w)).

(** A property that does not look at the messages and files of a run. *)
Definition ignores_logs (I : World -> Prop) : Prop :=
  (forall m, preserves I (warn m))
  /\ (forall s, preserves I (print s))
  /\ (forall f c, preserves I (write_file f c)).

(** ** Sample collaborators and requests

    A small table of multiplicities and of elements, look-ups that return
    the name they are given, and a basis database that cannot be reached. *)

Definition sample_env : Collaborators :=
  mkCollaborators
    (fun b _ => Ok b)
    (fun s _ _ => Ok s)
    (fun x => Ok x)
    (fun m =>
       match m with
       | 1%Z => Some "singlet"
       | 2%Z => Some "doublet"
       | 3%Z => Some "triplet"
       | _ => None
       end)
    (fun el =>
       if String.eqb el "H" then Some 1%Z
       else if String.eqb el "C" then Some 6%Z
       else if String.eqb el "I" then Some 53%Z
       else None)
    (fun el =>
       if String.eqb el "h" then Some "H"
       else if String.eqb el "c" then Some "C"
       else if String.eqb el "i" then Some "I"
       else None)
    (fun _ _ => None)
    (fun _ => None).

Definition sample_parameters : Parameters :=
  mkParameters "nwchem" "dft" "b3lyp" "6-31g" (TheDict []) "" "" "" "" "" false false.

(** A single-point energy of the hydrogen molecule. *)
Definition sample_request : Calculation :=
  mkCalculation sample_parameters SP "File created by ccinput" "h2" (AnInt 1000)
    0 1 ("H 0 0 0" ++ nl ++ "H 0 0 0.74") [].

(** The sample request with no basis set and an empty map of overrides. *)
Definition no_basis_request : Calculation :=
  set_parameters
    (mkParameters "nwchem" "dft" "b3lyp" "" (TheDict []) "" "" "" "" "" false false)
    sample_request.

(** A constrained optimisation without constraints, second-order
    perturbation theory in water with the SMD model. *)
Definition constrained_smd_request : Calculation :=
  mkCalculation
    (mkParameters "nwchem" "mp2" "mp2" "6-31g" (TheDict []) "water" "smd" "" "" ""
       false false)
    CONSTR_OPT "File created by ccinput" "h2" (AnInt 1000) 0 1
    ("H 0 0 0" ++ nl ++ "H 0 0 0.74") [].

(** The same constrained optimisation in vacuum. *)
Definition constrained_request : Calculation :=
  mkCalculation sample_parameters CONSTR_OPT "File created by ccinput" "h2"
    (AnInt 1000) 0 1 ("H 0 0 0" ++ nl ++ "H 0 0 0.74") [].

(** A request whose specification string holds one token with a block name
    the router does not know. *)
Definition unknown_block_request : Calculation :=
  set_parameters
    (mkParameters "nwchem" "dft" "b3lyp" "6-31g" (TheDict []) "" "" "" ""
       "foo(bar)" false false)
    sample_request.

(** The sample request at second-order perturbation theory. *)
Definition mp2_request : Calculation :=
  set_parameters
    (mkParameters "nwchem" "mp2" "mp2" "6-31g" (TheDict []) "" "" "" "" ""
       false false)
    sample_request.

(** A minimum-energy-path search that asks for the string method. *)
Definition mep_request : Calculation :=
  mkCalculation
    (mkParameters "nwchem" "dft" "b3lyp" "6-31g" (TheDict []) "" "" "" ""
       "neb(nbeads 10);string" false false)
    MEP "File created by ccinput" "h2" (AnInt 1000) 0 1
    ("H 0 0 0" ++ nl ++ "H 0 0 0.74") [].

(** The sample request in water with the SMD model. *)
Definition smd_request : Calculation :=
  set_parameters
    (mkParameters "nwchem" "dft" "b3lyp" "6-31g" (TheDict []) "water" "smd" "" ""
       "" false false)
    sample_request.

(** An absorption spectrum, a kind without task keywords, at second-order
    perturbation theory in water with the SMD model. *)
Definition uvvis_smd_request : Calculation :=
  mkCalculation
    (mkParameters "nwchem" "mp2" "mp2" "6-31g" (TheDict []) "water" "smd" "" "" ""
       false false)
    UVVIS "File created by ccinput" "h2" (AnInt 1000) 0 1
    ("H 0 0 0" ++ nl ++ "H 0 0 0.74") [].

(** A constrained optimisation with one constraint, which is also a scan;
    the text stands for what the constraint's own [to_nwchem()] returns. *)
Definition scan_request : Calculation :=
  mkCalculation sample_parameters CONSTR_OPT "File created by ccinput" "h2"
    (AnInt 1000) 0 1 ("H 0 0 0" ++ nl ++ "H 0 0 0.74")
    [mkConstraint true (" bond 1 2 0.9 constant " ++ nl)].

(** Hydrogen iodide with a custom basis set for iodine. *)
Definition iodide_request : Calculation :=
  mkCalculation
    (mkParameters "nwchem" "dft" "b3lyp" "6-31g" (TheDict [("I", "sdd")]) "" "" ""
       "" "" false false)
    SP "File created by ccinput" "hi" (AnInt 1000) 0 1
    ("H 0 0 0" ++ nl ++ "I 0 0 1.6") [].

(** The same with a dummy centre [X], which is no element, and an override
    for it. *)
Definition dummy_centre_request : Calculation :=
  mkCalculation
    (mkParameters "nwchem" "dft" "b3lyp" "6-31g"
       (TheDict [("I", "sdd"); ("X", "sdd")]) "" "" "" "" "" false false)
    SP "File created by ccinput" "hi" (AnInt 1000) 0 1
    ("H 0 0 0" ++ nl ++ "I 0 0 1.6" ++ nl ++ "X 0 0 3.2") [].

(** ** Notions used in the further properties *)

(** Every character of [s] passes the test [f]. *)
Fixpoint all_chars (f : ascii -> bool) (s : string) : bool :=
  match s with
  | "" => true
  | String c s' => f c && all_chars f s'
  end.

(** White space, or the separator of the specification string. *)
Definition blank_or_sep (c : ascii) : bool := isspace c || Ascii.eqb c ";".

(** Every character of [sub] comes from [s]. *)
Definition from (s sub : string) : Prop :=
  forall c, chr_in c sub = true -> chr_in c s = true.

(** A piece of text that lies within one line and neither begins nor ends
    with white space. *)
Definition solid (p : string) : Prop :=
  chr_in "010" p = false /\ lstrip p = p /\ rstrip p = p /\ p <> "".

(** [m], started where [I] holds, ends where [Q] holds, whether it returns
    or raises. *)
Definition establishes {A} (I Q : World -> Prop) (m : M A) : Prop :=
  forall w, I w -> Q (snd (m w)).

(** The name of the file of custom solvation radii (line 334). *)
Definition radii_file (c : Calculation) : string := name c ++ "_sol.parameters".

(** The files of a run: those there were, and at most the one file of
    radii more. *)
Definition one_more_file (fs : list (string * string)) (c : Calculation)
    (w : World) : Prop :=
  files w = fs \/ exists radii, files w = (fs ++ [(radii_file c, radii)])%list.

(** What the router prints for the request [c] (line 233). *)
Definition printed_by (c : Calculation) : list string :=
  if negb (strip (clean (specifications (parameters c))) =? "")
  then [separate_lines (specifications (parameters c))]
  else [].

(** The attribute [basis_set] has been assigned. *)
Definition basis_set_assigned (w : World) : Prop :=
  exists b, self_basis_set (self w) = Some b.

(** The lines [handle_xyz] keeps: the non-empty ones (line 303). *)
Definition geometry_lines (t : string) : list string :=
  filter (fun i => negb (i =? "")) (split "010" t).

(** The atoms without an override, as [parse_custom_basis_set] collects
    them. *)
Definition normal_atoms_of (c : Calculation) : list string :=
  snd (fold_left (scan_atoms c.(parameters).(custom_basis_sets))
         (split "010" c.(xyz)) ([], [])).

(** The first fields of the non-blank lines, in order. *)
Fixpoint first_fields (lines : list string) : list string :=
  match lines with
  | [] => []
  | line :: rest =>
      if strip line =? "" then first_fields rest
      else match first_field line with
           | Some a => a :: first_fields rest
           | None => first_fields rest
           end
  end.

(** What the first loop of [parse_custom_basis_set] keeps true of its two
    lists, [seen] being the first fields read so far. *)
Definition atoms_invariant (cbs : str_or_dict) (seen : list string)
    (acc : list string * list string) : Prop :=
  NoDup (fst acc) /\ NoDup (snd acc)
  /\ (forall a, In a (snd acc) <-> In a (fst acc) /\ member a cbs = false)
  /\ (forall a, In a (fst acc) <-> In a seen).

(** The keyword of the task directives: the method for coupled cluster,
    the theory level otherwise (lines 123-126). *)
Definition task_keyword (p : Parameters) : string :=
  if theory_level p =? "ccsd" then method p else theory_level p.

(** One task directive (line 127). *)
Definition task_line (p : Parameters) (word : string) : string :=
  "task " ++ task_keyword p ++ " " ++ word ++ " " ++ nl.

(** The directive [handle_tasks] writes for the flags [d3] and [d3bj]
    (lines 141-144): the first takes precedence. *)
Definition dispersion (p : Parameters) : string :=
  if d3 p then "disp vdw 3 " ++ nl
  else if d3bj p then "disp vdw 4 " ++ nl
  else "".

(** A segment of the radii string the parser accepts: [<atom>=<radius>]
    with a known lower-case symbol and a number; [E] is the symbol with its
    case restored and [r] the number as a float. *)
Definition radius_ok (env : Collaborators) (seg E r : string) : Prop :=
  exists element rad,
    split "=" seg = [element; rad]
    /\ LOWERCASE_ATOMIC_SYMBOLS env element = Some E
    /\ float_str env rad = Some r.

(** The body of the loop of [parse_custom_solvation_radii] (lines
    340-363). *)
Definition parse_radius (env : Collaborators) (radius : string) : M unit :=
  if String.eqb (strip radius) "" then ret tt
  else
    match split "=" radius with
    | [element; rad] =>
        match env.(LOWERCASE_ATOMIC_SYMBOLS) element with
        | None => raise InvalidParameter
        | Some _element =>
            match env.(float_str) rad with
            | None => raise InvalidParameter
            | Some _rad =>
                update_self (fun o =>
                  with_solvation_radii
                    (dict_set _element _rad o.(self_solvation_radii)) o)
            end
        end
    | _ => raise InvalidParameter
    end%list.


(** The text of all constraints, and that of the scans among them (lines
    289-291 and 299-301). *)
Definition constraints_text (cs : list Constraint) : string :=
  fold_left (fun acc k => acc ++ to_nwchem k) cs "".

Definition scans_text (cs : list Constraint) : string :=
  fold_left (fun acc k => if scan k then acc ++ to_nwchem k else acc) cs "".

(** What lines 285-301 append to the ancillary block. *)
Definition constraint_block (cs : list Constraint) : string :=
  (if constraints_text cs =? "" then ""
   else nl ++ " geometry adjust " ++ nl ++ " zcoord " ++ nl ++ " "
        ++ constraints_text cs ++ " end " ++ nl ++ " end " ++ nl)
  ++ scans_text cs.

(** The command of a token [freq(command)] of a request of kind
    [OPTFREQ] (line 264). *)
Definition frequency_command (c : Calculation) (spec : string) : option string :=
  match re_search_block spec with
  | Some (start, command) =>
      if String.eqb (take (start - 1) spec) "freq"
         && CalcType_eqb c.(calc_type) OPTFREQ
      then Some command else None
  | None => None
  end.

(** The lines those commands make, in the order of the tokens. *)
Definition frequency_text (c : Calculation) (tokens : list string) : string :=
  fold_left
    (fun acc tok =>
       match frequency_command c tok with
       | Some command => acc ++ command ++ " " ++ nl
       | None => acc
       end)
    tokens "".

(** The text a calculation-type block begins with, by kind: the property
    block of line 148, or the header the router writes before the first
    command (lines 256, 262 and 268). *)
Definition header_of (t : CalcType) : option string :=
  match t with
  | OPT | CONSTR_OPT | TS | OPTFREQ => Some (nl ++ " driver " ++ nl)
  | FREQ => Some (nl ++ " freq " ++ nl)
  | MEP => Some (nl ++ " neb " ++ nl)
  | NMR => Some (" " ++ nl ++ " property " ++ nl ++ " shielding " ++ nl)
  | _ => None
  end.

(** The block is empty (never so for [NMR]) or begins with the header of
    the kind. *)
Definition headed (t : CalcType) (block : string) : Prop :=
  match header_of t with
  | Some h => (block = "" /\ t <> NMR) \/ startswith h block = true
  | None => block = ""
  end.

(** ** Further sample requests *)

(** Hartree-Fock on a quartet, a multiplicity the sample table does not
    name. *)
Definition quartet_request : Calculation :=
  mkCalculation
    (mkParameters "nwchem" "hf" "hf" "6-31g" (TheDict []) "" "" "" "" ""
       false false)
    SP "File created by ccinput" "h2" (AnInt 1000) 0 4
    ("H 0 0 0" ++ nl ++ "H 0 0 0.74") [].

(** The sample request in water with a solvation model the generator does
    not know. *)
Definition pcm_request : Calculation :=
  set_parameters
    (mkParameters "nwchem" "dft" "b3lyp" "6-31g" (TheDict []) "water" "pcm" "" ""
       "" false false)
    sample_request.

(** The sample request with an override for a centre that is neither in
    the geometry nor an element. *)
Definition absent_override_request : Calculation :=
  mkCalculation
    (mkParameters "nwchem" "dft" "b3lyp" "6-31g" (TheDict [("Xx", "sdd")]) "" ""
       "" "" "" false false)
    SP "File created by ccinput" "h2" (AnInt 1000) 0 1
    ("H 0 0 0" ++ nl ++ "H 0 0 0.74") [].

(** The sample request with both dispersion flags set. *)
Definition d3_request : Calculation :=
  set_parameters
    (mkParameters "nwchem" "dft" "b3lyp" "6-31g" (TheDict []) "" "" "" "" ""
       true true)
    sample_request.




(** Collaborators that read the number [1.2], and the sample request in
    water with a custom radius for hydrogen. *)
Definition radii_env : Collaborators :=
  mkCollaborators
    (get_basis_set sample_env) (get_solvent sample_env) (clean_xyz sample_env)
    (SOFTWARE_MULTIPLICITY_nwchem sample_env) (ATOMIC_NUMBER sample_env)
    (LOWERCASE_ATOMIC_SYMBOLS sample_env) (get_basis sample_env)
    (fun r => if String.eqb r "1.2" then Some "1.2" else None).

Definition radii_request : Calculation :=
  set_parameters
    (mkParameters "nwchem" "dft" "b3lyp" "6-31g" (TheDict []) "water" "cosmo" ""
       "h=1.2;" "" false false)
    sample_request.

(** An optimisation followed by frequencies, with a command for each. *)
Definition optfreq_request : Calculation :=
  mkCalculation
    (mkParameters "nwchem" "dft" "b3lyp" "6-31g" (TheDict []) "" "" "" ""
       "opt(maxiter 5);freq(temp 1 300)" false false)
    OPTFREQ "File created by ccinput" "h2" (AnInt 1000) 0 1
    ("H 0 0 0" ++ nl ++ "H 0 0 0.74") [].

(** * The tables of synonyms ([ccinput/documentation.py])

    [format_dict_str] lays a [dict] from names to lists of synonyms out as
    a two-column table; [format_dict_enum] does so for a [dict] keyed by the
    members of an enumeration. *)

Module documentation.

(** [n * c] for a one-character string [c]. *)
Fixpoint times (n : nat) (c : ascii) : string :=
  match n with
  | O => ""
  | S k => String c (times k c)
  end.

(** ["{:<{}}".format(s, width)]: [s] padded with blanks on the right. *)
Definition ljust (s : string) (width : nat) : string :=
  s ++ times (width - String.length s) " ".

(** [d.items()] of a [dict] from names to lists of synonyms, in insertion
    order. *)
Definition entries := list (string * list string).

(** Lines 3-6: the lengths the width is taken over. *)
Definition arr_l (d : entries) (name : string) : list nat :=
  fold_left
    (fun acc item =>
       (acc ++ [String.length (fst item)] ++ map String.length (snd item))%list)
    d [String.length name].

(** [sorted(items, key=lambda i: i[0])]: the stable sort by key, written as
    an insertion sort; an entry goes before the first one whose key is not
    smaller. *)
Fixpoint insert (x : string * list string) (l : entries) : entries :=
  match l with
  | [] => [x]
  | y :: l' => if String.leb (fst x) (fst y) then x :: l else y :: insert x l'
  end.

Definition sorted (d : entries) : entries := fold_right insert [] d.

(** The body of the loop of line 15: one more synonym of a name. *)
Definition synonym_row (ll : nat) (tab s : string) : string :=
  tab ++ nl ++ times ll " " ++ " " ++ s ++ nl.

(** The body of the loop of lines 12-16. *)
Definition add_row (ll : nat) (tab : string) (item : string * list string) : string :=
  let (k, syns) := item in
  let tab := tab ++ ljust k ll ++ " " ++ hd "" syns ++ nl in
  if (1 <? List.length syns)%nat
  then fold_left (synonym_row ll) (tl syns) tab
  else tab.

(** [tab] before the final [strip]. *)
Definition table (d : entries) (name : string) : string :=
  let ll := list_max (arr_l d name) in
  let tab :=
    times ll "=" ++ " ========" ++ nl
    ++ ljust name ll ++ " Synonyms" ++ nl
    ++ times ll "=" ++ " ========" ++ nl in
  let tab := fold_left (add_row ll) (sorted d) tab in
  tab ++ times ll "=" ++ " ========".

Definition format_dict_str (d : entries) (name : string) : string :=
  strip (table d name).

(** [d[k] = v] on the entries. *)
Fixpoint assign (k : string) (v : list string) (d : entries) : entries :=
  match d with
  | [] => [(k, v)]
  | (k', v') :: d' =>
      if String.eqb k k' then (k, v) :: d' else (k', v') :: assign k v d'
  end.

(** [format_dict_enum] for an enumeration with members [K], [name_of]
    being the attribute [name] of a member: the comprehension of line 22
    builds a [dict] keyed by the names. *)
Definition format_dict_enum {K : Type} (name_of : K -> string)
    (d : list (K * list string)) (name : string) : string :=
  format_dict_str
    (fold_left (fun acc kv => assign (name_of (fst kv)) (snd kv) acc) d [])
    name.

(** The width of the first column. *)
Definition width (d : entries) (name : string) : nat := list_max (arr_l d name).



End documentation.

(** ** Facts about the string operations *)

Module PyStrFacts.

Lemma append_nil_r (s : string) : s ++ "" = s.
Proof. induction s as [|c s IH]; cbn; [reflexivity | now rewrite IH]. Qed.

Lemma append_assoc (a b c : string) : (a ++ b) ++ c = a ++ (b ++ c).
Proof. induction a as [|x a IH]; cbn; [reflexivity | now rewrite IH]. Qed.

Lemma append_eq_nil (a b : string) : a ++ b = "" -> a = "" /\ b = "".
Proof. destruct a; cbn; [auto | discriminate]. Qed.

Lemma startswith_nil (s : string) : startswith "" s = true.
Proof. destruct s; reflexivity. Qed.

Lemma startswith_app (p s : string) : startswith p (p ++ s) = true.
Proof.
  induction p as [|a p IH]; cbn; [reflexivity|].
  now rewrite Ascii.eqb_refl.
Qed.

Lemma startswith_app_l (p a b : string) :
  startswith p a = true -> startswith p (a ++ b) = true.
Proof.
  revert a; induction p as [|x p IH]; intros a H.
  - apply startswith_nil.
  - destruct a as [|y a]; cbn in *; [discriminate|].
    apply andb_true_iff in H as [H1 H2].
    now rewrite H1, (IH _ H2).
Qed.

(** A string that starts with [p] is [p] followed by the rest. *)
Lemma startswith_split (p s : string) :
  startswith p s = true -> s = p ++ drop (String.length p) s.
Proof.
  revert s; induction p as [|x p IH]; intros s H.
  - now destruct s.
  - destruct s as [|y s]; cbn in *; [discriminate|].
    apply andb_true_iff in H as [H1 H2].
    apply Ascii.eqb_eq in H1; subst y.
    now rewrite <- (IH _ H2).
Qed.

Lemma contains_nil_r (p : string) : p <> "" -> contains p "" = false.
Proof. destruct p; [congruence | reflexivity]. Qed.

Lemma contains_startswith (p s : string) :
  startswith p s = true -> contains p s = true.
Proof. intros H; destruct s; cbn in *; now rewrite H. Qed.

Lemma contains_cons (p : string) (c : ascii) (s : string) :
  contains p s = true -> contains p (String c s) = true.
Proof. intros H; cbn; rewrite H; apply orb_true_r. Qed.

Lemma contains_app_r (p a b : string) :
  contains p b = true -> contains p (a ++ b) = true.
Proof.
  intros H; induction a as [|c a IH]; cbn [append]; [assumption|].
  now apply contains_cons.
Qed.

Lemma contains_app_l (p a b : string) :
  contains p a = true -> contains p (a ++ b) = true.
Proof.
  induction a as [|c a IH]; intros H.
  - destruct p; cbn in H; [|discriminate].
    apply contains_startswith, startswith_nil.
  - cbn [append]. cbn in H. apply orb_true_iff in H as [H|H].
    + apply contains_startswith.
      now apply (startswith_app_l p (String c a) b).
    + apply contains_cons; auto.
Qed.

Lemma contains_self_app (p a b : string) : contains p (a ++ p ++ b) = true.
Proof. apply contains_app_r, contains_startswith, startswith_app. Qed.

Lemma contains_false_cons (p : string) (c : ascii) (s : string) :
  contains p (String c s) = false ->
  startswith p (String c s) = false /\ contains p s = false.
Proof. cbn [contains]; intros H; now apply orb_false_iff in H. Qed.

Lemma endswith_app (p s : string) : endswith p (s ++ p) = true.
Proof.
  induction s as [|c s IH]; cbn [append].
  - destruct p; cbn; [reflexivity|].
    now rewrite Ascii.eqb_refl, String.eqb_refl.
  - cbn [endswith]. rewrite IH. apply orb_true_r.
Qed.

Lemma occurrences_zero (p s : string) :
  contains p s = false -> occurrences p s = 0.
Proof.
  induction s as [|c s IH]; cbn; intros H.
  - apply orb_false_iff in H as [H _]. now rewrite H.
  - apply orb_false_iff in H as [H1 H2]. now rewrite H1, IH.
Qed.

(** *** [replace] *)

Lemma replace_from_skip (old new u t : string) :
  replace_from old new (String.length u) (u ++ t) = replace_from old new 0 t.
Proof. induction u as [|c u IH]; cbn; [reflexivity | assumption]. Qed.

Lemma replace_match (old new t : string) :
  old <> "" -> replace old new (old ++ t) = new ++ replace old new t.
Proof.
  intros Hne. destruct old as [|a old]; [congruence|].
  unfold replace. cbn [append replace_from].
  change (String a (old ++ t)) with (String a old ++ t).
  rewrite startswith_app. cbn [String.length Nat.sub].
  rewrite ?Nat.sub_0_r. now rewrite replace_from_skip.
Qed.

Lemma replace_skip (old new : string) (c : ascii) (s : string) :
  startswith old (String c s) = false ->
  replace old new (String c s) = String c (replace old new s).
Proof. intros H; unfold replace; cbn [replace_from]; now rewrite H. Qed.

Lemma length_drop (n : nat) (s : string) :
  String.length (drop n s) <= String.length s.
Proof.
  revert s; induction n as [|n IH]; intros [|c s]; cbn; auto.
Qed.

(** Induction along the scan of [replace]: at a match the scan jumps over
    [old], elsewhere it moves one character. *)
Lemma scan_ind (old : string) (Hne : old <> "") (P : string -> Prop) :
  P "" ->
  (forall t, P t -> P (old ++ t)) ->
  (forall c s, startswith old (String c s) = false -> P s -> P (String c s)) ->
  forall s, P s.
Proof.
  intros H0 Hm Hs s.
  remember (String.length s) as n eqn:Hn.
  revert s Hn; induction n as [n IH] using lt_wf_ind; intros s Hn.
  destruct s as [|c s]; [exact H0|].
  destruct (startswith old (String c s)) eqn:E.
  - rewrite (startswith_split _ _ E). apply Hm.
    apply (IH (String.length (drop (String.length old) (String c s)))); [|reflexivity].
    subst n. destruct old as [|a old]; [congruence|]. cbn.
    pose proof (length_drop (String.length old) s). lia.
  - apply Hs; [assumption|].
    apply (IH (String.length s)); [subst n; cbn; lia | reflexivity].
Qed.


Lemma replace_absent (old new s : string) :
  old <> "" -> contains old s = false -> replace old new s = s.
Proof.
  intros Hne. induction s as [|c s IH]; intros H; [reflexivity|].
  apply contains_false_cons in H as [H1 H2].
  rewrite replace_skip by assumption. now rewrite IH.
Qed.

(** Case analysis on the comparisons of a symbolic character with a
    literal one. *)
Ltac chars :=
  repeat match goal with
    | |- context [Ascii.eqb ?a ?b] =>
        is_var b; destruct (Ascii.eqb_spec a b); [subst b|]; cbn in *
    | H : context [Ascii.eqb ?a ?b] |- _ =>
        is_var b; destruct (Ascii.eqb_spec a b); [subst b|]; cbn in *
    end.

(** *** The replacement of [neb] by [string] *)






(** *** The splice into the solvation block keeps the SMD directive *)

Lemma replace_cosmo_keeps_smd (new s : string) :
  contains "do_cosmo_smd" s = true ->
  contains "do_cosmo_smd" (replace ("cosmo " ++ nl) new s) = true.
Proof.
  induction s as [| t IH | c s E IH]
    using (scan_ind ("cosmo " ++ nl) ltac:(discriminate)).
  - discriminate.
  - intros H. rewrite replace_match by discriminate.
    apply contains_app_r, IH. cbn in H. exact H.
  - intros H. rewrite replace_skip by assumption.
    cbn [contains] in H. apply orb_true_iff in H as [H|H].
    + rewrite <- (replace_skip _ new c s E).
      apply startswith_split in H.
      remember (drop (String.length "do_cosmo_smd") (String c s)) as t.
      rewrite H. unfold replace. cbn. reflexivity.
    + apply contains_cons; auto.
Qed.


(** *** The closing marker *)

(** Appending text that begins with a marker, possibly after one space,
    to a block in which no marker starts, creates the one occurrence at
    the junction and none across it. *)
Lemma marker_not_across (s suffix : string) :
  suffix = " end " ++ nl \/ suffix = "end " ++ nl ->
  s <> "" ->
  startswith ("end " ++ nl) s = false ->
  startswith ("end " ++ nl) (s ++ suffix) = false.
Proof.
  intros Hsuf Hne H.
  destruct s as [|c1 [|c2 [|c3 [|c4 [|c5 s]]]]]; [congruence| | | | |];
    destruct Hsuf; subst suffix; cbn in *; chars; try reflexivity; try congruence;
    exact H.
Qed.

Lemma marker_once (s suffix : string) :
  suffix = " end " ++ nl \/ suffix = "end " ++ nl ->
  contains ("end " ++ nl) s = false ->
  occurrences ("end " ++ nl) (s ++ suffix) = 1.
Proof.
  intros Hsuf. induction s as [|c s IH]; intros H.
  - destruct Hsuf; subst suffix; reflexivity.
  - apply contains_false_cons in H as [H1 H2].
    pose proof (marker_not_across (String c s) suffix Hsuf ltac:(discriminate) H1) as Hx.
    specialize (IH H2). set (E := "end " ++ nl) in *.
    cbn [append occurrences]. cbn [append] in Hx. now rewrite Hx, IH.
Qed.

Lemma marker_present (s suffix : string) :
  suffix = " end " ++ nl \/ suffix = "end " ++ nl ->
  contains ("end " ++ nl) (s ++ suffix) = true
  /\ endswith ("end " ++ nl) (s ++ suffix) = true.
Proof.
  intros [H|H]; subst suffix; split.
  - apply contains_app_r. reflexivity.
  - change (" end " ++ nl) with (" " ++ "end " ++ nl).
    rewrite <- append_assoc. apply endswith_app.
  - apply contains_app_r. reflexivity.
  - apply endswith_app.
Qed.



(** *** Text without white space survives the line-by-line stripping *)

Lemma split_cons (sep : ascii) (s : string) :
  exists h t, split sep s = (h :: t)%list.
Proof.
  induction s as [|c s (h & t & IH)]; cbn; [now eauto|].
  destruct (Ascii.eqb c sep); [now eauto|]. rewrite IH. eauto.
Qed.

Lemma startswith_first_line (p s : string) :
  no_space p = true -> startswith p s = true ->
  exists h t, split "010" s = (h :: t)%list /\ startswith p h = true.
Proof.
  revert s; induction p as [|a p IH]; intros s Hp H.
  - destruct (split_cons "010" s) as (h & t & E). exists h, t. split; auto.
  - destruct s as [|b s]; cbn in H; [discriminate|].
    apply andb_true_iff in H as [H1 H2]. apply Ascii.eqb_eq in H1; subst b.
    cbn in Hp. apply andb_true_iff in Hp as [Ha Hp].
    destruct (IH s Hp H2) as (h & t & E & F).
    cbn [split]. destruct (Ascii.eqb_spec a "010") as [->|_]; [discriminate|].
    rewrite E. exists (String a h), t. split; [reflexivity|].
    cbn. now rewrite Ascii.eqb_refl.
Qed.

Lemma contains_some_line (p s : string) :
  p <> "" -> no_space p = true -> contains p s = true ->
  exists l, In l (split "010" s) /\ contains p l = true.
Proof.
  intros Hne Hp. induction s as [|c s IH]; intros H.
  - now rewrite contains_nil_r in H.
  - cbn [contains] in H. apply orb_true_iff in H as [H|H].
    + destruct (startswith_first_line _ _ Hp H) as (h & t & E & F).
      exists h. rewrite E. split; [now left | now apply contains_startswith].
    + destruct (IH H) as (l & Hin & Hl).
      cbn [split]. destruct (Ascii.eqb c "010"); [exists l; split; [now right | assumption]|].
      destruct (split_cons "010" s) as (h & t & E). rewrite E in *.
      destruct Hin as [<-|Hin].
      * exists (String c h). split; [now left | now apply contains_cons].
      * exists l. split; [now right | assumption].
Qed.

Lemma contains_lstrip (p s : string) :
  p <> "" -> no_space p = true -> contains p s = true ->
  contains p (lstrip s) = true.
Proof.
  intros Hne Hp. induction s as [|c s IH]; intros H; [assumption|].
  cbn [lstrip]. destruct (isspace c) eqn:Hc; [|assumption].
  apply IH. cbn [contains] in H. apply orb_true_iff in H as [H|H]; [|assumption].
  destruct p as [|a p]; [congruence|]. cbn in H, Hp.
  apply andb_true_iff in H as [H _]. apply Ascii.eqb_eq in H; subst a.
  rewrite Hc in Hp. discriminate.
Qed.

Lemma rstrip_cons (c : ascii) (s : string) :
  rstrip s <> "" -> rstrip (String c s) = String c (rstrip s).
Proof. intros H; cbn; destruct (rstrip s); congruence. Qed.

Lemma startswith_rstrip (p s : string) :
  no_space p = true -> startswith p s = true -> startswith p (rstrip s) = true.
Proof.
  revert s; induction p as [|a p IH]; intros s Hp H; [now destruct (rstrip s)|].
  destruct s as [|b s]; cbn in H; [discriminate|].
  apply andb_true_iff in H as [H1 H2]. apply Ascii.eqb_eq in H1; subst b.
  cbn in Hp. apply andb_true_iff in Hp as [Ha Hp].
  specialize (IH s Hp H2). cbn [rstrip].
  destruct (rstrip s) as [|r rs] eqn:E.
  - destruct p; [|discriminate]. apply negb_true_iff in Ha. rewrite Ha.
    cbn. now rewrite Ascii.eqb_refl.
  - cbn. now rewrite Ascii.eqb_refl.
Qed.

Lemma contains_rstrip (p s : string) :
  p <> "" -> no_space p = true -> contains p s = true ->
  contains p (rstrip s) = true.
Proof.
  intros Hne Hp. induction s as [|c s IH]; intros H; [assumption|].
  cbn [contains] in H. apply orb_true_iff in H as [H|H].
  - now apply contains_startswith, startswith_rstrip.
  - specialize (IH H). rewrite rstrip_cons.
    + now apply contains_cons.
    + intros E. rewrite E, contains_nil_r in IH by assumption. discriminate.
Qed.

Lemma contains_strip (p s : string) :
  p <> "" -> no_space p = true -> contains p s = true ->
  contains p (strip s) = true.
Proof. intros; unfold strip; now apply contains_rstrip, contains_lstrip. Qed.

Lemma contains_join (p sep x : string) (l : list string) :
  In x l -> contains p x = true -> contains p (join sep l) = true.
Proof.
  induction l as [|y l IH]; intros Hin H; [contradiction|].
  destruct Hin as [->|Hin].
  - destruct l; cbn [join]; [assumption | now apply contains_app_l].
  - destruct l as [|z l]; [contradiction|].
    cbn [join]. apply contains_app_r, contains_app_r. exact (IH Hin H).
Qed.

End PyStrFacts.

(** ** Invariants of the store across the stages *)


Section Preservation.

Context (I : World -> Prop).

Lemma preserves_ret {A} (a : A) : preserves I (ret a).
Proof. intros w H; exact H. Qed.

Lemma preserves_raise {A} (e : exn) : preserves I (@raise A e).
Proof. intros w H; exact H. Qed.

Lemma preserves_lift {A} (r : result A) : preserves I (lift r).
Proof. intros w H; exact H. Qed.

Lemma preserves_subscript {A} (o : option A) : preserves I (subscript o).
Proof. destruct o; intros w H; exact H. Qed.

Lemma preserves_get_calc : preserves I get_calc.
Proof. intros w H; exact H. Qed.

Lemma preserves_get_self : preserves I get_self.
Proof. intros w H; exact H. Qed.

Lemma preserves_bind {A B} (m : M A) (k : A -> M B) :
  preserves I m -> (forall a, preserves I (k a)) -> preserves I (bind m k).
Proof.
  intros Hm Hk w H. unfold bind. specialize (Hm w H).
  destruct (m w) as [[a|e] w1]; cbn in *; [now apply Hk | assumption].
Qed.

Lemma preserves_when (b : bool) (m : M unit) :
  preserves I m -> preserves I (when b m).
Proof. destruct b; cbn; [auto | intros _; apply preserves_ret]. Qed.

Lemma preserves_for_each {A} (l : list A) (body : A -> M unit) :
  (forall x, preserves I (body x)) -> preserves I (for_each l body).
Proof.
  intros Hb; induction l as [|x l IH]; cbn [for_each].
  - apply preserves_ret.
  - apply preserves_bind; auto.
Qed.

Lemma preserves_try_except {A} (m h : M A) :
  preserves I m -> preserves I h -> preserves I (try_except m h).
Proof.
  intros Hm Hh w H. unfold try_except. specialize (Hm w H).
  destruct (m w) as [[a|e] w1]; cbn in *; [assumption | now apply Hh].
Qed.

End Preservation.

(** One step of a frame argument: the structure is taken apart, and what
    is left is a write, to be found among the hypotheses. *)
Ltac frame_step :=
  match goal with
  | |- preserves _ (bind _ _) => apply preserves_bind; [|intros ?]
  | |- preserves _ (ret _) => apply preserves_ret
  | |- preserves _ (raise _) => apply preserves_raise
  | |- preserves _ (lift _) => apply preserves_lift
  | |- preserves _ (subscript _) => apply preserves_subscript
  | |- preserves _ get_calc => apply preserves_get_calc
  | |- preserves _ get_self => apply preserves_get_self
  | |- preserves _ (when _ _) => apply preserves_when
  | |- preserves _ (for_each _ _) => apply preserves_for_each; intros ?
  | |- preserves _ (try_except _ _) => apply preserves_try_except
  | |- preserves _ (if ?b then _ else _) => destruct b
  | |- preserves _ (match ?x with _ => _ end) => destruct x
  | |- preserves _ _ => progress cbv zeta
  | |- preserves _ _ => solve [auto]
  end.

Ltac frame := repeat frame_step.


Section Frames.

Variable env : Collaborators.
Context (I : World -> Prop).
Hypothesis Hlogs : ignores_logs I.

Let Hwarn := proj1 Hlogs.
Let Hprint := proj1 (proj2 Hlogs).
Let Hwrite := proj2 (proj2 Hlogs).

Lemma handle_tasks_frame :
  (forall s, preserves I (add_tasks s)) ->
  (forall s, preserves I (add_method_block s)) ->
  (forall s, preserves I (add_calculation_block s)) ->
  preserves I (handle_tasks env).
Proof. intros; unfold handle_tasks; frame. Qed.

Lemma parse_custom_solvation_radii_frame :
  (forall f, preserves I (update_self (fun o => with_solvation_radii (f o) o))) ->
  preserves I (parse_custom_solvation_radii env).
Proof.
  intros H; unfold parse_custom_solvation_radii; frame.
Qed.

Lemma handle_solvation_frame :
  (forall s, preserves I (add_additional_block s)) ->
  (forall f, preserves I (update_self (fun o => with_solvation_radii (f o) o))) ->
  preserves I (handle_solvation env).
Proof.
  intros; unfold handle_solvation; frame;
    auto using parse_custom_solvation_radii_frame.
Qed.

Lemma handle_constraints_frame :
  (forall s, preserves I (add_additional_block s)) ->
  preserves I handle_constraints.
Proof. intros; unfold handle_constraints; frame. Qed.

Lemma handle_xyz_frame :
  (forall v, preserves I (update_self (with_xyz_structure v))) ->
  preserves I (handle_xyz env).
Proof. intros; unfold handle_xyz; frame. Qed.

Lemma splice_elements_frame unique_atoms loc l :
  preserves I (splice_elements env unique_atoms loc l).
Proof.
  revert loc; induction l as [|item l IH]; intros loc; cbn [splice_elements].
  - apply preserves_ret.
  - apply preserves_bind; [|auto]. unfold splice_element. frame.
Qed.

Lemma handle_basis_sets_frame :
  (forall b, preserves I (assign_basis_set b)) ->
  preserves I (handle_basis_sets env).
Proof.
  intros; unfold handle_basis_sets, parse_custom_basis_set, add_basis_set, read_basis_set;
    frame; auto using splice_elements_frame.
Qed.

Lemma create_input_file_frame :
  (forall v, preserves I (update_self (with_input_file v))) ->
  preserves I create_input_file.
Proof. intros; unfold create_input_file, read_basis_set; frame. Qed.

End Frames.

Import PyStrFacts.

(** ** The run of the constructor *)

Lemma bind_Ok {A B} (m : M A) (k : A -> M B) w b w' :
  bind m k w = (Ok b, w') ->
  exists a w1, m w = (Ok a, w1) /\ k a w1 = (Ok b, w').
Proof.
  unfold bind. destruct (m w) as [[a|e] w1]; intros H; [eauto | discriminate].
Qed.

Lemma bind_Raise {A B} (m : M A) (k : A -> M B) w e w' :
  m w = (Raise e, w') -> bind m k w = (Raise e, w').
Proof. unfold bind; intros ->; reflexivity. Qed.

Lemma bind_step {A B} (m : M A) (k : A -> M B) w a w1 :
  m w = (Ok a, w1) -> bind m k w = k a w1.
Proof. unfold bind; intros ->; reflexivity. Qed.

Lemma init_unfold env c :
  __init__ env (start c) =
  match KEYWORDS (calc_type c) with
  | None => (Raise ImpossibleCalculation, configured c)
  | Some _ => stages env (configured c)
  end.
Proof.
  unfold __init__, bind, update_calc, get_calc, update_self; cbn.
  destruct (KEYWORDS (calc_type c)); reflexivity.
Qed.

Lemma close_blocks_run w :
  close_blocks w =
  (Ok tt, mkWorld (calc w) (closed (self w)) (warnings w) (printed w) (files w)).
Proof. reflexivity. Qed.

(** A successful generation, stage by stage. *)
Lemma generate_Ok env c doc w :
  generate env c = (Ok doc, w) ->
  KEYWORDS (calc_type c) <> None /\
  exists w1 w2 w3 w4 w5,
    handle_tasks env (configured c) = (Ok tt, w1)
    /\ handle_solvation env w1 = (Ok tt, w2)
    /\ handle_specifications w2 = (Ok tt, w3)
    /\ handle_xyz env w3 = (Ok tt, w4)
    /\ handle_basis_sets env w4 = (Ok tt, w5)
    /\ create_input_file (snd (close_blocks w5)) = (Ok tt, w)
    /\ doc = input_file (self w).
Proof.
  unfold generate. rewrite init_unfold.
  destruct (KEYWORDS (calc_type c)) as [l|]; [|discriminate].
  destruct (stages env (configured c)) as [[[]|e] wf] eqn:E; [|discriminate].
  intros H; inversion H; subst; clear H. split; [discriminate|].
  unfold stages in E.
  apply bind_Ok in E as ([] & w1 & E1 & E).
  apply bind_Ok in E as ([] & w2 & E2 & E).
  apply bind_Ok in E as ([] & w3 & E3 & E).
  apply bind_Ok in E as ([] & w4 & E4 & E).
  apply bind_Ok in E as ([] & w5 & E5 & E).
  apply bind_Ok in E as ([] & w6 & E6 & E).
  exists w1, w2, w3, w4, w5. repeat split; auto.
  rewrite E6. exact E.
Qed.

(** ** The Block Closer *)

Lemma close_method_block_idem o :
  close_method_block (close_method_block o) = close_method_block o.
Proof.
  unfold close_method_block.
  destruct (negb (contains ("end " ++ nl) (method_block o))
            && negb (method_block o =? "")) eqn:E;
    cbn [method_block with_method_block].
  - rewrite (proj1 (marker_present (method_block o) _ (or_introl eq_refl))).
    reflexivity.
  - now rewrite E.
Qed.

Lemma close_calculation_block_idem o :
  close_calculation_block (close_calculation_block o) = close_calculation_block o.
Proof.
  unfold close_calculation_block.
  destruct (negb (contains ("end " ++ nl) (calculation_block o))
            && negb (calculation_block o =? "")) eqn:E;
    cbn [calculation_block with_calculation_block].
  - rewrite (proj1 (marker_present (calculation_block o) _ (or_introl eq_refl))).
    reflexivity.
  - now rewrite E.
Qed.

Lemma close_additional_block_idem o :
  close_additional_block (close_additional_block o) = close_additional_block o.
Proof.
  unfold close_additional_block.
  destruct (negb (contains ("end " ++ nl) (additional_block o))
            && negb (clean (additional_block o) =? "")) eqn:E;
    cbn [additional_block with_additional_block].
  - rewrite (proj1 (marker_present (additional_block o) _ (or_intror eq_refl))).
    reflexivity.
  - now rewrite E.
Qed.

(** Each step reads and writes its own block only. *)
Lemma close_method_block_rest o :
  calculation_block (close_method_block o) = calculation_block o
  /\ additional_block (close_method_block o) = additional_block o
  /\ self_solvation_radii (close_method_block o) = self_solvation_radii o
  /\ xyz_structure (close_method_block o) = xyz_structure o
  /\ tasks (close_method_block o) = tasks o
  /\ input_file (close_method_block o) = input_file o
  /\ self_basis_set (close_method_block o) = self_basis_set o.
Proof. unfold close_method_block; destruct (_ && _); repeat split. Qed.

Lemma close_calculation_block_rest o :
  method_block (close_calculation_block o) = method_block o
  /\ additional_block (close_calculation_block o) = additional_block o
  /\ self_solvation_radii (close_calculation_block o) = self_solvation_radii o
  /\ xyz_structure (close_calculation_block o) = xyz_structure o
  /\ tasks (close_calculation_block o) = tasks o
  /\ input_file (close_calculation_block o) = input_file o
  /\ self_basis_set (close_calculation_block o) = self_basis_set o.
Proof. unfold close_calculation_block; destruct (_ && _); repeat split. Qed.

Lemma close_additional_block_rest o :
  method_block (close_additional_block o) = method_block o
  /\ calculation_block (close_additional_block o) = calculation_block o
  /\ self_solvation_radii (close_additional_block o) = self_solvation_radii o
  /\ xyz_structure (close_additional_block o) = xyz_structure o
  /\ tasks (close_additional_block o) = tasks o
  /\ input_file (close_additional_block o) = input_file o
  /\ self_basis_set (close_additional_block o) = self_basis_set o.
Proof. unfold close_additional_block; destruct (_ && _); repeat split. Qed.

Lemma close_calculation_block_local o o' :
  calculation_block o = calculation_block o' ->
  calculation_block (close_calculation_block o)
  = calculation_block (close_calculation_block o').
Proof.
  unfold close_calculation_block; intros H; rewrite H; destruct (_ && _); cbn; auto.
Qed.

Lemma close_additional_block_local o o' :
  additional_block o = additional_block o' ->
  additional_block (close_additional_block o)
  = additional_block (close_additional_block o').
Proof.
  unfold close_additional_block; intros H; rewrite H; destruct (_ && _); cbn; auto.
Qed.

Lemma closed_fields o :
  method_block (closed o) = method_block (close_method_block o)
  /\ calculation_block (closed o) = calculation_block (close_calculation_block o)
  /\ additional_block (closed o) = additional_block (close_additional_block o)
  /\ self_solvation_radii (closed o) = self_solvation_radii o
  /\ xyz_structure (closed o) = xyz_structure o
  /\ tasks (closed o) = tasks o
  /\ input_file (closed o) = input_file o
  /\ self_basis_set (closed o) = self_basis_set o.
Proof.
  unfold closed.
  destruct (close_method_block_rest o) as (C1 & A1 & R1 & X1 & T1 & F1 & B1).
  destruct (close_calculation_block_rest (close_method_block o))
    as (M2 & A2 & R2 & X2 & T2 & F2 & B2).
  destruct (close_additional_block_rest
              (close_calculation_block (close_method_block o)))
    as (M3 & C3 & R3 & X3 & T3 & F3 & B3).
  repeat split; try congruence.
  - rewrite C3. now apply close_calculation_block_local.
  - apply close_additional_block_local. congruence.
Qed.

Lemma self_ext (o o' : NWChemCalculation) :
  method_block o = method_block o' ->
  calculation_block o = calculation_block o' ->
  additional_block o = additional_block o' ->
  self_solvation_radii o = self_solvation_radii o' ->
  xyz_structure o = xyz_structure o' ->
  tasks o = tasks o' ->
  input_file o = input_file o' ->
  self_basis_set o = self_basis_set o' ->
  o = o'.
Proof. destruct o, o'; cbn; intros; subst; reflexivity. Qed.

Lemma close_method_block_local o o' :
  method_block o = method_block o' ->
  method_block (close_method_block o) = method_block (close_method_block o').
Proof.
  unfold close_method_block; intros H; rewrite H; destruct (_ && _); cbn; auto.
Qed.

Lemma closed_idem o : closed (closed o) = closed o.
Proof.
  destruct (closed_fields o) as (M & C & A & R & X & T & F & B).
  destruct (closed_fields (closed o)) as (M' & C' & A' & R' & X' & T' & F' & B').
  apply self_ext; try congruence.
  - rewrite M', M, <- (close_method_block_idem o) at 1.
    now apply close_method_block_local.
  - rewrite C', C, <- (close_calculation_block_idem o) at 1.
    now apply close_calculation_block_local.
  - rewrite A', A, <- (close_additional_block_idem o) at 1.
    now apply close_additional_block_local.
Qed.

(** C9. [close_blocks] is idempotent: on any store, running it a second time
    leaves the method, calculation-type and ancillary blocks, and the whole
    store, as the first run left them. *)
Theorem C9_close_blocks_idempotent (w : World) :
  close_blocks (snd (close_blocks w)) = close_blocks w.
Proof. rewrite !close_blocks_run; cbn; now rewrite closed_idem. Qed.

(** ** The Specification Router *)

Lemma when_update_self (b : bool) f w :
  when b (update_self f) w =
  (Ok tt,
   mkWorld (calc w) (if b then f (self w) else self w) (warnings w) (printed w)
     (files w)).
Proof. destruct b, w; reflexivity. Qed.

(** The loop over the tokens, lines 230-277: the local [temp] starts as a
    newline, and what it has gathered is appended after the loop. *)
Lemma route_tokens_run (c : Calculation) (text : string) w :
  (print text ;;
   o <- get_self ;;
   let (o', temp) := fold_left (route c) (split "010" text) (o, nl) in
   update_self (fun _ => o') ;;
   when (negb (String.eqb temp nl))
     (add_additional_block (nl ++ " freq " ++ temp ++ " end " ++ nl))) w
  = (Ok tt,
     mkWorld (calc w)
       (let (o', temp) := fold_left (route c) (split "010" text) (self w, nl) in
        if negb (String.eqb temp nl)
        then with_additional_block
               (additional_block o' ++ nl ++ " freq " ++ temp ++ " end " ++ nl) o'
        else o')
       (warnings w) (printed w ++ [text])%list (files w)).
Proof.
  unfold bind, print, get_self. cbn [calc self warnings printed files].
  destruct (fold_left (route c) (split "010" text) (self w, nl)) as [o' temp].
  unfold update_self at 1. cbn [calc self warnings printed files].
  unfold add_additional_block. rewrite when_update_self. reflexivity.
Qed.

(** The router never raises; its effect on the object is [routed]. *)
Lemma route_specifications_run w :
  route_specifications w =
  (Ok tt,
   mkWorld (calc w) (routed (calc w) (self w)) (warnings w)
     (if negb (String.eqb (strip (clean (specifications (parameters (calc w))))) "")
      then printed w ++ [separate_lines (specifications (parameters (calc w)))]
      else printed w)%list
     (files w)).
Proof.
  unfold route_specifications.
  rewrite (bind_step get_calc _ w (calc w) w) by reflexivity.
  cbv zeta.
  set (guard := negb (strip (clean (specifications (parameters (calc w)))) =? "")).
  set (text := separate_lines (specifications (parameters (calc w)))).
  match goal with
  | |- bind (when guard ?m) _ _ = _ =>
      assert (Hloop : when guard m w =
                (Ok tt, if guard then snd (m w) else w))
  end.
  { destruct guard; cbn [when]; [|reflexivity].
    now rewrite route_tokens_run. }
  rewrite (bind_step _ _ _ _ _ Hloop). clear Hloop.
  set (w1 := if guard then _ else w).
  rewrite (bind_step get_self _ w1 (self w1) w1) by reflexivity.
  rewrite (bind_step _ _ _ _ _ (when_update_self _ _ w1)).
  set (w2 := mkWorld _ _ _ _ _).
  rewrite (bind_step get_self _ w2 (self w2) w2) by reflexivity.
  rewrite (bind_step _ _ _ _ _ (when_update_self _ _ w2)).
  set (w3 := mkWorld _ _ _ _ _).
  rewrite (bind_step get_self _ w3 (self w3) w3) by reflexivity.
  rewrite when_update_self.
  subst w3 w2 w1. unfold routed. fold guard text.
  destruct guard; cbn [calc self warnings printed files snd];
    [rewrite route_tokens_run|]; reflexivity.
Qed.

(** ** What a run does to the caller's request *)

Section Request.

Variable env : Collaborators.
Variable c0 : Calculation.

Let I (w : World) : Prop := calc w = c0.

Lemma request_ignores_logs : ignores_logs I.
Proof.
  unfold ignores_logs, preserves; repeat split; intros;
    match goal with H : I _ |- _ => exact H end.
Qed.

Lemma update_self_keeps_request f : preserves I (update_self f).
Proof. intros w H; exact H. Qed.

Lemma route_specifications_keeps_request : preserves I route_specifications.
Proof. intros w H. now rewrite route_specifications_run. Qed.

Lemma handle_tasks_keeps_request : preserves I (handle_tasks env).
Proof.
  apply handle_tasks_frame; auto using request_ignores_logs;
    intros; apply update_self_keeps_request.
Qed.

Lemma handle_solvation_keeps_request : preserves I (handle_solvation env).
Proof.
  apply handle_solvation_frame; auto using request_ignores_logs;
    intros; apply update_self_keeps_request.
Qed.

Lemma stages_keep_request : preserves I (stages env).
Proof.
  pose proof request_ignores_logs as L.
  pose proof update_self_keeps_request as U.
  unfold stages, handle_specifications, close_blocks.
  repeat (apply preserves_bind; [|intros _]);
    first [ apply handle_tasks_frame | apply handle_solvation_frame
          | apply route_specifications_keeps_request
          | apply handle_constraints_frame | apply handle_xyz_frame
          | apply handle_basis_sets_frame | apply create_input_file_frame
          | apply U ];
    auto; intros; apply U.
Qed.

End Request.

Lemma generate_store env c :
  snd (generate env c) = snd (__init__ env (start c)).
Proof. unfold generate; now destruct (__init__ env (start c)) as [[[]|e] w]. Qed.

(** C4 (as amended). A generation run, whether it returns a document or
    raises, leaves the caller's request changed in two fields and in no
    other: the memory is now the text of the old value followed by [" mb"],
    and the theory level is the aliased one ([hf], or a [uhf]/[rhf] method,
    gives [scf]; [cc] gives [ccsd]). *)
Theorem C4_request_after_generation (env : Collaborators) (c : Calculation) :
  calc (snd (generate env c)) =
  set_parameters
    (set_theory_level (nwchem_theory_level (parameters c)) (parameters c))
    (set_mem (AStr (format (mem c) ++ " mb")) c).
Proof.
  rewrite generate_store, init_unfold.
  destruct (KEYWORDS (calc_type c)); [|reflexivity].
  now apply (stages_keep_request env _ (configured c)).
Qed.

(** C4, the claim as stated fails: after generating the sample request the
    caller's object is no longer the request it passed in (its memory field
    went from the number 1000 to the text [1000 mb]). *)
Lemma C4_counterexample :
  calc (snd (generate sample_env sample_request)) <> sample_request
  /\ mem (calc (snd (generate sample_env sample_request))) = AStr "1000 mb".
Proof. split; [vm_compute; discriminate | reflexivity]. Qed.

(** ** The Basis Set Resolver without a basis set *)

(** C1. The code does not do what the claim says: with the basis-set name
    resolved to the empty string and an empty map of overrides, the resolver
    raises nothing.  The comparison of the map with [''] of line 155 is true
    for every map, so the splice path runs; it finds no override, the
    [+= "end"] of line 221 fails on the attribute that was never assigned,
    and the bare [except] writes a block that references a library with an
    empty name. *)
Theorem C1_empty_map_is_not_missing (env : Collaborators) (w : World) :
  custom_basis_sets (parameters (calc w)) = TheDict [] ->
  get_basis_set env (basis_set (parameters (calc w))) "nwchem" = Ok "" ->
  self_basis_set (self w) = None ->
  handle_basis_sets env w =
  (Ok tt,
   mkWorld (calc w)
     (with_basis_set (Some ("basis " ++ nl ++ " * library  " ++ nl ++ " end")) (self w))
     (warnings w) (printed w) (files w)).
Proof.
  intros Hd Hb Hs. unfold handle_basis_sets.
  rewrite (bind_step get_calc _ w (calc w) w) by reflexivity. cbv zeta.
  unfold lift at 1. rewrite (bind_step _ _ w "" w) by (now rewrite Hb).
  rewrite Hd. cbn [negb String.eqb andb ne_empty_str].
  unfold parse_custom_basis_set.
  rewrite (bind_step get_calc _ w (calc w) w) by reflexivity. cbv zeta.
  rewrite Hd.
  destruct (fold_left _ _ _) as [unique_atoms normal_atoms].
  unfold bind, lift, items, splice_elements, ret, when, try_except,
    add_basis_set, read_basis_set, bind, get_self, raise, assign_basis_set,
    update_self.
  cbn. rewrite Hs. reflexivity.
Qed.

Lemma C1_empty_map_is_not_missing_witness :
  exists w,
    handle_basis_sets sample_env (configured no_basis_request) = (Ok tt, w)
    /\ self_basis_set (self w)
       = Some ("basis " ++ nl ++ " * library  " ++ nl ++ " end").
Proof.
  eexists. split.
  - apply (C1_empty_map_is_not_missing sample_env (configured no_basis_request));
      reflexivity.
  - reflexivity.
Defined.

(** The whole run on that request returns a document. *)
Example no_basis_request_generates :
  exists doc, fst (generate sample_env no_basis_request) = Ok doc
              /\ contains ("basis" ++ nl ++ "* library" ++ nl ++ "end") doc = true.
Proof. eexists; split; vm_compute; reflexivity. Qed.

(** [MissingParameter] is raised when the overrides are the empty string,
    which has no [items()] to iterate. *)
Lemma missing_parameter_needs_a_string (env : Collaborators) (w : World) :
  custom_basis_sets (parameters (calc w)) = TheStr "" ->
  get_basis_set env (basis_set (parameters (calc w))) "nwchem" = Ok "" ->
  handle_basis_sets env w = (Raise MissingParameter, w).
Proof.
  intros Hd Hb. unfold handle_basis_sets.
  rewrite (bind_step get_calc _ w (calc w) w) by reflexivity. cbv zeta.
  unfold lift at 1. rewrite (bind_step _ _ w "" w) by (now rewrite Hb).
  rewrite Hd. reflexivity.
Qed.

(** ** The Constraint Block Builder without constraints *)

Lemma handle_constraints_empty (w : World) :
  calc_type (calc w) = CONSTR_OPT -> constraints (calc w) = [] ->
  handle_constraints w = (Raise InvalidParameter, w).
Proof.
  intros Hk Hc. unfold handle_constraints.
  rewrite (bind_step get_calc _ w (calc w) w) by reflexivity.
  rewrite Hk, Hc. reflexivity.
Qed.

Lemma handle_specifications_empty (w : World) :
  calc_type (calc w) = CONSTR_OPT -> constraints (calc w) = [] ->
  fst (handle_specifications w) = Raise InvalidParameter.
Proof.
  intros Hk Hc. unfold handle_specifications.
  rewrite (bind_step _ _ _ _ _ (route_specifications_run w)).
  now rewrite handle_constraints_empty.
Qed.

(** C8 (as amended). A constrained optimisation with an empty constraint
    list never yields a document.  The specification stage raises
    [InvalidParameter] on every store it is started on, so generation fails
    with [InvalidParameter] whenever the task and solvation stages, which run
    before it, have not raised an error of their own. *)
Theorem C8_constrained_optimisation_without_constraints
    (env : Collaborators) (c : Calculation) :
  calc_type c = CONSTR_OPT -> constraints c = [] ->
  (forall w, calc w = calc (configured c) ->
             fst (handle_specifications w) = Raise InvalidParameter)
  /\ (exists e, fst (generate env c) = Raise e)
  /\ (forall w1 w2,
        handle_tasks env (configured c) = (Ok tt, w1) ->
        handle_solvation env w1 = (Ok tt, w2) ->
        fst (generate env c) = Raise InvalidParameter).
Proof.
  intros Hk Hc.
  assert (Hstage : forall w, calc w = calc (configured c) ->
             fst (handle_specifications w) = Raise InvalidParameter).
  { intros w Hw. apply handle_specifications_empty; rewrite Hw; assumption. }
  assert (Hrun : forall w1 w2,
             handle_tasks env (configured c) = (Ok tt, w1) ->
             handle_solvation env w1 = (Ok tt, w2) ->
             fst (generate env c) = Raise InvalidParameter).
  { intros w1 w2 H1 H2.
    assert (Hw1 : calc w1 = calc (configured c)).
    { pose proof (handle_tasks_keeps_request env _ (configured c) eq_refl) as H.
      now rewrite H1 in H. }
    assert (Hw2 : calc w2 = calc (configured c)).
    { pose proof (handle_solvation_keeps_request env _ w1 Hw1) as H.
      now rewrite H2 in H. }
    specialize (Hstage w2 Hw2).
    unfold generate. rewrite init_unfold, Hk. cbn [KEYWORDS]. unfold stages.
    rewrite (bind_step _ _ _ _ _ H1), (bind_step _ _ _ _ _ H2).
    destruct (handle_specifications w2) as [[[]|e] w3] eqn:E; cbn in Hstage;
      [discriminate|]. inversion Hstage; subst e.
    now rewrite (bind_Raise _ _ _ _ _ E). }
  split; [exact Hstage|]. split; [|exact Hrun].
  destruct (handle_tasks env (configured c)) as [[[]|e1] w1] eqn:E1.
  - destruct (handle_solvation env w1) as [[[]|e2] w2] eqn:E2.
    + exists InvalidParameter. now apply (Hrun w1 w2).
    + exists e2. unfold generate. rewrite init_unfold, Hk. cbn [KEYWORDS].
      unfold stages. rewrite (bind_step _ _ _ _ _ E1).
      now rewrite (bind_Raise _ _ _ _ _ E2).
  - exists e1. unfold generate. rewrite init_unfold, Hk. cbn [KEYWORDS].
    unfold stages. now rewrite (bind_Raise _ _ _ _ _ E1).
Qed.

Lemma C8_constrained_optimisation_without_constraints_witness :
  fst (generate sample_env constrained_request) = Raise InvalidParameter.
Proof.
  destruct (C8_constrained_optimisation_without_constraints sample_env
              constrained_request eq_refl eq_refl) as (_ & _ & H).
  eapply H; reflexivity.
Defined.

(** C8, the claim as stated fails: this constrained optimisation has no
    constraint, and generation fails with [UnimplementedError], raised by
    the solvation stage before the constraints are looked at. *)
Lemma C8_counterexample :
  calc_type constrained_smd_request = CONSTR_OPT
  /\ constraints constrained_smd_request = []
  /\ fst (generate sample_env constrained_smd_request) = Raise UnimplementedError.
Proof. repeat split. Qed.

(** ** One token through the router *)

(** Splits on the tests of [route], outermost first. *)
Ltac route_cases :=
  repeat match goal with
    | |- context [if ?b then _ else _] =>
        lazymatch b with
        | context [if _ then _ else _] => fail
        | _ => destruct b eqn:?
        end
    end.

Lemma append_same (s t : string) : s ++ t = s -> t = "".
Proof.
  induction s as [|a s IH]; cbn; [auto|]. intros H. injection H. exact IH.
Qed.

Lemma argument_grows (s h g : string) : s ++ h ++ g ++ " " ++ nl <> s.
Proof.
  intros H. apply append_same in H.
  apply append_eq_nil in H as [_ H]. apply append_eq_nil in H as [_ H].
  discriminate.
Qed.

Lemma with_additional_block_same (o : NWChemCalculation) :
  with_additional_block (additional_block o) o = o.
Proof. now destruct o. Qed.

(** Case analysis on the block name: one of the names of the chain, or none
    of them. *)
Ltac name_cases B :=
  destruct (String.eqb_spec B "scf") as [->|];
  [|destruct (String.eqb_spec B "dft") as [->|];
  [|destruct (String.eqb_spec B "hf") as [->|];
  [|destruct (String.eqb_spec B "opt") as [->|];
  [|destruct (String.eqb_spec B "ts") as [->|];
  [|destruct (String.eqb_spec B "nmr") as [->|];
  [|destruct (String.eqb_spec B "freq") as [->|];
  [|destruct (String.eqb_spec B "neb") as [->|];
  [|destruct (String.eqb_spec B "string") as [->|];
  [|destruct (String.eqb_spec B "fsm") as [->|];
  [|destruct (String.eqb_spec B "sol") as [->|];
  [|destruct (String.eqb_spec B "cosmo") as [->|];
  [|destruct (String.eqb_spec B "smd") as [->|];
  [|destruct (String.eqb_spec B "mp2") as [->|];
  [|destruct (String.eqb_spec B "cc") as [->|]]]]]]]]]]]]]]].

(** The branch of [route] for a token with a block name, by buffer. *)
Lemma route_by_buffer (c : Calculation) (o : NWChemCalculation)
    (temp spec b g : string) :
  block_name_of spec = Some b ->
  argument_of spec = Some g ->
  route c (o, temp) spec =
    match buffer_of c b with
    | Some Method =>
        (with_method_block (method_block o ++ g ++ " " ++ nl) o, temp)
    | Some CalculationType =>
        (with_calculation_block
           (calculation_block o ++ opening b (calculation_block o)
              ++ g ++ " " ++ nl) o, temp)
    | Some FrequencyCommands => (o, temp ++ g ++ " " ++ nl)
    | Some Ancillary =>
        (with_additional_block
           (replace ("cosmo " ++ nl) ("cosmo " ++ nl ++ " " ++ g ++ " " ++ nl)
              (additional_block o)) o, temp)
    | None => (o, temp)
    end.
Proof.
  unfold block_name_of, argument_of, route.
  destruct (re_search_block spec) as [[start command]|]; [|discriminate].
  intros H1 H2. injection H1 as <-. injection H2 as <-.
  generalize (take (start - 1) spec). intros B.
  unfold buffer_of, opening, in_list. cbn [existsb].
  name_cases B; cbn;
    destruct (calc_type c); cbn; try reflexivity;
    try (destruct (calculation_block o =? "") eqn:E; cbn;
         rewrite ?append_assoc; try reflexivity;
         apply String.eqb_eq in E; rewrite E; reflexivity);
    try (destruct (theory_level (parameters c) =? "mp2"); reflexivity);
    try (destruct (theory_level (parameters c) =? "ccsd"); reflexivity).
Qed.

(** C2 (as amended). A token of the form blockname(argument) changes at
    most one of the method block, the calculation-type block, the ancillary
    block and the buffer of frequency commands.  When a guard of the chain
    holds for the block name, the kind and the theory level, the argument
    followed by a space and a newline is appended to the one buffer the
    guard selects and nothing else changes, so that the token does change
    the store: the method block; the calculation-type block, after the
    header of the block when the block was empty; or the buffer of
    frequency commands.  For [sol], [cosmo] and [smd] the argument is
    inserted after every [cosmo] line of the ancillary block, which changes
    nothing when the block has none.  When no guard holds the token changes
    nothing: it is dropped, not appended to the ancillary block. *)
Theorem C2_token_dispatch (c : Calculation) (o : NWChemCalculation)
    (temp spec b g : string) :
  block_name_of spec = Some b ->
  argument_of spec = Some g ->
  touches_at_most_one (o, temp) (route c (o, temp) spec)
  /\ (buffer_of c b = Some Method ->
      route c (o, temp) spec
      = (with_method_block (method_block o ++ g ++ " " ++ nl) o, temp))
  /\ (buffer_of c b = Some CalculationType ->
      route c (o, temp) spec
      = (with_calculation_block
           (calculation_block o ++ opening b (calculation_block o)
              ++ g ++ " " ++ nl) o, temp))
  /\ (buffer_of c b = Some FrequencyCommands ->
      route c (o, temp) spec = (o, temp ++ g ++ " " ++ nl))
  /\ (buffer_of c b = Some Ancillary ->
      route c (o, temp) spec
      = (with_additional_block
           (replace ("cosmo " ++ nl) ("cosmo " ++ nl ++ " " ++ g ++ " " ++ nl)
              (additional_block o)) o, temp)
      /\ (contains ("cosmo " ++ nl) (additional_block o) = false ->
          route c (o, temp) spec = (o, temp)))
  /\ (forall t, buffer_of c b = Some t -> t <> Ancillary ->
      route c (o, temp) spec <> (o, temp))
  /\ (buffer_of c b = None <-> recognised c b = false)
  /\ (recognised c b = false -> route c (o, temp) spec = (o, temp)).
Proof.
  intros Hb Hg. pose proof (route_by_buffer c o temp spec b g Hb Hg) as R.
  assert (N : buffer_of c b = None <-> recognised c b = false).
  { unfold buffer_of, recognised.
    route_cases; cbn; split; intros; first [discriminate | reflexivity]. }
  split; [|repeat split].
  - clear R N. unfold block_name_of in Hb. unfold route.
    destruct (re_search_block spec) as [[start command]|]; [|discriminate].
    unfold touches_at_most_one. route_cases; cbn [fst snd];
      first [ left; split; reflexivity
            | right; left; split; reflexivity
            | right; right; left; split; reflexivity
            | right; right; right; reflexivity ].
  - intros E. now rewrite E in R.
  - intros E. now rewrite E in R.
  - intros E. now rewrite E in R.
  - rewrite R, H. reflexivity.
  - intros Hc. rewrite R, H, replace_absent by (assumption || discriminate).
    now rewrite with_additional_block_same.
  - intros t E Ht. rewrite R, E. destruct t; [| |congruence|]; intros K.
    + apply (f_equal (fun st => method_block (fst st))) in K. cbn in K.
      exact (argument_grows _ "" _ K).
    + apply (f_equal (fun st => calculation_block (fst st))) in K. cbn in K.
      exact (argument_grows _ _ _ K).
    + apply (f_equal snd) in K. cbn in K.
      exact (argument_grows _ "" _ K).
  - apply N.
  - apply N.
  - intros Hr. apply N in Hr. now rewrite Hr in R.
Qed.

Lemma C2_token_dispatch_witness :
  touches_at_most_one
    (self (configured sample_request), nl)
    (route sample_request (self (configured sample_request), nl) "foo(bar)")
  /\ route sample_request (self (configured sample_request), nl) "foo(bar)"
     = (self (configured sample_request), nl)
  /\ route sample_request (self (configured sample_request), nl) "scf(direct)"
     = (with_method_block
          (method_block (self (configured sample_request)) ++ "direct " ++ nl)
          (self (configured sample_request)), nl).
Proof.
  destruct (C2_token_dispatch sample_request (self (configured sample_request))
              nl "foo(bar)" "foo" "bar" eq_refl eq_refl)
    as (H1 & _ & _ & _ & _ & _ & _ & H2).
  destruct (C2_token_dispatch sample_request (self (configured sample_request))
              nl "scf(direct)" "scf" "direct" eq_refl eq_refl)
    as (_ & H3 & _).
  split; [exact H1|]. split; [exact (H2 eq_refl) | exact (H3 eq_refl)].
Defined.

(** C2, the claim as stated fails: the token [foo(bar)] has a block name the
    router does not act on, and the run drops it: the ancillary block stays
    empty and the document does not mention it. *)
Lemma C2_counterexample :
  block_name_of "foo(bar)" = Some "foo"
  /\ recognised unknown_block_request "foo" = false
  /\ exists doc w,
       generate sample_env unknown_block_request = (Ok doc, w)
       /\ additional_block (self w) = ""
       /\ contains "foo" doc = false.
Proof.
  split; [reflexivity|]. split; [reflexivity|].
  eexists; eexists. split; [vm_compute; reflexivity|]. split; reflexivity.
Qed.

(** ** From the routed store to the document *)

Lemma preserves_run {A} (I : World -> Prop) (m : M A) w r w' :
  preserves I m -> m w = (r, w') -> I w -> I w'.
Proof. intros Hm E H. specialize (Hm w H). now rewrite E in Hm. Qed.

Lemma handle_specifications_Ok w w3 :
  handle_specifications w = (Ok tt, w3) ->
  handle_constraints (snd (route_specifications w)) = (Ok tt, w3).
Proof.
  unfold handle_specifications.
  now rewrite (bind_step _ _ _ _ _ (route_specifications_run w)),
    route_specifications_run.
Qed.

Lemma create_input_file_Ok w w' :
  create_input_file w = (Ok tt, w') ->
  exists b,
    self_basis_set (self w) = Some b
    /\ w' = mkWorld (calc w)
              (with_input_file
                 (strip_lines
                    (TEMPLATE_format (header (calc w)) (name (calc w))
                       (format (mem (calc w))) (of_Z (charge (calc w)))
                       (xyz_structure (self w)) b (method_block (self w))
                       (calculation_block (self w)) (additional_block (self w))
                       (tasks (self w))))
                 (self w))
              (warnings w) (printed w) (files w).
Proof.
  unfold create_input_file, read_basis_set, bind, get_calc, get_self.
  destruct (self_basis_set (self w)) as [b|]; cbn; [|discriminate].
  intros H; inversion H. eauto.
Qed.

Section AfterRouting.

Variable env : Collaborators.
Context (I : World -> Prop).
Hypothesis Hlogs : ignores_logs I.
Hypothesis Hadd : forall s, preserves I (add_additional_block s).
Hypothesis Hxyz : forall v, preserves I (update_self (with_xyz_structure v)).
Hypothesis Hbasis : forall b, preserves I (assign_basis_set b).
Hypothesis Hclose : preserves I close_blocks.
Hypothesis Hfile : forall v, preserves I (update_self (with_input_file v)).

(** A property of the routed store that the later stages do not disturb
    holds of the store the run ends with. *)
Lemma after_routing wr w3 w4 w5 w :
  handle_constraints wr = (Ok tt, w3) ->
  handle_xyz env w3 = (Ok tt, w4) ->
  handle_basis_sets env w4 = (Ok tt, w5) ->
  create_input_file (snd (close_blocks w5)) = (Ok tt, w) ->
  I wr -> I w.
Proof.
  intros E3 E4 E5 E6 H.
  assert (H3 : I w3).
  { eapply preserves_run; [|exact E3|exact H].
    apply handle_constraints_frame; assumption. }
  assert (H4 : I w4).
  { eapply preserves_run; [|exact E4|exact H3].
    apply handle_xyz_frame; assumption. }
  assert (H5 : I w5).
  { eapply preserves_run; [|exact E5|exact H4].
    apply handle_basis_sets_frame; assumption. }
  eapply preserves_run; [|exact E6|exact (Hclose _ H5)].
  apply create_input_file_frame; assumption.
Qed.

End AfterRouting.

(** ** The method block of a post-mean-field request *)

Lemma in_mp2_ccsd (t : string) :
  in_list t ["mp2"; "ccsd"] = true -> t = "mp2" \/ t = "ccsd".
Proof.
  unfold in_list; cbn. destruct (String.eqb_spec t "mp2"); [auto|].
  destruct (String.eqb_spec t "ccsd"); [auto | discriminate].
Qed.

Lemma handle_tasks_post_mean_field env w w1 :
  in_list (theory_level (parameters (calc w))) ["mp2"; "ccsd"] = true ->
  handle_tasks env w = (Ok tt, w1) ->
  method_block (self w1) = method_block (self w) ++ nl.
Proof.
  intros Ht H. apply in_mp2_ccsd in Ht.
  destruct w as [c o ws ps fs]. destruct c as [p k hd nm m ch mu x cs].
  destruct p as [sw th me bs cb so sm sr csr sp d3_ d3bj_].
  cbn in Ht. unfold handle_tasks in H.
  destruct Ht; subst th; destruct k; cbn in H; inversion H; reflexivity.
Qed.

Section MethodBlock.

Variable env : Collaborators.
Variable x : string.

Let I (w : World) : Prop := method_block (self w) = x.

Lemma method_block_ignores_logs : ignores_logs I.
Proof.
  unfold ignores_logs, preserves; repeat split; intros;
    match goal with H : I _ |- _ => exact H end.
Qed.

Lemma handle_solvation_keeps_method_block : preserves I (handle_solvation env).
Proof.
  apply handle_solvation_frame; auto using method_block_ignores_logs;
    intros ? ? H; exact H.
Qed.

End MethodBlock.

Lemma route_keeps_method_block c o temp spec :
  routes_to_method (theory_level (parameters c)) spec = false ->
  method_block (fst (route c (o, temp) spec)) = method_block o.
Proof.
  unfold routes_to_method, block_name_of, route.
  destruct (re_search_block spec) as [[start command]|].
  - intros H. cbv zeta.
    apply orb_false_iff in H as [H H3]. apply orb_false_iff in H as [H1 H2].
    rewrite H1, H2, H3. route_cases; reflexivity.
  - intros _. cbv zeta. route_cases; reflexivity.
Qed.

Lemma fold_route_keeps_method_block c tokens o temp :
  (forall tok, In tok tokens ->
               routes_to_method (theory_level (parameters c)) tok = false) ->
  method_block (fst (fold_left (route c) tokens (o, temp))) = method_block o.
Proof.
  revert o temp; induction tokens as [|tok tokens IH]; intros o temp H;
    [reflexivity|].
  cbn [fold_left].
  destruct (route c (o, temp) tok) as [o1 temp1] eqn:E.
  rewrite IH by (intros; apply H; now right).
  change o1 with (fst (o1, temp1)). rewrite <- E.
  apply route_keeps_method_block, H. now left.
Qed.

(** With no token routed to it, the method block of a post-mean-field
    request is emptied. *)
Lemma routed_empties_method_block c o :
  in_list (theory_level (parameters c)) ["mp2"; "ccsd"] = true ->
  method_block o = theory_level (parameters c) ++ nl ->
  (forall tok, In tok (tokens_of (specifications (parameters c))) ->
               routes_to_method (theory_level (parameters c)) tok = false) ->
  method_block (routed c o) = "".
Proof.
  intros Ht Hm Htok. unfold routed, tokens_of in *. cbv zeta.
  set (guard := negb (strip (clean (specifications (parameters c))) =? "")) in *.
  match goal with
  | |- context [if guard then ?a else o] =>
      assert (H1 : method_block (if guard then a else o)
                   = theory_level (parameters c) ++ nl);
      [|set (o1 := if guard then a else o) in *]
  end.
  { destruct guard; [|exact Hm].
    pose proof (fold_route_keeps_method_block c _ o nl Htok) as F.
    destruct (fold_left (route c) _ (o, nl)) as [o' temp]. cbn [fst] in F.
    destruct (negb (temp =? nl)); cbn; congruence. }
  apply in_mp2_ccsd in Ht.
  destruct Ht as [Ht|Ht]; rewrite Ht in *; clearbody o1;
    cbn -[contains replace]; rewrite ?H1; cbn -[contains replace];
    destruct (contains "string" _); reflexivity.
Qed.

(** ** The document of a successful run *)

Lemma generate_request env c :
  calc (snd (generate env c)) = calc (configured c).
Proof.
  rewrite generate_store, init_unfold.
  destruct (KEYWORDS (calc_type c)); [|reflexivity].
  now apply (stages_keep_request env _ (configured c)).
Qed.

(** The document is the template filled with the blocks the run ends
    with. *)
Lemma generate_document env c doc w :
  generate env c = (Ok doc, w) ->
  exists b,
    self_basis_set (self w) = Some b
    /\ doc = strip_lines
               (TEMPLATE_format (header c) (name c) (format (mem c) ++ " mb")
                  (of_Z (charge c)) (xyz_structure (self w)) b
                  (method_block (self w)) (calculation_block (self w))
                  (additional_block (self w)) (tasks (self w))).
Proof.
  intros H. pose proof (generate_request env c) as Hc. rewrite H in Hc.
  cbn [snd] in Hc.
  apply generate_Ok in H as (_ & w1 & w2 & w3 & w4 & w5 & _ & _ & _ & _ & _ & E & D).
  apply create_input_file_Ok in E as (b & Hb & Hw).
  set (w6 := snd (close_blocks w5)) in *.
  assert (Hc6 : calc w6 = calc (configured c)) by (rewrite <- Hc, Hw; reflexivity).
  exists b. subst doc. rewrite Hw. cbn [self input_file with_input_file
    self_basis_set xyz_structure method_block calculation_block additional_block tasks].
  rewrite Hc6. split; [exact Hb | reflexivity].
Qed.

Lemma close_method_block_empty o :
  method_block o = "" -> method_block (closed o) = "".
Proof.
  intros H. rewrite (proj1 (closed_fields o)).
  unfold close_method_block. now rewrite H.
Qed.

(** C10. For a request whose theory level, as the constructor normalises
    it, is second-order perturbation theory ([mp2]) or coupled cluster
    ([ccsd]), and whose specification string routes no token into the method
    block: when generation returns a document, the method block it ends with
    is the empty string, and the document is the template filled with an
    empty method block, hence with no closing marker for it. *)
Theorem C10_post_mean_field_method_block
    (env : Collaborators) (c : Calculation) (doc : string) (w : World) :
  generate env c = (Ok doc, w) ->
  in_list (nwchem_theory_level (parameters c)) ["mp2"; "ccsd"] = true ->
  (forall tok, In tok (tokens_of (specifications (parameters c))) ->
               routes_to_method (nwchem_theory_level (parameters c)) tok = false) ->
  method_block (self w) = ""
  /\ exists b,
       self_basis_set (self w) = Some b
       /\ doc = strip_lines
                  (TEMPLATE_format (header c) (name c) (format (mem c) ++ " mb")
                     (of_Z (charge c)) (xyz_structure (self w)) b ""
                     (calculation_block (self w)) (additional_block (self w))
                     (tasks (self w))).
Proof.
  intros H Ht Htok.
  assert (Hm : method_block (self w) = "").
  { apply generate_Ok in H
      as (_ & w1 & w2 & w3 & w4 & w5 & E1 & E2 & E3 & E4 & E5 & E6 & _).
    assert (C1 : calc w1 = calc (configured c)).
    { exact (preserves_run _ _ _ _ _ (handle_tasks_keeps_request env _) E1 eq_refl). }
    assert (C2 : calc w2 = calc (configured c)).
    { exact (preserves_run _ _ _ _ _ (handle_solvation_keeps_request env _) E2 C1). }
    assert (M1 : method_block (self w1) = nwchem_theory_level (parameters c) ++ nl).
    { exact (handle_tasks_post_mean_field env (configured c) w1 Ht E1). }
    assert (M2 : method_block (self w2) = nwchem_theory_level (parameters c) ++ nl).
    { exact (preserves_run _ _ _ _ _ (handle_solvation_keeps_method_block env _) E2 M1). }
    apply handle_specifications_Ok in E3.
    apply (after_routing env (fun w => method_block (self w) = "")) with
      (wr := snd (route_specifications w2)) (w3 := w3) (w4 := w4) (w5 := w5);
      auto using method_block_ignores_logs; try (intros ? ? K; exact K).
    - intros w0 K. rewrite close_blocks_run. now apply close_method_block_empty.
    - rewrite route_specifications_run. cbn [snd self]. rewrite C2.
      now apply routed_empties_method_block. }
  split; [exact Hm|].
  destruct (generate_document env c doc w H) as (b & Hb & Hd).
  exists b. split; [exact Hb|]. now rewrite Hm in Hd.
Qed.

Lemma C10_post_mean_field_method_block_witness :
  exists doc w,
    generate sample_env mp2_request = (Ok doc, w)
    /\ method_block (self w) = "".
Proof.
  eexists; eexists. split; [vm_compute; reflexivity|].
  eapply (C10_post_mean_field_method_block sample_env mp2_request);
    [vm_compute; reflexivity | reflexivity | intros tok []].
Defined.

(** ** The reaction-path variant *)





(** The task directives after routing: the other patches of lines 276-283
    leave them alone. *)
Lemma routed_tasks c o :
  tasks (routed c o) =
  if negb (String.eqb (strip (clean (specifications (parameters c)))) "")
  then tasks (fst (fold_left (route c)
                     (split "010" (separate_lines (specifications (parameters c))))
                     (o, nl)))
  else tasks o.
Proof.
  unfold routed. cbv zeta.
  destruct (negb (strip (clean (specifications (parameters c))) =? "")).
  - destruct (fold_left (route c) _ (o, nl)) as [o' temp]. cbn [fst].
    route_cases; reflexivity.
  - route_cases; reflexivity.
Qed.



(** What the Task/Keyword Deriver leaves in the directives and in the
    calculation-type block. *)
Lemma handle_tasks_buffers env w w1 :
  handle_tasks env w = (Ok tt, w1) ->
  (calc_type (calc w) = MEP ->
   exists keyword,
     tasks (self w1) = tasks (self w) ++ "task " ++ keyword ++ " neb ignore " ++ nl)
  /\ calculation_block (self w1)
     = calculation_block (self w)
       ++ (if CalcType_eqb (calc_type (calc w)) NMR
           then " " ++ nl ++ " property " ++ nl ++ " shielding " ++ nl
           else "").
Proof.
  intros H.
  destruct w as [c o ws ps fs]. destruct c as [p k hd nm m ch mu x cs].
  destruct p as [sw th me bs cb so sm sr csr sp d3_ d3bj_].
  cbn [calc self calc_type parameters theory_level method multiplicity d3 d3bj].
  unfold handle_tasks, bind, get_calc, subscript, add_tasks, add_method_block,
    add_calculation_block, when, update_self, ret, raise in H.
  destruct k; cbn in H;
    repeat match type of H with
      | context [if ?b then _ else _] => destruct b; cbn in H
      | context [match ?x with Some _ => _ | None => _ end] => destruct x; cbn in H
      end;
    inversion H; cbn; rewrite ?append_nil_r;
    (split; [intros K; try discriminate K; eauto | reflexivity]).
Qed.

(** *** The header of the calculation-type block *)







Section Directives.

Variable env : Collaborators.
Variables t b : string.

Let I (w : World) : Prop :=
  tasks (self w) = t /\ calculation_block (self w) = b.



End Directives.





(** ** The solvent-density model *)

Lemma contains_strip_lines (p raw : string) :
  p <> "" -> no_space p = true -> contains p raw = true ->
  contains p (strip_lines raw) = true.
Proof.
  intros Hne Hp H. unfold strip_lines.
  destruct (contains_some_line p raw Hne Hp H) as (l & Hin & Hl).
  apply contains_join with (x := strip l).
  - now apply in_map.
  - now apply contains_strip.
Qed.

Lemma contains_template (p header name mem charge xyz_structure basis_set
    method_block calculation_block additional_block tasks : string) :
  contains p additional_block = true ->
  contains p (TEMPLATE_format header name mem charge xyz_structure basis_set
                method_block calculation_block additional_block tasks) = true.
Proof.
  intros H. unfold TEMPLATE_format.
  repeat first [ apply contains_app_l; exact H | apply contains_app_r ].
Qed.

Lemma smd_model_cases (m : string) :
  in_list m ["smd"; "smd18"] = true -> m = "smd" \/ m = "smd18".
Proof.
  unfold in_list; cbn. destruct (String.eqb_spec m "smd"); [auto|].
  destruct (String.eqb_spec m "smd18"); [auto | discriminate].
Qed.

Section SmdDirective.

Variable env : Collaborators.

Let I (w : World) : Prop :=
  contains "do_cosmo_smd" (additional_block (self w)) = true.

Lemma smd_ignores_logs : ignores_logs I.
Proof.
  unfold ignores_logs, preserves; repeat split; intros;
    match goal with H : I _ |- _ => exact H end.
Qed.

Lemma add_additional_block_keeps_smd s : preserves I (add_additional_block s).
Proof. intros w H. unfold I in *. cbn. now apply contains_app_l. Qed.

Lemma parse_custom_solvation_radii_keeps_smd :
  preserves I (parse_custom_solvation_radii env).
Proof.
  apply parse_custom_solvation_radii_frame; intros ? ? H; exact H.
Qed.

(** With the SMD model and a solvent, a solvation stage that returns has
    written the directive, and it returns only for density-functional
    theory. *)
Lemma handle_solvation_smd w r w2 :
  in_list (lower (solvent (parameters (calc w)))) [""; "vacuum"] = false ->
  in_list (lower (solvation_model (parameters (calc w)))) ["smd"; "smd18"] = true ->
  handle_solvation env w = (r, w2) ->
  (r = Ok tt ->
   theory_level (parameters (calc w)) = "dft" /\ I w2)
  /\ (theory_level (parameters (calc w)) <> "dft" ->
      (exists k, get_solvent env (solvent (parameters (calc w)))
                   (software (parameters (calc w)))
                   (solvation_model (parameters (calc w))) = Ok k) ->
      r = Raise UnimplementedError).
Proof.
  intros Hs Hm H. unfold handle_solvation in H.
  rewrite (bind_step get_calc _ w (calc w) w) in H by reflexivity.
  cbv zeta in H. rewrite Hs in H. cbn [negb] in H.
  assert (Hc : in_list (lower (solvation_model (parameters (calc w)))) ["cosmo"]
               = false).
  { destruct (smd_model_cases _ Hm) as [E|E]; rewrite E; reflexivity. }
  rewrite Hc, Hm in H.
  unfold lift at 1 in H.
  destruct (get_solvent env _ _ _) as [k|e] eqn:Ek.
  - rewrite (bind_step _ _ w k w) in H by reflexivity.
    unfold add_additional_block at 1 in H.
    match type of H with
    | bind (update_self ?f) _ _ = _ =>
        rewrite (bind_step (update_self f) _ w tt
                   (mkWorld (calc w) (f (self w)) (warnings w) (printed w)
                      (files w))) in H by reflexivity
    end.
    set (wa := mkWorld _ _ _ _ _) in H.
    destruct (String.eqb_spec (theory_level (parameters (calc w))) "dft") as [Et|Et].
    + cbn [negb when] in H.
      match type of H with
      | bind (bind (add_additional_block ?s) _) ?rest wa = _ =>
          assert (Hrest : preserves I (rest tt));
          [| assert (Hb : bind (add_additional_block s) (fun _ => ret tt) wa
                          = (Ok tt, snd (add_additional_block s wa)))
               by reflexivity;
             rewrite (bind_step _ _ _ _ _ Hb) in H ]
      end.
      { destruct smd_ignores_logs as (? & ? & ?).
        pose proof add_additional_block_keeps_smd.
        pose proof parse_custom_solvation_radii_keeps_smd.
        cbv beta. frame. }
      split; [|congruence].
      intros _. split; [exact Et|].
      eapply preserves_run; [exact Hrest | exact H |].
      unfold I. cbn. apply contains_app_r. reflexivity.
    + cbn [negb when] in H.
      match type of H with
      | bind (bind (add_additional_block ?s) _) ?rest wa = _ =>
          assert (Hb : bind (add_additional_block s)
                         (fun _ => @raise unit UnimplementedError) wa
                       = (Raise UnimplementedError,
                          snd (add_additional_block s wa)))
            by reflexivity;
          rewrite (bind_Raise _ _ _ _ _ Hb) in H
      end.
      inversion H; subst. split; [discriminate | reflexivity].
  - rewrite (bind_Raise _ _ w e w) in H by reflexivity.
    inversion H; subst. split; [discriminate|].
    intros _ [k Hk]. discriminate.
Qed.

End SmdDirective.

Lemma route_keeps_smd c o temp spec :
  contains "do_cosmo_smd" (additional_block o) = true ->
  contains "do_cosmo_smd" (additional_block (fst (route c (o, temp) spec))) = true.
Proof.
  intros H. unfold route.
  destruct (re_search_block spec) as [[start command]|]; cbv zeta;
    route_cases; cbn [fst additional_block with_additional_block with_tasks
      with_method_block with_calculation_block];
    first [ exact H
          | now apply contains_app_l
          | now apply replace_cosmo_keeps_smd ].
Qed.

Lemma fold_route_keeps_smd c tokens o temp :
  contains "do_cosmo_smd" (additional_block o) = true ->
  contains "do_cosmo_smd"
    (additional_block (fst (fold_left (route c) tokens (o, temp)))) = true.
Proof.
  revert o temp; induction tokens as [|tok tokens IH]; intros o temp H;
    [exact H|].
  cbn [fold_left].
  pose proof (route_keeps_smd c o temp tok H) as H1.
  destruct (route c (o, temp) tok) as [o1 temp1]. now apply IH.
Qed.

Lemma routed_keeps_smd c o :
  contains "do_cosmo_smd" (additional_block o) = true ->
  contains "do_cosmo_smd" (additional_block (routed c o)) = true.
Proof.
  intros H. unfold routed. cbv zeta.
  destruct (negb (strip (clean (specifications (parameters c))) =? "")).
  - pose proof (fold_route_keeps_smd c
                  (split "010" (separate_lines (specifications (parameters c))))
                  o nl H) as F.
    destruct (fold_left (route c) _ (o, nl)) as [o' temp]. cbn [fst] in F.
    route_cases; cbn; first [exact F | now apply contains_app_l].
  - route_cases; cbn; exact H.
Qed.

Lemma closed_keeps_smd o :
  contains "do_cosmo_smd" (additional_block o) = true ->
  contains "do_cosmo_smd" (additional_block (closed o)) = true.
Proof.
  intros H. destruct (closed_fields o) as (_ & _ & A & _). rewrite A.
  unfold close_additional_block. destruct (_ && _); [|exact H].
  now apply contains_app_l.
Qed.

(** The Task/Keyword Deriver returns when the kind has keywords and, for
    the [scf] block, the multiplicity has a name. *)
Lemma handle_tasks_returns env w :
  KEYWORDS (calc_type (calc w)) <> None ->
  (theory_level (parameters (calc w)) = "scf" ->
   SOFTWARE_MULTIPLICITY_nwchem env (multiplicity (calc w)) <> None) ->
  exists w1, handle_tasks env w = (Ok tt, w1).
Proof.
  intros Hk Hm.
  destruct w as [c o ws ps fs]. destruct c as [p k hd nm m ch mu x cs].
  destruct p as [sw th me bs cb so sm sr csr sp d3_ d3bj_].
  cbn [calc calc_type parameters theory_level multiplicity] in Hk, Hm.
  unfold handle_tasks, bind, get_calc, subscript, add_tasks, add_method_block,
    add_calculation_block, when, update_self, ret, raise.
  destruct k; cbn in Hk; try congruence; cbn;
    (destruct (String.eqb_spec th "scf") as [E|E];
     [ destruct (SOFTWARE_MULTIPLICITY_nwchem env mu); [|now elim (Hm E)]
     | ]);
    cbn;
    repeat match goal with
      | |- context [if ?b then _ else _] => destruct b; cbn
      end;
    eexists; reflexivity.
Qed.

(** C5 (as amended). For a request with a solvent other than vacuum and
    the solvent-density model ([smd], [smd18]): when the theory level, as the
    constructor normalises it, is [dft], every document generation returns
    contains the directive [do_cosmo_smd]; for any other theory level
    generation returns no document, and the failure is [UnimplementedError]
    (the spec's UnsupportedSolvationModel) whenever the calculation kind has
    task keywords, the multiplicity has a name when the block is [scf], and
    the solvent keyword resolves: the errors of the earlier checks come
    first. *)
Theorem C5_solvent_density_model (env : Collaborators) (c : Calculation) :
  in_list (lower (solvent (parameters c))) [""; "vacuum"] = false ->
  in_list (lower (solvation_model (parameters c))) ["smd"; "smd18"] = true ->
  (nwchem_theory_level (parameters c) = "dft" ->
   forall doc w, generate env c = (Ok doc, w) ->
                 contains "do_cosmo_smd" doc = true)
  /\ (nwchem_theory_level (parameters c) <> "dft" ->
      (exists e, fst (generate env c) = Raise e)
      /\ (KEYWORDS (calc_type c) <> None ->
          (nwchem_theory_level (parameters c) = "scf" ->
           SOFTWARE_MULTIPLICITY_nwchem env (multiplicity c) <> None) ->
          (exists k, get_solvent env (solvent (parameters c))
                       (software (parameters c))
                       (solvation_model (parameters c)) = Ok k) ->
          fst (generate env c) = Raise UnimplementedError)).
Proof.
  intros Hs Hm.
  assert (Hsolv : forall w1 r w2,
             calc w1 = calc (configured c) ->
             handle_solvation env w1 = (r, w2) ->
             (r = Ok tt ->
              nwchem_theory_level (parameters c) = "dft"
              /\ contains "do_cosmo_smd" (additional_block (self w2)) = true)
             /\ (nwchem_theory_level (parameters c) <> "dft" ->
                 (exists k, get_solvent env (solvent (parameters c))
                              (software (parameters c))
                              (solvation_model (parameters c)) = Ok k) ->
                 r = Raise UnimplementedError)).
  { intros w1 r w2 C1 E2.
    pose proof (handle_solvation_smd env w1 r w2) as K. rewrite C1 in K.
    exact (K Hs Hm E2). }
  split.
  - intros Ht doc w H.
    destruct (generate_document env c doc w H) as (b & _ & ->).
    apply generate_Ok in H
      as (_ & w1 & w2 & w3 & w4 & w5 & E1 & E2 & E3 & E4 & E5 & E6 & _).
    assert (C1 : calc w1 = calc (configured c)).
    { exact (preserves_run _ _ _ _ _ (handle_tasks_keeps_request env _) E1 eq_refl). }
    destruct (Hsolv w1 _ w2 C1 E2) as [Hok _]. destruct (Hok eq_refl) as [_ I2].
    apply handle_specifications_Ok in E3.
    apply contains_strip_lines; [discriminate | reflexivity |].
    apply contains_template.
    apply (after_routing env
             (fun w => contains "do_cosmo_smd" (additional_block (self w)) = true))
      with (wr := snd (route_specifications w2)) (w3 := w3) (w4 := w4) (w5 := w5);
      auto using smd_ignores_logs, add_additional_block_keeps_smd;
      try (intros ? ? K; exact K).
    + intros w0 K. rewrite close_blocks_run. now apply closed_keeps_smd.
    + rewrite route_specifications_run. now apply routed_keeps_smd.
  - intros Ht.
    assert (Hfail : exists e, fst (generate env c) = Raise e).
    { destruct (generate env c) as [[doc|e] w] eqn:H; [|eexists; reflexivity].
      apply generate_Ok in H
        as (_ & w1 & w2 & w3 & w4 & w5 & E1 & E2 & _).
      assert (C1 : calc w1 = calc (configured c)).
      { exact (preserves_run _ _ _ _ _ (handle_tasks_keeps_request env _) E1 eq_refl). }
      destruct (Hsolv w1 _ w2 C1 E2) as [Hok _].
      destruct (Hok eq_refl) as [Hd _]. elim (Ht Hd). }
    split; [exact Hfail|].
    intros Hk Hmu Hsol.
    destruct (handle_tasks_returns env (configured c) Hk Hmu) as [w1 E1].
    assert (C1 : calc w1 = calc (configured c)).
    { exact (preserves_run _ _ _ _ _ (handle_tasks_keeps_request env _) E1 eq_refl). }
    destruct (handle_solvation env w1) as [r w2] eqn:E2.
    destruct (Hsolv w1 r w2 C1 E2) as [_ Hr]. specialize (Hr Ht Hsol). subst r.
    unfold generate. rewrite init_unfold.
    destruct (KEYWORDS (calc_type c)); [|congruence].
    unfold stages. rewrite (bind_step _ _ _ _ _ E1).
    now rewrite (bind_Raise _ _ _ _ _ E2).
Qed.

Lemma C5_solvent_density_model_witness :
  (exists doc w,
     generate sample_env smd_request = (Ok doc, w)
     /\ contains "do_cosmo_smd" doc = true)
  /\ fst (generate sample_env constrained_smd_request) = Raise UnimplementedError.
Proof.
  split.
  - eexists; eexists. split; [vm_compute; reflexivity|].
    eapply (proj1 (C5_solvent_density_model sample_env smd_request eq_refl eq_refl));
      [reflexivity | vm_compute; reflexivity].
  - apply (proj2 (C5_solvent_density_model sample_env constrained_smd_request
                    eq_refl eq_refl)); [discriminate | discriminate | discriminate |].
    eexists; reflexivity.
Defined.

(** C5, the claim as stated fails: this request asks for the SMD model in
    water at second-order perturbation theory, for a kind of calculation
    that has no task keywords, and generation fails with
    [ImpossibleCalculation] before the solvation model is looked at. *)
Lemma C5_counterexample :
  in_list (lower (solvent (parameters uvvis_smd_request))) [""; "vacuum"] = false
  /\ in_list (lower (solvation_model (parameters uvvis_smd_request)))
       ["smd"; "smd18"] = true
  /\ nwchem_theory_level (parameters uvvis_smd_request) = "mp2"
  /\ fst (generate sample_env uvvis_smd_request) = Raise ImpossibleCalculation.
Proof. repeat split. Qed.

(** ** The closing markers *)

Lemma closed_block_kept (b : string) :
  contains closing_marker b = true -> closed_block b b.
Proof.
  intros H. repeat split; auto; congruence.
Qed.

Lemma closed_block_appended (b suffix : string) :
  suffix = " end " ++ nl \/ suffix = "end " ++ nl ->
  contains closing_marker b = false -> closed_block b (b ++ suffix).
Proof.
  intros Hs H. unfold closed_block, closing_marker in *.
  destruct (marker_present b suffix Hs) as [P E].
  repeat split; auto; try congruence. now apply marker_once.
Qed.

(** C3 (as amended). After the Block Closer has run, every non-empty method
    or calculation-type block, and every ancillary block whose sanitized
    content is non-empty, holds a closing marker.  The closer appends one
    only to a block that held none, which then ends with the marker and
    holds it once; a block that held a marker already is left as it was, so
    it may hold several and need not end with one.  The document of a
    successful run is the template filled with the blocks so closed. *)
Theorem C3_closing_markers :
  (forall w : World,
     let o := self w in
     let o' := self (snd (close_blocks w)) in
     (method_block o <> "" ->
      closed_block (method_block o) (method_block o'))
     /\ (calculation_block o <> "" ->
         closed_block (calculation_block o) (calculation_block o'))
     /\ (clean (additional_block o) <> "" ->
         closed_block (additional_block o) (additional_block o')))
  /\ (forall env c doc w,
        generate env c = (Ok doc, w) ->
        exists w5 b,
          self w = with_input_file doc (self (snd (close_blocks w5)))
          /\ self_basis_set (self w) = Some b
          /\ doc = strip_lines
                     (TEMPLATE_format (header c) (name c) (format (mem c) ++ " mb")
                        (of_Z (charge c)) (xyz_structure (self w)) b
                        (method_block (self w)) (calculation_block (self w))
                        (additional_block (self w)) (tasks (self w)))).
Proof.
  split.
  - intros w o o'. subst o o'. rewrite close_blocks_run. cbn [snd self].
    destruct (closed_fields (self w)) as (M & C & A & _). rewrite M, C, A.
    unfold close_method_block, close_calculation_block, close_additional_block.
    split; [|split]; intros Hne.
    + apply String.eqb_neq in Hne. rewrite Hne.
      destruct (contains ("end " ++ nl) (method_block (self w))) eqn:E; cbn.
      * now apply closed_block_kept.
      * apply closed_block_appended; auto.
    + apply String.eqb_neq in Hne. rewrite Hne.
      destruct (contains ("end " ++ nl) (calculation_block (self w))) eqn:E; cbn.
      * now apply closed_block_kept.
      * apply closed_block_appended; auto.
    + apply String.eqb_neq in Hne. rewrite Hne.
      destruct (contains ("end " ++ nl) (additional_block (self w))) eqn:E; cbn.
      * now apply closed_block_kept.
      * apply closed_block_appended; auto.
  - intros env c doc w H.
    destruct (generate_document env c doc w H) as (b & Hb & Hd).
    apply generate_Ok in H
      as (_ & w1 & w2 & w3 & w4 & w5 & _ & _ & _ & _ & _ & E6 & D).
    exists w5, b. split; [|split; assumption].
    apply create_input_file_Ok in E6 as (b' & _ & Hw).
    rewrite D. rewrite Hw. reflexivity.
Qed.

Lemma C3_closing_markers_witness :
  closed_block
    ("dft" ++ nl ++ "            xc b3lyp" ++ nl ++ "            mult 1" ++ nl
     ++ "            ")
    (method_block (self (snd (generate sample_env sample_request)))).
Proof.
  destruct C3_closing_markers as [H _].
  destruct (H (snd ((handle_tasks sample_env ;; handle_solvation sample_env ;;
                     handle_specifications ;; handle_xyz sample_env ;;
                     handle_basis_sets sample_env)
                      (configured sample_request)))) as (Hm & _ & _).
  apply Hm. discriminate.
Defined.

(** C3, the claim as stated fails: for this constrained optimisation with a
    scanned constraint the ancillary block is not empty after the closer has
    run, holds two closing markers (those of the nested coordinate
    sub-blocks) and does not end with one (the scan directive follows
    them). *)
Lemma C3_counterexample :
  exists doc w,
    generate sample_env scan_request = (Ok doc, w)
    /\ additional_block (self w) <> ""
    /\ occurrences closing_marker (additional_block (self w)) = 2
    /\ endswith closing_marker (additional_block (self w)) = false.
Proof.
  eexists; eexists. split; [vm_compute; reflexivity|].
  repeat split. discriminate.
Qed.

(** ** The custom-splice path of the Basis Set Resolver *)

Lemma dict_get_set_same k v d : dict_get k (dict_set k v d) = Some v.
Proof.
  induction d as [|[k' v'] d IH]; cbn.
  - now rewrite String.eqb_refl.
  - destruct (String.eqb_spec k k'); cbn.
    + now rewrite String.eqb_refl.
    + destruct (String.eqb_spec k k'); [contradiction | exact IH].
Qed.

Lemma dict_get_set_other k k' v d :
  k <> k' -> dict_get k (dict_set k' v d) = dict_get k d.
Proof.
  intros Hne. induction d as [|[k0 v0] d IH]; cbn.
  - destruct (String.eqb_spec k k'); [contradiction | reflexivity].
  - destruct (String.eqb_spec k' k0); cbn.
    + subst k0. destruct (String.eqb_spec k k'); [contradiction | reflexivity].
    + destruct (String.eqb_spec k k0); [reflexivity | exact IH].
Qed.

Lemma dict_get_In k v d : dict_get k d = Some v -> In (k, v) d.
Proof.
  induction d as [|[k' v'] d IH]; cbn; [discriminate|].
  destruct (String.eqb_spec k k'); intros H.
  - inversion H; subst. now left.
  - right; auto.
Qed.

Lemma add_warnings_nil w : add_warnings [] w = w.
Proof. destruct w; unfold add_warnings; cbn. now rewrite app_nil_r. Qed.

Lemma add_warnings_app a b w :
  add_warnings b (add_warnings a w) = add_warnings (a ++ b) w.
Proof. unfold add_warnings; cbn. now rewrite app_assoc. Qed.

Section Splice.

Variable env : Collaborators.
Variable unique_atoms : list string.

(** The step of the loop at an override whose query fails: the keyword
    goes to the unrecognised ones with a warning, and neither a basis text
    nor an effective core potential is collected. *)
Lemma splice_element_failed loc w el kw n :
  in_list el unique_atoms = true ->
  ATOMIC_NUMBER env el = Some n ->
  get_basis env kw n = None ->
  splice_element env unique_atoms loc (el, kw) w =
  (Ok (mkSplice (to_append_bs loc) (to_append_ecp loc)
         (dict_set el kw (not_recoginzed_bs loc)) (custom_atoms loc ++ [el])),
   add_warnings [basis_warning kw] w).
Proof.
  intros Hin Hn Hq. unfold splice_element. now rewrite Hin, Hn, Hq.
Qed.

(** Every step on an override that is in order returns; it only adds
    warnings to the store, touches no unrecognised keyword but its own,
    and never forgets a custom atom. *)
Lemma splice_element_returns loc w item :
  item_ok env unique_atoms item ->
  exists loc1 ws,
    splice_element env unique_atoms loc item w = (Ok loc1, add_warnings ws w)
    /\ (forall k, k <> fst item ->
                  dict_get k (not_recoginzed_bs loc1)
                  = dict_get k (not_recoginzed_bs loc))
    /\ (custom_atoms loc <> [] -> custom_atoms loc1 <> []).
Proof.
  destruct item as [el kw]. unfold item_ok. cbn [fst snd].
  intros [Hout | (n & Hn & [Hq | (bs & g & Hq & Hg)])].
  - exists loc, []. unfold splice_element. rewrite Hout. cbn.
    rewrite add_warnings_nil. auto.
  - destruct (in_list el unique_atoms) eqn:Hin.
    + rewrite (splice_element_failed loc w el kw n Hin Hn Hq).
      eexists; eexists. split; [reflexivity|]. cbn. split.
      * intros k Hk. now apply dict_get_set_other.
      * intros _ E. now destruct (custom_atoms loc).
    + exists loc, []. unfold splice_element. rewrite Hin. cbn.
      rewrite add_warnings_nil. auto.
  - destruct (in_list el unique_atoms) eqn:Hin.
    + unfold splice_element. rewrite Hin, Hn, Hq, Hg. cbn.
      eexists; exists []. rewrite add_warnings_nil. split; [reflexivity|].
      cbn. split; [auto|]. intros _ E. now destruct (custom_atoms loc).
    + exists loc, []. unfold splice_element. rewrite Hin. cbn.
      rewrite add_warnings_nil. auto.
Qed.

Lemma splice_elements_returns l :
  forall loc w,
    Forall (item_ok env unique_atoms) l ->
    exists loc' ws,
      splice_elements env unique_atoms loc l w = (Ok loc', add_warnings ws w)
      /\ (forall k, ~ In k (map fst l) ->
                    dict_get k (not_recoginzed_bs loc')
                    = dict_get k (not_recoginzed_bs loc))
      /\ (custom_atoms loc <> [] -> custom_atoms loc' <> [])
      /\ (forall el kw n,
            In (el, kw) l -> NoDup (map fst l) ->
            in_list el unique_atoms = true ->
            ATOMIC_NUMBER env el = Some n -> get_basis env kw n = None ->
            dict_get el (not_recoginzed_bs loc') = Some kw
            /\ In (basis_warning kw) ws
            /\ custom_atoms loc' <> []).
Proof.
  induction l as [|item l IH]; intros loc w Hok.
  - exists loc, []. cbn. rewrite add_warnings_nil.
    repeat split; auto. all: intros; contradiction.
  - inversion Hok as [|? ? Hitem Hrest]; subst.
    destruct (splice_element_returns loc w item Hitem)
      as (loc1 & ws1 & E1 & G1 & A1).
    destruct (IH loc1 (add_warnings ws1 w) Hrest)
      as (loc' & ws & E & G & A & F).
    exists loc', (ws1 ++ ws)%list. cbn [splice_elements].
    rewrite (bind_step _ _ _ _ _ E1), E, add_warnings_app.
    split; [reflexivity|]. split; [|split].
    + intros k Hk.
      assert (K1 : k <> fst item) by (intros ->; apply Hk; now left).
      assert (K2 : ~ In k (map fst l)) by (intros K; apply Hk; now right).
      rewrite (G k K2). now apply G1.
    + auto.
    + intros el kw n Hin Hnd Hu Hn Hq.
      inversion Hnd as [|? ? Hnotin Hnd']; subst.
      destruct Hin as [-> | Hin].
      * rewrite (splice_element_failed loc w el kw n Hu Hn Hq) in E1.
        injection E1 as Eloc Ew. subst loc1.
        apply app_inv_head in Ew. subst ws1. cbn [fst] in *.
        split; [|split].
        -- rewrite (G el Hnotin). cbn. apply dict_get_set_same.
        -- now left.
        -- apply A. cbn. now destruct (custom_atoms loc).
      * destruct (F el kw n Hin Hnd' Hu Hn Hq) as (F1 & F2 & F3).
        split; [exact F1|]. split; [|exact F3].
        apply in_or_app. now right.
Qed.

End Splice.

(** *** The block written after the loop *)

Lemma store_basis_set_twice b b' w :
  store_basis_set b' (store_basis_set b w) = store_basis_set b' w.
Proof. reflexivity. Qed.

Lemma add_basis_set_run b s w :
  add_basis_set s (store_basis_set b w) = (Ok tt, store_basis_set (b ++ s) w).
Proof. reflexivity. Qed.

Lemma try_add_basis_set_run b s (h : M unit) w :
  try_except (add_basis_set s) h (store_basis_set b w)
  = (Ok tt, store_basis_set (b ++ s) w).
Proof. reflexivity. Qed.

Lemma for_each_add_basis_set (g : string * string -> string) l :
  forall b w,
    for_each l (fun kv => add_basis_set (g kv)) (store_basis_set b w)
    = (Ok tt, store_basis_set (fold_left (fun b kv => b ++ g kv) l b) w).
Proof.
  induction l as [|kv l IH]; intros b w; [reflexivity|].
  cbn [for_each fold_left].
  now rewrite (bind_step _ _ _ _ _ (add_basis_set_run b (g kv) w)), IH.
Qed.

Lemma fold_lines_keep (g : string * string -> string) p l :
  forall b, contains p b = true ->
            contains p (fold_left (fun b kv => b ++ g kv) l b) = true.
Proof.
  induction l as [|kv l IH]; intros b H; [exact H|].
  cbn [fold_left]. apply IH. now apply contains_app_l.
Qed.

Lemma fold_lines_contain (g : string * string -> string) kv l :
  In kv l ->
  forall b, contains (g kv) (fold_left (fun b kv => b ++ g kv) l b) = true.
Proof.
  induction l as [|kv' l IH]; intros Hin b; [contradiction|].
  cbn [fold_left]. destruct Hin as [-> | Hin]; [|now apply IH].
  apply fold_lines_keep. apply contains_app_r, contains_startswith.
  rewrite <- (append_nil_r (g kv)) at 2. apply startswith_app.
Qed.

Lemma header_block_run (custom normal : list string) (b0 lib : string) w :
  custom <> [] ->
  when (0 <? List.length custom)%nat
    (assign_basis_set b0 ;;
     when (0 <? List.length normal)%nat (add_basis_set lib)) w
  = (Ok tt,
     store_basis_set (if (0 <? List.length normal)%nat then b0 ++ lib else b0) w).
Proof.
  intros Hne. destruct custom; [congruence|]. destruct normal; reflexivity.
Qed.

Lemma library_lines_run (g : string * string -> string) (nr : dict) b w :
  when (0 <? List.length nr)%nat
    (_ <- read_basis_set ;; for_each nr (fun kv => add_basis_set (g kv)))
    (store_basis_set b w)
  = (Ok tt, store_basis_set (fold_left (fun b kv => b ++ g kv) nr b) w).
Proof.
  destruct nr as [|kv nr]; [reflexivity|].
  cbn [List.length Nat.ltb Nat.leb when].
  rewrite (bind_step read_basis_set _ (store_basis_set b w) b (store_basis_set b w))
    by reflexivity.
  apply for_each_add_basis_set.
Qed.

Lemma ecp_block_run (ecp : list string) (s1 s2 s3 b : string) w :
  when (0 <? List.length ecp)%nat
    (add_basis_set s1 ;; add_basis_set s2 ;; add_basis_set s3)
    (store_basis_set b w)
  = (Ok tt,
     store_basis_set
       (if (0 <? List.length ecp)%nat then ((b ++ s1) ++ s2) ++ s3 else b) w).
Proof. destruct ecp; reflexivity. Qed.

Lemma spliced_block_lists base normal loc el kw :
  In (el, kw) (not_recoginzed_bs loc) ->
  contains (el ++ " library " ++ kw ++ " " ++ nl) (spliced_block base normal loc)
  = true.
Proof.
  intros Hin. unfold spliced_block. cbv zeta.
  set (g := fun kv : string * string => fst kv ++ " library " ++ snd kv ++ " " ++ nl).
  match goal with
  | |- context [fold_left ?f (not_recoginzed_bs loc) ?b1] =>
      assert (H : contains (g (el, kw)) (fold_left f (not_recoginzed_bs loc) b1) = true)
        by (apply (fold_lines_contain g (el, kw)); exact Hin)
  end.
  cbn [g fst snd] in H.
  destruct (0 <? List.length (to_append_ecp loc))%nat;
    repeat apply contains_app_l; exact H.
Qed.

(** C6 (as amended). For a custom-basis element that is present in the
    geometry and whose basis-database query fails, the failure raises
    nothing: the step of the loop records a warning, puts the raw keyword
    among the library references and collects neither a basis text nor an
    effective core potential for the element.  The Basis Set Resolver then
    returns, provided the base name resolves and every other override
    present in the geometry names a known element whose query fails too or
    returns text with a basis section; the block it writes holds the line
    [<element> library <keyword>], and the warning is among the warnings of
    the run. *)
Theorem C6_failed_query_degrades
    (env : Collaborators) (w : World) (d : dict) (el kw : string) (n : Z)
    (base : string) :
  custom_basis_sets (parameters (calc w)) = TheDict d ->
  NoDup (map fst d) ->
  In (el, kw) d ->
  in_list el (unique_atoms_of (calc w)) = true ->
  ATOMIC_NUMBER env el = Some n ->
  get_basis env kw n = None ->
  get_basis_set env (basis_set (parameters (calc w))) "nwchem" = Ok base ->
  Forall (item_ok env (unique_atoms_of (calc w))) d ->
  (forall loc w0,
     splice_element env (unique_atoms_of (calc w)) loc (el, kw) w0 =
     (Ok (mkSplice (to_append_bs loc) (to_append_ecp loc)
            (dict_set el kw (not_recoginzed_bs loc)) (custom_atoms loc ++ [el])),
      add_warnings [basis_warning kw] w0))
  /\ exists w' b,
       handle_basis_sets env w = (Ok tt, w')
       /\ self_basis_set (self w') = Some b
       /\ contains (el ++ " library " ++ kw ++ " " ++ nl) b = true
       /\ In (basis_warning kw) (warnings w').
Proof.
  intros Hd Hnd Hin Hu Hn Hq Hbase Hok.
  split; [intros; now apply splice_element_failed with (n := n)|].
  destruct (splice_elements_returns env _ d (mkSplice [] [] [] []) w Hok)
    as (loc & ws & E & _ & _ & F).
  destruct (F el kw n Hin Hnd Hu Hn Hq) as (F1 & F2 & F3).
  unfold unique_atoms_of in E. rewrite Hd in E.
  destruct (fold_left (scan_atoms (TheDict d)) (split "010" (xyz (calc w))) ([], []))
    as [unique_atoms normal_atoms] eqn:Ef. cbn [fst] in E.
  exists (store_basis_set (spliced_block base normal_atoms loc) (add_warnings ws w)),
    (spliced_block base normal_atoms loc).
  split; [|split; [reflexivity|split]].
  - unfold handle_basis_sets.
    rewrite (bind_step get_calc _ w (calc w) w) by reflexivity. cbv zeta.
    unfold lift at 1. rewrite (bind_step _ _ w base w) by (now rewrite Hbase).
    rewrite Hd. destruct d as [|item d]; [contradiction|].
    cbn [len List.length Nat.eqb andb ne_empty_str]. rewrite andb_false_r.
    unfold parse_custom_basis_set.
    rewrite (bind_step get_calc _ w (calc w) w) by reflexivity. cbv zeta.
    rewrite Hd, Ef. unfold lift, items.
    rewrite (bind_step _ _ w (item :: d) w) by reflexivity.
    rewrite (bind_step _ _ _ _ _ E).
    rewrite (bind_step _ _ _ _ _ (header_block_run _ normal_atoms _ _ _ F3)).
    rewrite (bind_step _ _ _ _ _
               (library_lines_run
                  (fun kv => fst kv ++ " library " ++ snd kv ++ " " ++ nl) _ _ _)).
    rewrite (bind_step _ _ _ _ _ (try_add_basis_set_run _ "end" _ _)).
    rewrite ecp_block_run. reflexivity.
  - apply spliced_block_lists. now apply dict_get_In.
  - cbn. apply in_or_app. now right.
Qed.

Lemma C6_failed_query_degrades_witness :
  exists w' b,
    handle_basis_sets sample_env (configured iodide_request) = (Ok tt, w')
    /\ self_basis_set (self w') = Some b
    /\ contains ("I library sdd " ++ nl) b = true
    /\ In (basis_warning "sdd") (warnings w').
Proof.
  assert (Hnd : NoDup (map fst [("I", "sdd")])).
  { cbn. constructor; [intros [] | constructor]. }
  assert (Hok : Forall (item_ok sample_env
                          (unique_atoms_of (calc (configured iodide_request))))
                  [("I", "sdd")]).
  { constructor; [|constructor]. right. exists 53%Z.
    split; [reflexivity | now left]. }
  exact (proj2 (C6_failed_query_degrades sample_env (configured iodide_request)
                  [("I", "sdd")] "I" "sdd" 53%Z "6-31g"
                  eq_refl Hnd (or_introl eq_refl) eq_refl eq_refl eq_refl eq_refl
                  Hok)).
Defined.

(** C6, the claim as stated fails: iodine is in the geometry, has an
    override, and its query fails, yet generation does not succeed: the
    override for the dummy centre [X], which is no element, makes the same
    loop raise [InvalidParameter]. *)
Lemma C6_counterexample :
  custom_basis_sets (parameters dummy_centre_request)
  = TheDict [("I", "sdd"); ("X", "sdd")]
  /\ in_list "I" (unique_atoms_of dummy_centre_request) = true
  /\ ATOMIC_NUMBER sample_env "I" = Some 53%Z
  /\ get_basis sample_env "sdd" 53%Z = None
  /\ fst (generate sample_env dummy_centre_request) = Raise InvalidParameter.
Proof. repeat split. Qed.

(** * Further properties of the generator *)

(** ** The sanitizer *)

Lemma clean_cons (c : ascii) (s : string) :
  clean (String c s) = if chr_in c WHITELIST then String c (clean s) else clean s.
Proof. reflexivity. Qed.

Lemma chr_in_cons (c a : ascii) (s : string) :
  chr_in c (String a s) = Ascii.eqb c a || chr_in c s.
Proof. reflexivity. Qed.

Lemma clean_app (a b : string) : clean (a ++ b) = clean a ++ clean b.
Proof.
  induction a as [|c a IH]; [reflexivity|].
  change (String c a ++ b) with (String c (a ++ b)).
  rewrite !clean_cons, IH. now destruct (chr_in c WHITELIST).
Qed.

Lemma chr_in_clean (c : ascii) (s : string) :
  chr_in c (clean s) = true -> chr_in c WHITELIST = true /\ chr_in c s = true.
Proof.
  induction s as [|a s IH]; [discriminate|].
  rewrite clean_cons, chr_in_cons.
  destruct (chr_in a WHITELIST) eqn:Ha.
  - rewrite chr_in_cons. destruct (Ascii.eqb_spec c a) as [->|_]; [auto|].
    cbn [orb]. exact IH.
  - intros H. destruct (IH H) as [H1 H2]. rewrite H2, orb_true_r. auto.
Qed.

Lemma clean_fixed (s : string) :
  (forall c, chr_in c s = true -> chr_in c WHITELIST = true) -> clean s = s.
Proof.
  induction s as [|a s IH]; intros H; [reflexivity|].
  rewrite clean_cons, (H a) by (rewrite chr_in_cons, Ascii.eqb_refl; reflexivity).
  f_equal. apply IH. intros c Hc. apply H. rewrite chr_in_cons, Hc.
  apply orb_true_r.
Qed.

Lemma clean_idem (s : string) : clean (clean s) = clean s.
Proof. apply clean_fixed. intros c Hc. now apply chr_in_clean in Hc. Qed.

(** X1. [clean] keeps exactly the characters of the allow-list, in their
    order: every character of the result is an allowed character of the
    argument, the result of a concatenation is the concatenation of the
    results, a text of allowed characters comes back unchanged, and cleaning
    twice is cleaning once. *)
Theorem X1_clean_allow_list (s : string) :
  (forall c, chr_in c (clean s) = true ->
             chr_in c WHITELIST = true /\ chr_in c s = true)
  /\ clean (clean s) = clean s
  /\ (forall t, clean (s ++ t) = clean s ++ clean t)
  /\ ((forall c, chr_in c s = true -> chr_in c WHITELIST = true) -> clean s = s).
Proof.
  split; [intros c; apply chr_in_clean|].
  split; [apply clean_idem|].
  split; [intros t; apply clean_app | apply clean_fixed].
Qed.

Lemma X1_clean_allow_list_witness : clean "scf(direct)" = "scf(direct)".
Proof.
  apply (proj2 (proj2 (proj2 (X1_clean_allow_list "scf(direct)")))).
  intros c H. apply (chr_in_clean c "scf(direct)"). exact H.
Defined.

(** ** Splitting and joining *)

Lemma split_fresh (sep : ascii) (s : string) :
  chr_in sep s = false -> split sep s = [s].
Proof.
  induction s as [|c s IH]; [reflexivity|].
  rewrite chr_in_cons. intros H. apply orb_false_iff in H as [H1 H2].
  cbn [split]. rewrite Ascii.eqb_sym, H1, (IH H2). reflexivity.
Qed.

Lemma split_app_sep (sep : ascii) (x rest : string) :
  chr_in sep x = false ->
  split sep (x ++ String sep rest) = x :: split sep rest.
Proof.
  induction x as [|c x IH]; intros H.
  - cbn. now rewrite Ascii.eqb_refl.
  - rewrite chr_in_cons in H. apply orb_false_iff in H as [H1 H2].
    change (String c x ++ String sep rest) with (String c (x ++ String sep rest)).
    cbn [split]. rewrite Ascii.eqb_sym, H1, (IH H2). reflexivity.
Qed.

Lemma join_cons (sep x y : string) (l : list string) :
  join sep (x :: y :: l) = x ++ sep ++ join sep (y :: l).
Proof. reflexivity. Qed.

Lemma split_join (sep : ascii) (l : list string) :
  l <> [] -> Forall (fun x => chr_in sep x = false) l ->
  split sep (join (String sep "") l) = l.
Proof.
  induction l as [|x l IH]; intros Hne H; [congruence|].
  inversion H as [|? ? Hx Hl]; subst.
  destruct l as [|y l].
  - cbn [join]. now apply split_fresh.
  - rewrite join_cons.
    change (String sep "" ++ join (String sep "") (y :: l))
      with (String sep (join (String sep "") (y :: l))).
    rewrite split_app_sep by assumption. f_equal. apply IH; [discriminate | assumption].
Qed.

Lemma split_pieces (sep : ascii) (s : string) :
  Forall (fun x => chr_in sep x = false) (split sep s).
Proof.
  induction s as [|c s IH]; cbn [split]; [repeat constructor|].
  destruct (Ascii.eqb_spec c sep) as [->|Hne]; [constructor; [reflexivity | exact IH]|].
  destruct (split sep s) as [|h t]; [repeat constructor|].
  - rewrite chr_in_cons. apply orb_false_iff. split; [|reflexivity].
    apply Ascii.eqb_neq. congruence.
  - inversion IH; subst. constructor; [|assumption].
    rewrite chr_in_cons. apply orb_false_iff. split; [|assumption].
    apply Ascii.eqb_neq. congruence.
Qed.

Lemma join_split (sep : ascii) (s : string) :
  join (String sep "") (split sep s) = s.
Proof.
  induction s as [|c s IH]; [reflexivity|].
  cbn [split]. destruct (Ascii.eqb_spec c sep) as [->|Hne].
  - destruct (split_cons sep s) as (h & t & E). rewrite E in *.
    cbn [join]. cbn. now rewrite <- IH.
  - destruct (split_cons sep s) as (h & t & E). rewrite E in *.
    destruct t; cbn [join] in *; cbn; now rewrite <- IH.
Qed.

(** ** The tokens of a specification string *)

Lemma clean_no_newline (s : string) : chr_in "010" (clean s) = false.
Proof.
  destruct (chr_in "010" (clean s)) eqn:E; [|reflexivity].
  apply chr_in_clean in E as [E _]. vm_compute in E. discriminate.
Qed.

Lemma clean_lines_no_newline (l : list string) :
  Forall (fun x => chr_in "010" x = false) (clean_lines l).
Proof.
  induction l as [|x l IH]; cbn [clean_lines]; [constructor|].
  destruct (negb (strip x =? "")); [constructor; [apply clean_no_newline | exact IH] | exact IH].
Qed.

Lemma split_separate_lines (text : string) :
  split "010" (separate_lines text) =
  match clean_lines (split ";" text) with
  | [] => [""]
  | l => l
  end.
Proof.
  unfold separate_lines. destruct (clean_lines (split ";" text)) as [|x l] eqn:E.
  - reflexivity.
  - rewrite <- E. apply (split_join "010").
    + rewrite E; discriminate.
    + apply clean_lines_no_newline.
Qed.

Lemma lstrip_blank (s : string) : all_chars isspace s = true -> lstrip s = "".
Proof.
  induction s as [|c s IH]; [reflexivity|]. cbn. intros H.
  apply andb_true_iff in H as [H1 H2]. now rewrite H1, IH.
Qed.

Lemma rstrip_blank (s : string) : all_chars isspace s = true -> rstrip s = "".
Proof.
  induction s as [|c s IH]; [reflexivity|]. cbn. intros H.
  apply andb_true_iff in H as [H1 H2]. now rewrite (IH H2), H1.
Qed.

Lemma rstrip_nil_blank (s : string) : rstrip s = "" -> all_chars isspace s = true.
Proof.
  induction s as [|c s IH]; [reflexivity|]. cbn.
  destruct (rstrip s) eqn:E; [|discriminate].
  destruct (isspace c); [intros _; now rewrite IH | discriminate].
Qed.

Lemma lstrip_nil_blank (s : string) : lstrip s = "" -> all_chars isspace s = true.
Proof.
  induction s as [|c s IH]; [reflexivity|]. cbn.
  destruct (isspace c); [exact IH | discriminate].
Qed.

Lemma all_chars_lstrip f s : all_chars f s = true -> all_chars f (lstrip s) = true.
Proof.
  induction s as [|c s IH]; [reflexivity|]. cbn [lstrip all_chars]. intros H.
  destruct (isspace c); [apply IH; now apply andb_true_iff in H | exact H].
Qed.

Lemma strip_blank_iff (s : string) :
  strip s = "" <-> all_chars isspace s = true.
Proof.
  unfold strip. split.
  - intros H. apply rstrip_nil_blank in H.
    revert H. induction s as [|c s IH]; [reflexivity|]. cbn [lstrip].
    destruct (isspace c) eqn:Hc; [|trivial].
    intros H. cbn [all_chars]. now rewrite Hc, (IH H).
  - intros H. apply rstrip_blank. now apply all_chars_lstrip.
Qed.

Lemma blank_segments (s : string) :
  clean_lines (split ";" s) = [] -> all_chars blank_or_sep s = true.
Proof.
  induction s as [|c s IH]; [reflexivity|].
  cbn [split]. destruct (Ascii.eqb_spec c ";") as [->|Hne].
  - cbn [clean_lines]. cbn [strip lstrip rstrip String.eqb negb].
    intros H. cbn [all_chars]. now rewrite (IH H).
  - destruct (split_cons ";" s) as (h & t & E). rewrite E in *.
    cbn [clean_lines] in *.
    destruct (strip (String c h) =? "") eqn:Hs; [|discriminate].
    cbn [negb]. intros H.
    apply String.eqb_eq, strip_blank_iff in Hs. cbn [all_chars] in Hs.
    apply andb_true_iff in Hs as [Hc Hh].
    cbn [all_chars]. unfold blank_or_sep at 1. rewrite Hc. cbn [orb andb].
    apply IH. apply strip_blank_iff in Hh. apply String.eqb_eq in Hh.
    now rewrite Hh.
Qed.

Lemma clean_blank (s : string) :
  all_chars blank_or_sep s = true -> all_chars isspace (clean s) = true.
Proof.
  induction s as [|c s IH]; [reflexivity|]. cbn [all_chars]. intros H.
  apply andb_true_iff in H as [Hc Hs]. rewrite clean_cons.
  destruct (chr_in c WHITELIST) eqn:Hw; [|auto].
  cbn [all_chars]. rewrite (IH Hs), andb_true_r.
  unfold blank_or_sep in Hc. apply orb_true_iff in Hc as [Hc|Hc]; [exact Hc|].
  apply Ascii.eqb_eq in Hc; subst c. vm_compute in Hw. discriminate.
Qed.

Lemma guard_segments (text : string) :
  negb (strip (clean text) =? "") = true -> clean_lines (split ";" text) <> [].
Proof.
  intros H E. apply blank_segments, clean_blank, strip_blank_iff in E.
  rewrite E in H. discriminate.
Qed.

Lemma tokens_of_segments (text : string) :
  tokens_of text =
  if negb (strip (clean text) =? "") then clean_lines (split ";" text) else [].
Proof.
  unfold tokens_of. destruct (negb (strip (clean text) =? "")) eqn:G; [|reflexivity].
  rewrite split_separate_lines.
  pose proof (guard_segments text G) as Hne.
  now destruct (clean_lines (split ";" text)).
Qed.

(** X2. The lines of [separate_lines text] are the sanitized non-blank
    segments of [text] between semicolons (one empty line when there is
    none): joining them with newlines and splitting the result again loses
    nothing, because sanitizing removes every newline.  So the tokens the
    router loops over are exactly those segments. *)
Theorem X2_tokens_are_the_segments (text : string) :
  split "010" (separate_lines text)
  = match clean_lines (split ";" text) with [] => [""] | l => l end
  /\ tokens_of text
     = if negb (strip (clean text) =? "") then clean_lines (split ";" text) else [].
Proof. split; [apply split_separate_lines | apply tokens_of_segments]. Qed.

(** ** Lower case *)

Lemma lower_chr_allowed (c : ascii) :
  chr_in (lower_chr c) WHITELIST = true -> lower_chr (lower_chr c) = lower_chr c.
Proof.
  destruct c as [[] [] [] [] [] [] [] []]; vm_compute; intros H;
    first [reflexivity | discriminate H].
Qed.

Lemma lower_app (a b : string) : lower (a ++ b) = lower a ++ lower b.
Proof. induction a as [|c a IH]; cbn; [reflexivity | now rewrite IH]. Qed.

Lemma from_lstrip s : from s (lstrip s).
Proof.
  induction s as [|a s IH]; intros c H; [exact H|]. cbn [lstrip] in H.
  destruct (isspace a); [|exact H]. rewrite chr_in_cons, (IH c H). apply orb_true_r.
Qed.

Lemma from_rstrip s : from s (rstrip s).
Proof.
  induction s as [|a s IH]; intros c H; [exact H|]. cbn [rstrip] in H.
  rewrite chr_in_cons.
  destruct (rstrip s) as [|r rs] eqn:E.
  - destruct (isspace a); [discriminate|]. rewrite chr_in_cons in H.
    cbn [chr_in] in H. rewrite orb_false_r in H. now rewrite H.
  - rewrite chr_in_cons in H. apply orb_true_iff in H as [H|H]; [now rewrite H|].
    rewrite (IH c H). apply orb_true_r.
Qed.

Lemma from_strip s : from s (strip s).
Proof. intros c H. apply from_lstrip, from_rstrip, H. Qed.

Lemma chr_in_lower (c : ascii) (s : string) :
  chr_in c (lower s) = true -> exists a, c = lower_chr a.
Proof.
  induction s as [|a s IH]; [discriminate|]. cbn [lower]. rewrite chr_in_cons.
  intros H. apply orb_true_iff in H as [H|H]; [|auto].
  apply Ascii.eqb_eq in H. eauto.
Qed.

Lemma lower_fixed (s : string) :
  (forall c, chr_in c s = true -> lower_chr c = c) -> lower s = s.
Proof.
  induction s as [|a s IH]; intros H; [reflexivity|]. cbn [lower].
  rewrite (H a) by (rewrite chr_in_cons, Ascii.eqb_refl; reflexivity).
  f_equal. apply IH. intros c Hc. apply H. rewrite chr_in_cons, Hc. apply orb_true_r.
Qed.

Lemma clean_lines_tokens (l : list string) (tok : string) :
  In tok (clean_lines l) ->
  exists line, In line l /\ strip line <> "" /\ tok = clean (strip (lower line)).
Proof.
  induction l as [|x l IH]; cbn [clean_lines]; [contradiction|].
  destruct (String.eqb_spec (strip x) "") as [E|E]; cbn [negb].
  - intros H. destruct (IH H) as (line & H1 & H2). exists line. split; [now right | exact H2].
  - intros [<-|H].
    + exists x. split; [now left | split; [exact E | reflexivity]].
    + destruct (IH H) as (line & H1 & H2). exists line. split; [now right | exact H2].
Qed.

Lemma token_lower_case (line : string) :
  lower (clean (strip (lower line))) = clean (strip (lower line)).
Proof.
  apply lower_fixed. intros c Hc.
  apply chr_in_clean in Hc as [Hw Hc]. apply from_strip in Hc.
  apply chr_in_lower in Hc as [a ->]. now apply lower_chr_allowed.
Qed.

(** X3. Every token the router sees is sanitized and in lower case:
    cleaning it or lowering it again changes nothing, and it holds neither a
    newline nor a semicolon. *)
Theorem X3_tokens_are_sanitized (text tok : string) :
  In tok (tokens_of text) ->
  clean tok = tok /\ lower tok = tok
  /\ chr_in "010" tok = false /\ chr_in ";" tok = false.
Proof.
  rewrite tokens_of_segments.
  destruct (negb (strip (clean text) =? "")); [|contradiction].
  intros H. apply clean_lines_tokens in H as (line & _ & _ & ->).
  split; [apply clean_idem|]. split; [apply token_lower_case|].
  split; [apply clean_no_newline|].
  destruct (chr_in ";" (clean (strip (lower line)))) eqn:E; [|reflexivity].
  apply chr_in_clean in E as [E _]. vm_compute in E. discriminate.
Qed.

Lemma X3_tokens_are_sanitized_witness :
  In "scf(direct)" (tokens_of " SCF(Direct) ;; opt(maxiter 5)")
  /\ clean "scf(direct)" = "scf(direct)".
Proof.
  assert (H : In "scf(direct)" (tokens_of " SCF(Direct) ;; opt(maxiter 5)"))
    by (vm_compute; now left).
  split; [exact H|].
  exact (proj1 (X3_tokens_are_sanitized _ _ H)).
Defined.

(** ** The pattern of the router *)

Lemma chr_in_app (c : ascii) (a b : string) :
  chr_in c (a ++ b) = chr_in c a || chr_in c b.
Proof.
  induction a as [|x a IH]; [reflexivity|].
  change (String x a ++ b) with (String x (a ++ b)).
  now rewrite !chr_in_cons, IH, orb_assoc.
Qed.

Lemma rfind_chr_absent (c : ascii) (s : string) :
  chr_in c s = false -> rfind_chr c s = None.
Proof.
  induction s as [|a s IH]; [reflexivity|]. rewrite chr_in_cons. intros H.
  apply orb_false_iff in H as [H1 H2]. cbn [rfind_chr].
  now rewrite (IH H2), Ascii.eqb_sym, H1.
Qed.

Lemma rfind_chr_last (c : ascii) (a b : string) :
  chr_in c b = false -> rfind_chr c (a ++ String c b) = Some (String.length a).
Proof.
  intros H. induction a as [|x a IH].
  - cbn [append rfind_chr]. now rewrite (rfind_chr_absent c b H), Ascii.eqb_refl.
  - change (String x a ++ String c b) with (String x (a ++ String c b)).
    cbn [rfind_chr]. now rewrite IH.
Qed.

Lemma take_app (a b : string) : take (String.length a) (a ++ b) = a.
Proof.
  induction a as [|x a IH]; [now destruct b|]. cbn. now rewrite IH.
Qed.

Lemma drop_app (a b : string) : drop (String.length a) (a ++ b) = b.
Proof. induction a as [|x a IH]; [now destruct b | exact IH]. Qed.

Lemma length_app (a b : string) :
  String.length (a ++ b) = String.length a + String.length b.
Proof. induction a as [|x a IH]; cbn; [reflexivity | now rewrite IH]. Qed.

Lemma match_line_cut (pre arg post : string) :
  chr_in "(" arg = false -> chr_in ")" post = false ->
  match_line (pre ++ "(" ++ arg ++ ")" ++ post)
  = Some (String.length pre, arg).
Proof.
  intros Ha Hp. unfold match_line.
  replace (pre ++ "(" ++ arg ++ ")" ++ post)
    with ((pre ++ "(" ++ arg) ++ String ")" post)
    by (now rewrite !append_assoc).
  rewrite (rfind_chr_last ")" _ post Hp), take_app.
  change (pre ++ "(" ++ arg) with (pre ++ String "(" arg).
  rewrite (rfind_chr_last "(" pre arg Ha).
  change (String "(" arg) with ("(" ++ arg). rewrite <- append_assoc.
  replace (S (String.length pre)) with (String.length (pre ++ "(")).
  - now rewrite drop_app.
  - rewrite length_app. cbn. lia.
Qed.

Lemma match_line_bare (spec : string) :
  chr_in ")" spec = false -> match_line spec = None.
Proof. intros H. unfold match_line. now rewrite rfind_chr_absent. Qed.

(** X4. The pattern of line 236 cuts a token at its last closing
    parenthesis and at the last opening parenthesis before it: what precedes
    the opening one is the block name, what lies between the two is the
    command, and what follows the closing one is dropped. *)
Theorem X4_token_cut (pre arg post : string) :
  chr_in "010" (pre ++ "(" ++ arg ++ ")" ++ post) = false ->
  chr_in "(" arg = false -> chr_in ")" post = false ->
  re_search_block (pre ++ "(" ++ arg ++ ")" ++ post)
  = Some (S (String.length pre), arg)
  /\ block_name_of (pre ++ "(" ++ arg ++ ")" ++ post) = Some pre.
Proof.
  intros Hn Ha Hp.
  assert (E : re_search_block (pre ++ "(" ++ arg ++ ")" ++ post)
              = Some (S (String.length pre), arg)).
  { unfold re_search_block. rewrite (split_fresh "010" _ Hn).
    cbn [search_lines]. now rewrite match_line_cut. }
  split; [exact E|]. unfold block_name_of. rewrite E.
  cbn [Nat.sub]. now rewrite Nat.sub_0_r, take_app.
Qed.

Lemma X4_token_cut_witness :
  re_search_block "scf(maxiter 50)x"
  = Some (4, "maxiter 50")
  /\ block_name_of "scf(maxiter 50)x" = Some "scf".
Proof.
  exact (X4_token_cut "scf" "maxiter 50" "x" eq_refl eq_refl eq_refl).
Defined.

(** ** Stripping *)

Lemma lstrip_idem (s : string) : lstrip (lstrip s) = lstrip s.
Proof.
  induction s as [|c s IH]; [reflexivity|]. cbn [lstrip].
  destruct (isspace c) eqn:E; [exact IH|]. cbn [lstrip]. now rewrite E.
Qed.

Lemma rstrip_idem (s : string) : rstrip (rstrip s) = rstrip s.
Proof.
  induction s as [|c s IH]; [reflexivity|]. cbn [rstrip].
  destruct (rstrip s) as [|r rs] eqn:E.
  - destruct (isspace c) eqn:Hc; [reflexivity|]. cbn. now rewrite Hc.
  - rewrite rstrip_cons; [now rewrite IH | rewrite IH; discriminate].
Qed.

Lemma lstrip_rstrip (s : string) :
  lstrip s = s -> lstrip (rstrip s) = rstrip s.
Proof.
  destruct s as [|c s]; [reflexivity|]. cbn [lstrip].
  destruct (isspace c) eqn:Hc.
  - intros H. exfalso.
    assert (L : String.length (lstrip s) <= String.length s).
    { clear. induction s as [|a s IH]; cbn; [lia|]. destruct (isspace a); cbn; lia. }
    rewrite H in L. cbn in L. lia.
  - intros _. cbn [rstrip]. destruct (rstrip s); rewrite ?Hc; cbn; now rewrite Hc.
Qed.

Lemma strip_idem (s : string) : strip (strip s) = strip s.
Proof.
  unfold strip. rewrite (lstrip_rstrip (lstrip s) (lstrip_idem s)).
  apply rstrip_idem.
Qed.

Lemma strip_no_chr (c : ascii) (s : string) :
  chr_in c s = false -> chr_in c (strip s) = false.
Proof.
  intros H. destruct (chr_in c (strip s)) eqn:E; [|reflexivity].
  apply from_strip in E. congruence.
Qed.

Lemma split_strip_lines (raw : string) :
  split "010" (strip_lines raw) = map strip (split "010" raw).
Proof.
  unfold strip_lines. apply (split_join "010").
  - destruct (split_cons "010" raw) as (h & t & E). rewrite E. discriminate.
  - pose proof (split_pieces "010" raw) as H.
    induction H as [|x l Hx Hl IH]; cbn [map]; constructor; [|exact IH].
    now apply strip_no_chr.
Qed.

Lemma strip_lines_idem (raw : string) :
  strip_lines (strip_lines raw) = strip_lines raw.
Proof.
  unfold strip_lines at 1. rewrite split_strip_lines, map_map.
  unfold strip_lines. f_equal. apply map_ext. intros l. apply strip_idem.
Qed.

Lemma document_lines_stripped (raw : string) :
  Forall (fun l => strip l = l) (split "010" (strip_lines raw)).
Proof.
  rewrite split_strip_lines. apply Forall_forall. intros l H.
  apply in_map_iff in H as (x & <- & _). apply strip_idem.
Qed.

(** X5. No line of a generated document begins or ends with white space:
    the indentation of the template and the trailing blanks of the blocks
    are gone, and stripping the lines again changes nothing. *)
Theorem X5_document_lines_are_stripped
    (env : Collaborators) (c : Calculation) (doc : string) (w : World) :
  generate env c = (Ok doc, w) ->
  Forall (fun l => strip l = l) (split "010" doc)
  /\ strip_lines doc = doc.
Proof.
  intros H. apply generate_document in H as (b & _ & ->).
  split; [apply document_lines_stripped | apply strip_lines_idem].
Qed.

Lemma X5_document_lines_are_stripped_witness :
  exists doc w,
    generate sample_env sample_request = (Ok doc, w)
    /\ strip_lines doc = doc.
Proof.
  eexists; eexists. 
  assert (H : generate sample_env sample_request
              = (fst (generate sample_env sample_request),
                 snd (generate sample_env sample_request)))
    by (now destruct (generate sample_env sample_request)).
  vm_compute in H.
  split; [vm_compute; reflexivity|].
  match type of H with
  | _ = (Ok ?d, ?w) => exact (proj2 (X5_document_lines_are_stripped sample_env sample_request d w eq_refl))
  end.
Defined.

(** ** Failures of the first stages *)

(** X6. A calculation kind without task keywords (the two
    absorption-spectrum kinds) is refused with [ImpossibleCalculation]
    before any stage runs: whatever the collaborators answer, the run ends
    in the store the constructor's own assignments leave, with no warning,
    no printed line and no file, and with the caller's request already
    rewritten. *)
Theorem X6_unsupported_kind (env : Collaborators) (c : Calculation) :
  calc_type c = UVVIS \/ calc_type c = UVVIS_TDA ->
  generate env c = (Raise ImpossibleCalculation, configured c).
Proof.
  intros H. unfold generate. rewrite init_unfold.
  destruct H as [-> | ->]; reflexivity.
Qed.

Lemma X6_unsupported_kind_witness :
  generate sample_env uvvis_smd_request
  = (Raise ImpossibleCalculation, configured uvvis_smd_request).
Proof. apply X6_unsupported_kind. left. reflexivity. Defined.

Lemma handle_tasks_unknown_multiplicity env w :
  KEYWORDS (calc_type (calc w)) <> None ->
  theory_level (parameters (calc w)) = "scf" ->
  SOFTWARE_MULTIPLICITY_nwchem env (multiplicity (calc w)) = None ->
  exists w1,
    handle_tasks env w = (Raise KeyError, w1)
    /\ calc w1 = calc w /\ warnings w1 = warnings w
    /\ printed w1 = printed w /\ files w1 = files w.
Proof.
  intros Hk Ht Hm.
  destruct w as [c o ws ps fs]. destruct c as [p k hd nm m ch mu x cs].
  destruct p as [sw th me bs cb so sm sr csr sp d3_ d3bj_].
  cbn [calc calc_type parameters theory_level multiplicity] in Hk, Ht, Hm.
  subst th.
  unfold handle_tasks, bind, get_calc, subscript, add_tasks, add_method_block,
    add_calculation_block, when, update_self, ret, raise.
  destruct k; cbn in Hk; try congruence; cbn; rewrite Hm; cbn;
    eexists; (split; [reflexivity|]); cbn; auto.
Qed.

(** X7. For a request of a kind the package supports (one with an entry
    in [KEYWORDS]), whose theory level the constructor normalises to [scf]
    and whose multiplicity has no name in the table of multiplicities,
    generation fails with the built-in [KeyError] of the
    unguarded look-up of line 133, not with an exception of the package;
    no warning has been emitted and no file written. *)
Theorem X7_unknown_multiplicity (env : Collaborators) (c : Calculation) :
  KEYWORDS (calc_type c) <> None ->
  nwchem_theory_level (parameters c) = "scf" ->
  SOFTWARE_MULTIPLICITY_nwchem env (multiplicity c) = None ->
  fst (generate env c) = Raise KeyError
  /\ warnings (snd (generate env c)) = []
  /\ files (snd (generate env c)) = [].
Proof.
  intros Hk Ht Hm.
  destruct (handle_tasks_unknown_multiplicity env (configured c))
    as (w1 & E & _ & Hw & _ & Hf); try assumption.
  unfold generate. rewrite init_unfold.
  destruct (KEYWORDS (calc_type c)); [|congruence].
  unfold stages. rewrite (bind_Raise _ _ _ _ _ E). cbn [fst snd].
  rewrite Hw, Hf. auto.
Qed.

Lemma X7_unknown_multiplicity_witness :
  fst (generate sample_env quartet_request) = Raise KeyError.
Proof.
  apply (X7_unknown_multiplicity sample_env quartet_request);
    [discriminate | reflexivity | reflexivity].
Defined.

Lemma handle_solvation_unsupported env w r w2 :
  in_list (lower (solvent (parameters (calc w)))) [""; "vacuum"] = false ->
  in_list (lower (solvation_model (parameters (calc w)))) ["cosmo"; "smd"; "smd18"]
    = false
  \/ in_list (solvation_radii (parameters (calc w))) [""; "default"] = false ->
  handle_solvation env w = (r, w2) ->
  (exists e, r = Raise e)
  /\ ((exists k, get_solvent env (solvent (parameters (calc w)))
                   (software (parameters (calc w)))
                   (solvation_model (parameters (calc w))) = Ok k) ->
      r = Raise UnimplementedError)
  /\ calc w2 = calc w /\ warnings w2 = warnings w /\ files w2 = files w.
Proof.
  intros Hs Hbad.
  destruct w as [c o ws ps fs]. destruct c as [p k hd nm m ch mu x cs].
  destruct p as [sw th me bs cb so sm sr csr sp d3_ d3bj_].
  cbn [calc calc_type parameters theory_level solvent solvation_model
       solvation_radii software warnings files] in *.
  unfold handle_solvation, bind, get_calc, lift, add_additional_block, when,
    update_self, ret, raise.
  cbn [calc self parameters solvent solvation_model solvation_radii software
       theory_level custom_solvation_radii name warnings printed files].
  rewrite Hs. cbn [negb].
  destruct (get_solvent env so sw sm) as [kw|e] eqn:Ek.
  - assert (Hcases :
      in_list (lower sm) ["cosmo"] = false /\ in_list (lower sm) ["smd"; "smd18"] = false
      \/ in_list sr [""; "default"] = false).
    { destruct Hbad as [Hb|Hb]; [left | now right].
      unfold in_list in *. cbn [existsb] in *.
      repeat (apply orb_false_iff in Hb as [? Hb]).
      split; repeat (apply orb_false_iff; split); auto. }
    destruct Hcases as [[H1 H2] | H3].
    + rewrite H1, H2. intros H; inversion H; subst. cbn.
      split; [eexists; reflexivity|]. auto.
    + rewrite H3. cbn [negb].
      destruct (in_list (lower sm) ["cosmo"]);
        [| destruct (in_list (lower sm) ["smd"; "smd18"]);
           [destruct (th =? "dft")|] ];
        cbn; intros H; inversion H; subst; cbn;
        (split; [eexists; reflexivity | auto]).
  - intros H; inversion H; subst. cbn.
    split; [eexists; reflexivity|]. split; [|auto].
    intros [k0 Hk]. discriminate.
Qed.

(** X8. With a solvent other than vacuum, a solvation model other than
    [cosmo], [smd] and [smd18], or solvation radii other than the default
    ones, generation returns no document; it fails with
    [UnimplementedError], and before any file is written, whenever the kind
    has task keywords, the multiplicity has a name when the block is [scf],
    and the solvent keyword resolves. *)
Theorem X8_unsupported_solvation (env : Collaborators) (c : Calculation) :
  in_list (lower (solvent (parameters c))) [""; "vacuum"] = false ->
  in_list (lower (solvation_model (parameters c))) ["cosmo"; "smd"; "smd18"] = false
  \/ in_list (solvation_radii (parameters c)) [""; "default"] = false ->
  (exists e, fst (generate env c) = Raise e)
  /\ (KEYWORDS (calc_type c) <> None ->
      (nwchem_theory_level (parameters c) = "scf" ->
       SOFTWARE_MULTIPLICITY_nwchem env (multiplicity c) <> None) ->
      (exists k, get_solvent env (solvent (parameters c))
                   (software (parameters c))
                   (solvation_model (parameters c)) = Ok k) ->
      fst (generate env c) = Raise UnimplementedError
      /\ files (snd (generate env c)) = []).
Proof.
  intros Hs Hbad.
  assert (Hsolv : forall w1 r w2,
             calc w1 = calc (configured c) ->
             handle_solvation env w1 = (r, w2) ->
             (exists e, r = Raise e)
             /\ ((exists k, get_solvent env (solvent (parameters c))
                              (software (parameters c))
                              (solvation_model (parameters c)) = Ok k) ->
                 r = Raise UnimplementedError)
             /\ files w2 = files w1).
  { intros w1 r w2 C1 E2.
    pose proof (handle_solvation_unsupported env w1 r w2) as K. rewrite C1 in K.
    destruct (K Hs Hbad E2) as (K1 & K2 & _ & _ & K3). auto. }
  split.
  - destruct (generate env c) as [[doc|e] w] eqn:H; [|eexists; reflexivity].
    apply generate_Ok in H as (_ & w1 & w2 & w3 & w4 & w5 & E1 & E2 & _).
    assert (C1 : calc w1 = calc (configured c)).
    { exact (preserves_run _ _ _ _ _ (handle_tasks_keeps_request env _) E1 eq_refl). }
    destruct (Hsolv w1 _ w2 C1 E2) as [[e He] _]. discriminate.
  - intros Hk Hmu Hsol.
    destruct (handle_tasks_returns env (configured c) Hk Hmu) as [w1 E1].
    assert (C1 : calc w1 = calc (configured c)).
    { exact (preserves_run _ _ _ _ _ (handle_tasks_keeps_request env _) E1 eq_refl). }
    assert (F1 : files w1 = []).
    { apply (preserves_run (fun w => files w = []) _ _ _ _)
        with (2 := E1); [|reflexivity].
      unfold handle_tasks. frame; intros [? ? ? ? ?] K; exact K. }
    destruct (handle_solvation env w1) as [r w2] eqn:E2.
    destruct (Hsolv w1 r w2 C1 E2) as (_ & Hr & Hf). specialize (Hr Hsol). subst r.
    unfold generate. rewrite init_unfold.
    destruct (KEYWORDS (calc_type c)); [|congruence].
    unfold stages. rewrite (bind_step _ _ _ _ _ E1).
    rewrite (bind_Raise _ _ _ _ _ E2). cbn [fst snd]. rewrite Hf, F1. auto.
Qed.

Lemma X8_unsupported_solvation_witness :
  fst (generate sample_env pcm_request) = Raise UnimplementedError.
Proof.
  refine (proj1 (proj2 (X8_unsupported_solvation sample_env pcm_request
                   eq_refl (or_introl eq_refl)) _ _ _)).
  - discriminate.
  - discriminate.
  - eexists; reflexivity.
Defined.

(** ** What a run writes besides the document *)

Section Establishes.

Context (I Q : World -> Prop).
Hypothesis HIQ : forall w, I w -> Q w.

Lemma establishes_preserves {A} (m : M A) : preserves I m -> establishes I Q m.
Proof. intros H w Hw. apply HIQ, H, Hw. Qed.

Lemma establishes_bind {A B} (m : M A) (k : A -> M B) :
  preserves I m -> (forall a, establishes I Q (k a)) -> establishes I Q (bind m k).
Proof.
  intros Hm Hk w Hw. unfold bind. specialize (Hm w Hw).
  destruct (m w) as [[a|e] w1]; cbn in *; [now apply Hk | now apply HIQ].
Qed.

Lemma establishes_then {A B} (m : M A) (k : A -> M B) :
  establishes I Q m -> (forall a, preserves Q (k a)) -> establishes I Q (bind m k).
Proof.
  intros Hm Hk w Hw. unfold bind. specialize (Hm w Hw).
  destruct (m w) as [[a|e] w1]; cbn in *; [now apply Hk | assumption].
Qed.

Lemma establishes_when (b : bool) (m : M unit) :
  establishes I Q m -> establishes I Q (when b m).
Proof. intros H. destruct b; [exact H|]. intros w Hw. now apply HIQ. Qed.

End Establishes.

(** The stages, for a property of the messages and files of a run: the
    writes to the object and to the request do not matter, and every stage
    keeps the property if the writes it does to the logs keep it. *)
Section Logs.

Variable env : Collaborators.
Context (I : World -> Prop).
Hypothesis Hself : forall f, preserves I (update_self f).

Lemma handle_tasks_logs : preserves I (handle_tasks env).
Proof.
  unfold handle_tasks, add_tasks, add_method_block, add_calculation_block. frame.
Qed.

Lemma parse_custom_solvation_radii_logs :
  preserves I (parse_custom_solvation_radii env).
Proof. unfold parse_custom_solvation_radii. frame. Qed.

Lemma route_specifications_logs :
  (forall s, preserves I (print s)) -> preserves I route_specifications.
Proof.
  intros Hp. unfold route_specifications, add_additional_block. frame.
Qed.

Lemma handle_constraints_logs : preserves I handle_constraints.
Proof. unfold handle_constraints, add_additional_block. frame. Qed.

Lemma handle_xyz_logs : preserves I (handle_xyz env).
Proof. unfold handle_xyz. frame. Qed.

Lemma splice_elements_logs unique_atoms loc l :
  (forall s, preserves I (warn s)) ->
  preserves I (splice_elements env unique_atoms loc l).
Proof.
  intros Hw. revert loc; induction l as [|item l IH]; intros loc;
    cbn [splice_elements].
  - apply preserves_ret.
  - apply preserves_bind; [|auto]. unfold splice_element. frame.
Qed.

Lemma handle_basis_sets_logs :
  (forall s, preserves I (warn s)) -> preserves I (handle_basis_sets env).
Proof.
  intros Hw.
  unfold handle_basis_sets, parse_custom_basis_set, add_basis_set,
    read_basis_set, assign_basis_set;
    frame; auto using splice_elements_logs.
Qed.

Lemma close_blocks_logs : preserves I close_blocks.
Proof. unfold close_blocks. frame. Qed.

Lemma create_input_file_logs : preserves I create_input_file.
Proof. unfold create_input_file, read_basis_set. frame. Qed.

(** The stages after the solvation stage. *)
Lemma later_stages_logs :
  (forall s, preserves I (warn s)) -> (forall s, preserves I (print s)) ->
  preserves I
    (handle_specifications ;; handle_xyz env ;; handle_basis_sets env ;;
     close_blocks ;; create_input_file).
Proof.
  intros Hw Hp. unfold handle_specifications.
  repeat (apply preserves_bind; [|intros _]);
    auto using route_specifications_logs, handle_constraints_logs,
      handle_xyz_logs, handle_basis_sets_logs, close_blocks_logs,
      create_input_file_logs.
Qed.

End Logs.

Lemma files_update_self fs f : preserves (fun w => files w = fs) (update_self f).
Proof. intros w H; exact H. Qed.

Lemma files_warn fs s : preserves (fun w => files w = fs) (warn s).
Proof. intros w H; exact H. Qed.

Lemma files_print fs s : preserves (fun w => files w = fs) (print s).
Proof. intros w H; exact H. Qed.

Lemma one_more_update_self fs c f : preserves (one_more_file fs c) (update_self f).
Proof. intros w H; exact H. Qed.

Lemma one_more_warn fs c s : preserves (one_more_file fs c) (warn s).
Proof. intros w H; exact H. Qed.

Lemma one_more_print fs c s : preserves (one_more_file fs c) (print s).
Proof. intros w H; exact H. Qed.

Lemma handle_solvation_files env w :
  one_more_file (files w) (calc w) (snd (handle_solvation env w)).
Proof.
  set (fs := files w). set (c := calc w).
  assert (HIQ : forall w0, files w0 = fs -> one_more_file fs c w0)
    by (intros w0 H; now left).
  pose proof (files_update_self fs) as Hu.
  pose proof (files_warn fs) as Hw.
  pose proof (one_more_update_self fs c) as Qu.
  pose proof (one_more_warn fs c) as Qw.
  unfold handle_solvation.
  rewrite (bind_step get_calc _ w (calc w) w) by reflexivity. fold c. cbv zeta.
  revert w fs c HIQ Hu Hw Qu Qw.
  intros w fs c HIQ Hu Hw Qu Qw.
  assert (K : forall m : M unit,
             establishes (fun w => files w = fs) (one_more_file fs c) m ->
             one_more_file fs c (snd (m w))).
  { intros m Hm. apply Hm. reflexivity. }
  apply K. clear K.
  destruct (negb (in_list (lower (solvent (parameters c))) [""; "vacuum"]));
    [|apply establishes_preserves; [exact HIQ | apply preserves_ret]].
  apply establishes_bind; [exact HIQ | apply preserves_lift | intros kw].
  apply establishes_bind; [exact HIQ | apply Hu | intros _].
  apply establishes_bind; [exact HIQ | unfold add_additional_block; frame | intros _].
  apply establishes_bind; [exact HIQ | frame | intros _].
  apply establishes_when; [exact HIQ|].
  apply establishes_bind;
    [exact HIQ | now apply parse_custom_solvation_radii_logs | intros _].
  apply establishes_bind; [exact HIQ | apply preserves_get_self | intros o].
  apply establishes_then.
  - intros w0 H0. right. eexists. cbn. rewrite H0. reflexivity.
  - intros _. unfold add_additional_block. frame.
Qed.

Lemma handle_solvation_no_file env w :
  custom_solvation_radii (parameters (calc w)) = ""
  \/ in_list (lower (solvent (parameters (calc w)))) [""; "vacuum"] = true ->
  files (snd (handle_solvation env w)) = files w
  /\ warnings (snd (handle_solvation env w)) = warnings w.
Proof.
  intros H. unfold handle_solvation.
  rewrite (bind_step get_calc _ w (calc w) w) by reflexivity. cbv zeta.
  destruct (in_list (lower (solvent (parameters (calc w)))) [""; "vacuum"]) eqn:Hs;
    cbn [negb]; [split; reflexivity|].
  destruct H as [H|H]; [|discriminate]. rewrite H. cbn [String.eqb negb when].
  set (I := fun w0 => files w0 = files w /\ warnings w0 = warnings w).
  match goal with
  | |- files (snd (?m w)) = _ /\ _ => assert (K : preserves I m)
  end.
  { assert (Hu : forall f, preserves I (update_self f)) by (intros f w0 K; exact K).
    unfold add_additional_block. frame. }
  apply K. split; reflexivity.
Qed.

(** The store a run ends with, stage by stage: the property [Q] holds of
    it if the first stage keeps [I], the solvation stage leads from [I] to
    [Q], and the later stages keep [Q]. *)
Lemma stages_establish env (I Q : World -> Prop) w :
  (forall w, I w -> Q w) ->
  preserves I (handle_tasks env) ->
  establishes I Q (handle_solvation env) ->
  preserves Q
    (handle_specifications ;; handle_xyz env ;; handle_basis_sets env ;;
     close_blocks ;; create_input_file) ->
  I w -> Q (snd (stages env w)).
Proof.
  intros HIQ H1 H2 H3 Hw. unfold stages.
  apply (establishes_bind I Q HIQ); [exact H1| |exact Hw].
  intros _. apply establishes_then; [exact H2 | intros _; exact H3].
Qed.

(** X9. A run writes at most one file, [<name>_sol.parameters], the file
    of custom solvation radii, whether it returns or raises; it writes none
    when no custom radii are given or the solvent is vacuum. *)
Theorem X9_files_of_a_run (env : Collaborators) (c : Calculation) :
  (files (snd (generate env c)) = []
   \/ exists radii,
        files (snd (generate env c)) = [(name c ++ "_sol.parameters", radii)])
  /\ (custom_solvation_radii (parameters c) = ""
      \/ in_list (lower (solvent (parameters c))) [""; "vacuum"] = true ->
      files (snd (generate env c)) = []).
Proof.
  rewrite generate_store, init_unfold.
  destruct (KEYWORDS (calc_type c)); [|split; [now left | reflexivity]].
  split.
  - apply (stages_establish env
             (fun w => files w = [] /\ calc w = calc (configured c))
             (fun w => files w = []
                       \/ exists radii,
                            files w = [(name c ++ "_sol.parameters", radii)])).
    + intros w [H _]. now left.
    + intros w [H1 H2]. split.
      * apply (handle_tasks_logs env (fun w => files w = [])); [|exact H1].
        apply files_update_self.
      * now apply (handle_tasks_keeps_request env).
    + intros w [H1 H2]. pose proof (handle_solvation_files env w) as K.
      unfold one_more_file, radii_file in K. rewrite H1, H2 in K. exact K.
    + apply later_stages_logs; intros; intros w K; exact K.
    + split; reflexivity.
  - intros H.
    apply (stages_establish env
             (fun w => files w = [] /\ calc w = calc (configured c))
             (fun w => files w = [])).
    + intros w [K _]. exact K.
    + intros w [H1 H2]. split.
      * apply (handle_tasks_logs env (fun w => files w = [])); [|exact H1].
        apply files_update_self.
      * now apply (handle_tasks_keeps_request env).
    + intros w [H1 H2].
      destruct (handle_solvation_no_file env w) as [K _]; [now rewrite H2|].
      now rewrite K.
    + apply later_stages_logs; intros; intros w K; exact K.
    + split; reflexivity.
Qed.

Lemma X9_files_of_a_run_witness :
  files (snd (generate sample_env sample_request)) = [].
Proof.
  exact (proj2 (X9_files_of_a_run sample_env sample_request) (or_introl eq_refl)).
Defined.

Lemma len_zero (x : str_or_dict) : len x = 0 -> x = TheStr "" \/ x = TheDict [].
Proof.
  destruct x as [[|a s]|[|kv d]]; cbn; intros H; try discriminate; auto.
Qed.

Lemma parse_custom_basis_set_quiet env base w :
  len (custom_basis_sets (parameters (calc w))) = 0 ->
  warnings (snd (parse_custom_basis_set env base w)) = warnings w.
Proof.
  intros H. apply len_zero in H.
  set (I := fun w0 => warnings w0 = warnings w).
  assert (Hu : forall f, preserves I (update_self f)) by (intros f w0 K; exact K).
  unfold parse_custom_basis_set.
  rewrite (bind_step get_calc _ w (calc w) w) by reflexivity. cbv zeta.
  destruct (fold_left _ _ _) as [unique_atoms normal_atoms].
  destruct H as [-> | ->]; cbn [items].
  - reflexivity.
  - unfold bind at 1, lift. cbv beta iota. cbn [splice_elements].
    match goal with
    | |- warnings (snd (?m w)) = _ => assert (K : preserves I m)
    end.
    { unfold add_basis_set, read_basis_set, assign_basis_set. frame. }
    now apply K.
Qed.

Lemma handle_basis_sets_quiet env w :
  len (custom_basis_sets (parameters (calc w))) = 0 ->
  warnings (snd (handle_basis_sets env w)) = warnings w.
Proof.
  intros H. unfold handle_basis_sets.
  rewrite (bind_step get_calc _ w (calc w) w) by reflexivity. cbv zeta.
  unfold lift at 1.
  destruct (get_basis_set env _ _) as [b|e].
  - rewrite (bind_step _ _ w b w) by reflexivity.
    destruct (_ && _); [reflexivity|].
    destruct (ne_empty_str _); [|reflexivity].
    now apply parse_custom_basis_set_quiet.
  - now rewrite (bind_Raise _ _ w e w).
Qed.

Lemma stage_keeps_request env (c0 : Calculation) :
  preserves (fun w => calc w = c0) (handle_tasks env)
  /\ preserves (fun w => calc w = c0) (handle_solvation env)
  /\ preserves (fun w => calc w = c0) route_specifications
  /\ preserves (fun w => calc w = c0) handle_constraints
  /\ preserves (fun w => calc w = c0) (handle_xyz env)
  /\ preserves (fun w => calc w = c0) (handle_basis_sets env)
  /\ preserves (fun w => calc w = c0) close_blocks
  /\ preserves (fun w => calc w = c0) create_input_file.
Proof.
  pose proof (request_ignores_logs c0) as L.
  pose proof (update_self_keeps_request c0) as U.
  repeat split;
    first [ apply handle_tasks_frame | apply handle_solvation_frame
          | apply route_specifications_keeps_request
          | apply handle_constraints_frame | apply handle_xyz_frame
          | apply handle_basis_sets_frame | apply create_input_file_frame
          | intros w K; exact K ];
    auto; intros; apply U.
Qed.

Lemma preserves_both {A} (I J : World -> Prop) (m : M A) :
  preserves I m -> (forall w, I w -> J w -> J (snd (m w))) ->
  preserves (fun w => J w /\ I w) m.
Proof. intros H1 H2 w [HJ HI]. split; [now apply H2 | now apply H1]. Qed.

(** X10. A run with no custom solvation radii (or in vacuum) and with no
    custom basis sets emits no warning, whether it returns or raises. *)
Theorem X10_quiet_run (env : Collaborators) (c : Calculation) :
  custom_solvation_radii (parameters c) = ""
  \/ in_list (lower (solvent (parameters c))) [""; "vacuum"] = true ->
  len (custom_basis_sets (parameters c)) = 0 ->
  warnings (snd (generate env c)) = [].
Proof.
  intros Hr Hb. rewrite generate_store, init_unfold.
  destruct (KEYWORDS (calc_type c)); [|reflexivity].
  set (J := fun w => warnings w = []).
  assert (Hu : forall f, preserves J (update_self f))
    by (intros f w0 K; exact K).
  assert (Hp : forall s, preserves J (print s))
    by (intros f w0 K; exact K).
  destruct (stage_keeps_request env (calc (configured c)))
    as (R1 & R2 & R3 & R4 & R5 & R6 & R7 & R8).
  assert (K : preserves (fun w => J w /\ calc w = calc (configured c)) (stages env)).
  { unfold stages, handle_specifications, close_blocks.
    repeat (apply preserves_bind; [|intros _]);
      (apply preserves_both;
       [first [assumption | apply update_self_keeps_request]|]);
      intros w H2 H1.
    - now apply (handle_tasks_logs env J).
    - destruct (handle_solvation_no_file env w) as [_ K];
        [rewrite H2; exact Hr|].
      unfold J. now rewrite K.
    - now apply (route_specifications_logs J).
    - now apply (handle_constraints_logs J).
    - now apply (handle_xyz_logs env J).
    - unfold J. rewrite handle_basis_sets_quiet; [exact H1 | now rewrite H2].
    - exact H1.
    - exact H1.
    - exact H1.
    - now apply (create_input_file_logs J). }
  apply K. split; reflexivity.
Qed.

Lemma X10_quiet_run_witness : warnings (snd (generate sample_env sample_request)) = [].
Proof. apply X10_quiet_run; [left|]; reflexivity. Defined.

Lemma handle_solvation_logs env (I : World -> Prop) :
  (forall f, preserves I (update_self f)) ->
  (forall s, preserves I (warn s)) ->
  (forall f c, preserves I (write_file f c)) ->
  preserves I (handle_solvation env).
Proof.
  intros Hu Hw Hf. unfold handle_solvation, add_additional_block.
  frame. now apply parse_custom_solvation_radii_logs.
Qed.

Lemma route_specifications_prints (c : Calculation) (w : World) :
  printed w = [] -> calc w = calc (configured c) ->
  printed (snd (route_specifications w)) = printed_by c.
Proof.
  intros Hp Hc. rewrite route_specifications_run. cbn [snd printed].
  rewrite Hp, Hc.
  change (specifications (parameters (calc (configured c))))
    with (specifications (parameters c)).
  unfold printed_by.
  now destruct (negb (strip (clean (specifications (parameters c))) =? "")).
Qed.

(** X11. The router prints the normalized specification string, once,
    when the sanitized string is not blank, and nothing else is ever
    printed: the store of a run holds that one line or none, and a run that
    returns a document has printed exactly it. *)
Theorem X11_printed_specification (env : Collaborators) (c : Calculation) :
  (printed (snd (generate env c)) = []
   \/ printed (snd (generate env c)) = printed_by c)
  /\ (forall doc w, generate env c = (Ok doc, w) -> printed w = printed_by c).
Proof.
  set (I := fun w => printed w = [] /\ calc w = calc (configured c)).
  set (Q := fun w => printed w = printed_by c).
  assert (Hu : forall P f, preserves (fun w => printed w = P) (update_self f))
    by (intros P f w0 K; exact K).
  assert (Hw : forall P s, preserves (fun w => printed w = P) (warn s))
    by (intros P f w0 K; exact K).
  assert (Hf : forall P f x, preserves (fun w => printed w = P) (write_file f x))
    by (intros P f x w0 K; exact K).
  destruct (stage_keeps_request env (calc (configured c)))
    as (R1 & R2 & R3 & R4 & R5 & R6 & R7 & R8).
  assert (I1 : preserves I (handle_tasks env)).
  { apply preserves_both; [assumption|]. intros w _ H.
    now apply (handle_tasks_logs env (fun w => printed w = [])). }
  assert (I2 : preserves I (handle_solvation env)).
  { apply preserves_both; [assumption|]. intros w _ H.
    now apply (handle_solvation_logs env (fun w => printed w = [])). }
  assert (Q3 : establishes I Q route_specifications).
  { intros w [H1 H2]. now apply route_specifications_prints. }
  split.
  - rewrite generate_store, init_unfold.
    destruct (KEYWORDS (calc_type c)); [|now left].
    set (Q' := fun w => printed w = [] \/ Q w).
    assert (Hu' : forall f, preserves Q' (update_self f))
      by (intros f w0 K; exact K).
    assert (Hw' : forall s, preserves Q' (warn s))
      by (intros f w0 K; exact K).
    assert (K : establishes I Q' (stages env)).
    { assert (HIQ : forall w, I w -> Q' w) by (intros w [H _]; now left).
      unfold stages.
      apply establishes_bind; [exact HIQ | exact I1 | intros _].
      apply establishes_bind; [exact HIQ | exact I2 | intros _].
      apply establishes_then.
      - unfold handle_specifications. apply establishes_then.
        + intros w Hw0. right. now apply Q3.
        + intros _. apply handle_constraints_logs; assumption.
      - intros _. repeat (apply preserves_bind; [|intros _]);
          first [ apply handle_xyz_logs; assumption
                | apply handle_basis_sets_logs; assumption
                | apply create_input_file_logs; assumption | apply Hu' ]. }
    apply K. split; reflexivity.
  - intros doc w H.
    apply generate_Ok in H
      as (_ & w1 & w2 & w3 & w4 & w5 & E1 & E2 & E3 & E4 & E5 & E6 & _).
    assert (H2 : I w2).
    { eapply preserves_run; [exact I2 | exact E2 |].
      eapply preserves_run; [exact I1 | exact E1 |]. split; reflexivity. }
    apply handle_specifications_Ok in E3.
    assert (H3 : Q (snd (route_specifications w2))) by (now apply Q3).
    assert (H4 : Q w3).
    { eapply preserves_run; [|exact E3|exact H3].
      apply handle_constraints_logs. intros f w0 K; exact K. }
    assert (H5 : Q w5).
    { eapply preserves_run; [|exact E5|].
      - apply handle_basis_sets_logs; intros f w0 K; exact K.
      - eapply preserves_run; [|exact E4|exact H4].
        apply handle_xyz_logs; intros f w0 K; exact K. }
    refine (preserves_run Q _ _ _ _ _ E6 _).
    + apply create_input_file_logs; intros f w0 K; exact K.
    + exact H5.
Qed.

Lemma X11_printed_specification_witness :
  printed (snd (generate sample_env mep_request)) = ["neb(nbeads 10)" ++ nl ++ "string"].
Proof.
  assert (H : generate sample_env mep_request
              = (fst (generate sample_env mep_request),
                 snd (generate sample_env mep_request)))
    by (now destruct (generate sample_env mep_request)).
  vm_compute in H.
  match type of H with
  | _ = (Ok ?d, ?w) =>
      exact (proj2 (X11_printed_specification sample_env mep_request) d w eq_refl)
  end.
Defined.

(** ** After the Basis Set Resolver *)

Lemma assign_basis_set_assigns b w :
  basis_set_assigned (snd (assign_basis_set b w)).
Proof. eexists; reflexivity. Qed.

Lemma assign_keeps_assigned b : preserves basis_set_assigned (assign_basis_set b).
Proof. intros w _. apply assign_basis_set_assigns. Qed.

Lemma try_end_assigns (s fallback : string) w :
  fst (try_except (add_basis_set s) (assign_basis_set fallback) w) = Ok tt
  /\ basis_set_assigned
       (snd (try_except (add_basis_set s) (assign_basis_set fallback) w)).
Proof.
  unfold try_except, add_basis_set, read_basis_set, bind, get_self,
    assign_basis_set, update_self, ret, raise.
  destruct (self_basis_set (self w)); cbn; split; try reflexivity;
    eexists; reflexivity.
Qed.

Lemma parse_custom_basis_set_assigns env base w w' :
  parse_custom_basis_set env base w = (Ok tt, w') -> basis_set_assigned w'.
Proof.
  unfold parse_custom_basis_set.
  rewrite (bind_step get_calc _ w (calc w) w) by reflexivity. cbv zeta.
  destruct (fold_left _ _ _) as [unique_atoms normal_atoms].
  intros H.
  apply bind_Ok in H as (its & wa & _ & H).
  apply bind_Ok in H as (loc & wb & _ & H).
  apply bind_Ok in H as ([] & wc & _ & H).
  apply bind_Ok in H as ([] & wd & _ & H).
  apply bind_Ok in H as ([] & we & E & H).
  assert (He : basis_set_assigned we).
  { pose proof (try_end_assigns "end"
                  ("basis " ++ nl ++ " * library " ++ base ++ " " ++ nl ++ " end") wd)
      as [_ K].
    now rewrite E in K. }
  eapply preserves_run; [|exact H|exact He].
  pose proof assign_keeps_assigned.
  unfold add_basis_set, read_basis_set. frame.
Qed.

Lemma handle_basis_sets_assigns env w w' :
  handle_basis_sets env w = (Ok tt, w') -> basis_set_assigned w'.
Proof.
  unfold handle_basis_sets.
  rewrite (bind_step get_calc _ w (calc w) w) by reflexivity. cbv zeta.
  intros H. apply bind_Ok in H as (b & w1 & _ & H).
  destruct (_ && _).
  - inversion H. eexists; reflexivity.
  - destruct (ne_empty_str _); [|discriminate].
    now apply parse_custom_basis_set_assigns in H.
Qed.

Lemma create_input_file_returns w :
  basis_set_assigned w -> exists w', create_input_file w = (Ok tt, w').
Proof.
  intros [b Hb].
  unfold create_input_file, read_basis_set, bind, get_calc, get_self.
  rewrite Hb. eexists; reflexivity.
Qed.

Lemma closed_keeps_basis_set o :
  self_basis_set (closed o) = self_basis_set o.
Proof.
  unfold closed, close_additional_block, close_calculation_block, close_method_block.
  repeat match goal with
         | |- context [if ?b then _ else _] => destruct b
         end; reflexivity.
Qed.

(** X12. The Basis Set Resolver is the last stage that can fail: when
    [handle_basis_sets] returns, the attribute [basis_set] is assigned,
    whichever branch was taken, and [close_blocks] followed by
    [create_input_file] returns. *)
Theorem X12_no_failure_after_the_basis_stage
    (env : Collaborators) (w w5 : World) :
  handle_basis_sets env w = (Ok tt, w5) ->
  (exists b, self_basis_set (self w5) = Some b)
  /\ exists w', (close_blocks ;; create_input_file) w5 = (Ok tt, w').
Proof.
  intros H. apply handle_basis_sets_assigns in H. split; [exact H|].
  rewrite (bind_step _ _ _ _ _ (close_blocks_run w5)).
  apply create_input_file_returns.
  destruct H as [b Hb]. exists b. cbn [self]. now rewrite closed_keeps_basis_set.
Qed.

Lemma X12_no_failure_after_the_basis_stage_witness :
  exists w',
    (close_blocks ;; create_input_file)
      (snd (handle_basis_sets sample_env (start sample_request))) = (Ok tt, w').
Proof.
  exact (proj2 (X12_no_failure_after_the_basis_stage sample_env
                  (start sample_request)
                  (snd (handle_basis_sets sample_env (start sample_request)))
                  eq_refl)).
Defined.

(** ** Requests that generate *)

Lemma for_each_scans_returns (l : list Constraint) w :
  exists w',
    for_each l (fun k => when (scan k) (add_additional_block (to_nwchem k))) w
    = (Ok tt, w').
Proof.
  revert w; induction l as [|k l IH]; intros w; [eexists; reflexivity|].
  cbn [for_each]. unfold bind at 1.
  destruct (scan k); cbn [when]; apply IH.
Qed.

Lemma handle_constraints_returns w :
  (calc_type (calc w) = CONSTR_OPT -> constraints (calc w) <> []) ->
  exists w', handle_constraints w = (Ok tt, w').
Proof.
  intros H. unfold handle_constraints.
  rewrite (bind_step get_calc _ w (calc w) w) by reflexivity.
  destruct (calc_type (calc w)) eqn:Hk; cbn [CalcType_eqb when];
    try (eexists; reflexivity).
  specialize (H eq_refl).
  destruct (constraints (calc w)) as [|k ks] eqn:Hc; [congruence|].
  cbn [List.length Nat.eqb when].
  unfold bind at 1. unfold bind at 1. cbn [ret].
  match goal with
  | |- context [when ?b ?m] => destruct b; cbn [when]
  end; unfold add_additional_block at 1, update_self at 1; cbv beta iota;
    apply for_each_scans_returns.
Qed.

Lemma handle_solvation_vacuum env w :
  in_list (lower (solvent (parameters (calc w)))) [""; "vacuum"] = true ->
  handle_solvation env w = (Ok tt, w).
Proof.
  intros H. unfold handle_solvation.
  rewrite (bind_step get_calc _ w (calc w) w) by reflexivity. cbv zeta.
  now rewrite H.
Qed.

Lemma handle_xyz_returns env w t :
  clean_xyz env (xyz (calc w)) = Ok t -> exists w', handle_xyz env w = (Ok tt, w').
Proof.
  intros H. unfold handle_xyz.
  rewrite (bind_step get_calc _ w (calc w) w) by reflexivity.
  unfold lift. rewrite (bind_step _ _ w t w) by (now rewrite H).
  eexists; reflexivity.
Qed.

Lemma handle_basis_sets_plain env w b :
  get_basis_set env (basis_set (parameters (calc w))) "nwchem" = Ok b ->
  b <> "" -> len (custom_basis_sets (parameters (calc w))) = 0 ->
  handle_basis_sets env w
  = (Ok tt, store_basis_set ("basis " ++ nl ++ " * library " ++ b ++ " " ++ nl ++ " end") w).
Proof.
  intros Hb Hne Hl. unfold handle_basis_sets.
  rewrite (bind_step get_calc _ w (calc w) w) by reflexivity. cbv zeta.
  unfold lift. rewrite (bind_step _ _ w b w) by (now rewrite Hb).
  rewrite Hl. destruct (String.eqb_spec b ""); [contradiction|]. reflexivity.
Qed.

(** X13. Generation returns a document for every request in vacuum whose
    kind has task keywords, whose multiplicity has a name when the block is
    [scf], which has constraints when it is a constrained optimisation,
    whose geometry the cleaner accepts, whose basis-set name resolves to a
    non-empty keyword and which has no custom basis sets; the basis block
    is then the library block of that keyword. *)
Theorem X13_plain_request_generates (env : Collaborators) (c : Calculation) :
  KEYWORDS (calc_type c) <> None ->
  (nwchem_theory_level (parameters c) = "scf" ->
   SOFTWARE_MULTIPLICITY_nwchem env (multiplicity c) <> None) ->
  in_list (lower (solvent (parameters c))) [""; "vacuum"] = true ->
  (calc_type c = CONSTR_OPT -> constraints c <> []) ->
  (exists t, clean_xyz env (xyz c) = Ok t) ->
  (exists b, get_basis_set env (basis_set (parameters c)) "nwchem" = Ok b
             /\ b <> "") ->
  len (custom_basis_sets (parameters c)) = 0 ->
  exists doc w,
    generate env c = (Ok doc, w)
    /\ exists b,
         get_basis_set env (basis_set (parameters c)) "nwchem" = Ok b
         /\ self_basis_set (self w)
            = Some ("basis " ++ nl ++ " * library " ++ b ++ " " ++ nl ++ " end").
Proof.
  intros Hk Hm Hs Hc [t Ht] (b & Hb & Hne) Hl.
  destruct (stage_keeps_request env (calc (configured c)))
    as (R1 & R2 & R3 & R4 & R5 & R6 & R7 & R8).
  destruct (handle_tasks_returns env (configured c) Hk Hm) as [w1 E1].
  assert (C1 : calc w1 = calc (configured c))
    by (exact (preserves_run _ _ _ _ _ R1 E1 eq_refl)).
  assert (E2 : handle_solvation env w1 = (Ok tt, w1))
    by (apply handle_solvation_vacuum; now rewrite C1).
  pose proof (route_specifications_run w1) as E3.
  set (wr := mkWorld _ _ _ _ _) in E3.
  assert (Cr : calc wr = calc (configured c)) by exact C1.
  destruct (handle_constraints_returns wr) as [w3 E3']; [now rewrite Cr|].
  assert (C3 : calc w3 = calc (configured c))
    by (exact (preserves_run _ _ _ _ _ R4 E3' Cr)).
  destruct (handle_xyz_returns env w3 t) as [w4 E4]; [now rewrite C3|].
  assert (C4 : calc w4 = calc (configured c))
    by (exact (preserves_run _ _ _ _ _ R5 E4 C3)).
  pose proof (handle_basis_sets_plain env w4 b) as E5.
  rewrite C4 in E5. specialize (E5 Hb Hne Hl).
  set (w5 := store_basis_set _ w4) in E5.
  destruct (create_input_file_returns (snd (close_blocks w5))) as [w6 E6].
  { eexists. rewrite close_blocks_run. cbn [snd self].
    rewrite closed_keeps_basis_set. reflexivity. }
  exists (input_file (self w6)), w6. split.
  - unfold generate. rewrite init_unfold.
    destruct (KEYWORDS (calc_type c)); [|congruence].
    unfold stages, handle_specifications.
    rewrite (bind_step _ _ _ _ _ E1), (bind_step _ _ _ _ _ E2).
    rewrite (bind_step (route_specifications ;; handle_constraints) _ w1 tt w3)
      by (rewrite (bind_step _ _ _ _ _ E3); exact E3').
    rewrite (bind_step _ _ _ _ _ E4), (bind_step _ _ _ _ _ E5).
    rewrite (bind_step _ _ _ _ _ (close_blocks_run w5)).
    rewrite close_blocks_run in E6. cbn [snd] in E6. now rewrite E6.
  - exists b. split; [exact Hb|].
    apply create_input_file_Ok in E6 as (b' & _ & ->).
    cbn [self with_input_file self_basis_set].
    rewrite close_blocks_run. cbn [snd self].
    now rewrite closed_keeps_basis_set.
Qed.

Lemma X13_plain_request_generates_witness :
  exists doc w, generate sample_env sample_request = (Ok doc, w).
Proof.
  destruct (X13_plain_request_generates sample_env sample_request)
    as (doc & w & H & _).
  - discriminate.
  - discriminate.
  - reflexivity.
  - discriminate.
  - eexists; reflexivity.
  - exists "6-31g". split; [reflexivity | discriminate].
  - reflexivity.
  - exists doc, w. exact H.
Defined.

(** ** The geometry block *)

Lemma join_empty_cons (x : string) (l : list string) :
  join "" (x :: l) = x ++ join "" l.
Proof. destruct l; cbn [join]; [now rewrite append_nil_r | reflexivity]. Qed.

Lemma split_terminated_lines (l : list string) :
  Forall (fun x => chr_in "010" x = false) l ->
  split "010" (join "" (map (fun i => i ++ nl) l)) = (l ++ [""])%list.
Proof.
  induction 1 as [|x l Hx Hl IH]; [reflexivity|].
  cbn [map]. rewrite join_empty_cons, append_assoc.
  change (nl ++ join "" (map (fun i => i ++ nl) l))
    with (String "010" (join "" (map (fun i => i ++ nl) l))).
  rewrite split_app_sep by assumption. now rewrite IH.
Qed.

Lemma Forall_filter {A} (P : A -> Prop) (f : A -> bool) (l : list A) :
  Forall P l -> Forall P (filter f l).
Proof.
  induction 1 as [|x l Hx Hl IH]; cbn; [constructor|].
  destruct (f x); [constructor|]; assumption.
Qed.

(** X14. [handle_xyz] writes only the geometry block: its lines are the
    non-empty lines of the cleaned geometry, in order, each ended by a
    newline, so the block holds no blank line; when the cleaner raises, the
    error is passed on and the store is unchanged. *)
Theorem X14_geometry_block (env : Collaborators) (w : World) :
  match clean_xyz env (xyz (calc w)) with
  | Ok t =>
      exists g,
        handle_xyz env w
        = (Ok tt, mkWorld (calc w) (with_xyz_structure g (self w)) (warnings w)
                    (printed w) (files w))
        /\ split "010" g = (geometry_lines t ++ [""])%list
        /\ Forall (fun l => l <> "") (geometry_lines t)
  | Raise e => handle_xyz env w = (Raise e, w)
  end.
Proof.
  unfold handle_xyz.
  rewrite (bind_step get_calc _ w (calc w) w) by reflexivity.
  unfold lift. destruct (clean_xyz env (xyz (calc w))) as [t|e].
  - rewrite (bind_step _ _ w t w) by reflexivity.
    eexists. split; [reflexivity|]. split.
    + apply split_terminated_lines. apply Forall_filter, split_pieces.
    + apply Forall_forall. intros l Hl. apply filter_In in Hl as [_ Hl].
      intros ->. discriminate.
  - reflexivity.
Qed.

(** ** The atoms of the geometry *)

Lemma in_list_In (a : string) (l : list string) :
  in_list a l = true <-> In a l.
Proof.
  unfold in_list. rewrite existsb_exists. split.
  - intros (x & Hx & E). apply String.eqb_eq in E. now subst.
  - intros H. exists a. split; [exact H | apply String.eqb_refl].
Qed.

Lemma in_list_not_In (a : string) (l : list string) :
  in_list a l = false <-> ~ In a l.
Proof.
  rewrite <- in_list_In. destruct (in_list a l); split; congruence.
Qed.

Lemma NoDup_snoc {A} (l : list A) (a : A) :
  NoDup l -> ~ In a l -> NoDup (l ++ [a])%list.
Proof.
  intros Hl Ha. induction Hl as [|x l Hx Hl IH]; cbn.
  - constructor; [intros [] | constructor].
  - constructor.
    + rewrite in_app_iff. intros [H|[H|[]]]; [contradiction|].
      subst. apply Ha. now left.
    + apply IH. intros H. apply Ha. now right.
Qed.

Lemma scan_atoms_step cbs seen acc line :
  atoms_invariant cbs seen acc ->
  atoms_invariant cbs (seen ++ first_fields [line])%list (scan_atoms cbs acc line).
Proof.
  destruct acc as [u n]. unfold atoms_invariant, scan_atoms. cbn [fst snd first_fields].
  intros (Hu & Hn & Hnu & Hseen).
  destruct (strip line =? "").
  { cbn [fst snd]. rewrite app_nil_r. auto. }
  destruct (first_field line) as [a|].
  2:{ cbn [fst snd]. rewrite app_nil_r. auto. }
  destruct (in_list a u) eqn:Hau; cbn [negb].
  { cbn [fst snd]. apply in_list_In in Hau.
    split; [exact Hu|]. split; [exact Hn|]. split; [exact Hnu|].
    intros x. rewrite in_app_iff. split.
    - intros K. left. now apply Hseen.
    - intros [K|[<-|[]]]; [now apply Hseen | exact Hau]. }
  apply in_list_not_In in Hau.
  assert (Han : ~ In a n) by (intros H; apply Hnu in H as [H _]; contradiction).
  assert (Hseen' : forall x, In x (u ++ [a])%list <-> In x (seen ++ [a])%list).
  { intros x. rewrite !in_app_iff, Hseen. reflexivity. }
  destruct (in_list a n) eqn:Ean; [apply in_list_In in Ean; contradiction|].
  cbn [negb andb].
  destruct (member a cbs) eqn:Hm; cbn [negb fst snd].
  - split; [now apply NoDup_snoc|]. split; [exact Hn|]. split; [|exact Hseen'].
    intros x. rewrite in_app_iff, Hnu. split.
    + intros [H1 H2]. auto.
    + intros [[H1|[<-|[]]] H2]; [auto | congruence].
  - split; [now apply NoDup_snoc|]. split; [now apply NoDup_snoc|].
    split; [|exact Hseen'].
    intros x. rewrite !in_app_iff, Hnu. split.
    + intros [[H1 H2]|[<-|[]]]; auto. split; [right; now left | exact Hm].
    + intros [[H1|[<-|[]]] H2]; [left; auto | right; now left].
Qed.

Lemma first_fields_app (a b : list string) :
  first_fields (a ++ b)%list = (first_fields a ++ first_fields b)%list.
Proof.
  induction a as [|x a IH]; [reflexivity|]. cbn [app first_fields].
  destruct (strip x =? ""); [exact IH|].
  destruct (first_field x); [cbn; now rewrite IH | exact IH].
Qed.

Lemma scan_atoms_fold cbs lines :
  forall seen acc,
    atoms_invariant cbs (first_fields seen) acc ->
    atoms_invariant cbs (first_fields (seen ++ lines)%list)
      (fold_left (scan_atoms cbs) lines acc).
Proof.
  induction lines as [|line lines IH]; intros seen acc H; cbn [fold_left].
  - now rewrite app_nil_r.
  - replace (seen ++ line :: lines)%list with ((seen ++ [line]) ++ lines)%list
      by (now rewrite <- app_assoc).
    apply IH. rewrite first_fields_app. now apply scan_atoms_step.
Qed.

(** X15. The first loop of [parse_custom_basis_set] collects every atom
    once: [unique_atoms] has no duplicate and holds exactly the first fields
    of the non-blank lines of the geometry; [normal_atoms] has no duplicate
    and holds exactly the unique atoms without an override. *)
Theorem X15_atoms_of_the_geometry (c : Calculation) :
  NoDup (unique_atoms_of c) /\ NoDup (normal_atoms_of c)
  /\ (forall a, In a (unique_atoms_of c)
                <-> In a (first_fields (split "010" (xyz c))))
  /\ (forall a, In a (normal_atoms_of c)
                <-> In a (unique_atoms_of c)
                    /\ member a (custom_basis_sets (parameters c)) = false).
Proof.
  pose proof (scan_atoms_fold (custom_basis_sets (parameters c))
                (split "010" (xyz c)) [] ([], [])) as H.
  unfold unique_atoms_of, normal_atoms_of.
  destruct H as (H1 & H2 & H3 & H4).
  - unfold atoms_invariant. cbn. repeat split; try constructor; try tauto.
  - cbn [app] in H4. auto.
Qed.

(** ** Overrides for atoms the geometry does not hold *)

Lemma splice_elements_absent env unique_atoms loc (d : dict) w :
  (forall el kw, In (el, kw) d -> in_list el unique_atoms = false) ->
  splice_elements env unique_atoms loc d w = (Ok loc, w).
Proof.
  induction d as [|[el kw] d IH]; intros H; [reflexivity|].
  cbn [splice_elements].
  assert (E : splice_element env unique_atoms loc (el, kw) w = (Ok loc, w)).
  { unfold splice_element. rewrite (H el kw) by now left. reflexivity. }
  rewrite (bind_step _ _ _ _ _ E). apply IH.
  intros el' kw' Hin. apply (H el' kw'). now right.
Qed.

(** X16. Overrides for atoms the geometry does not hold are ignored, even
    when they name no element: with a map of overrides none of which is for
    an atom of the geometry (and a non-empty map, or an empty base
    keyword), the Basis Set Resolver returns, emits no warning and writes
    the library block of the base keyword for all atoms. *)
Theorem X16_overrides_for_absent_atoms
    (env : Collaborators) (w : World) (d : dict) (base : string) :
  custom_basis_sets (parameters (calc w)) = TheDict d ->
  get_basis_set env (basis_set (parameters (calc w))) "nwchem" = Ok base ->
  base = "" \/ d <> [] ->
  (forall el kw, In (el, kw) d -> in_list el (unique_atoms_of (calc w)) = false) ->
  self_basis_set (self w) = None ->
  handle_basis_sets env w
  = (Ok tt,
     store_basis_set ("basis " ++ nl ++ " * library " ++ base ++ " " ++ nl ++ " end") w).
Proof.
  intros Hd Hb Hne Habs Hnone. unfold handle_basis_sets.
  rewrite (bind_step get_calc _ w (calc w) w) by reflexivity. cbv zeta.
  unfold lift at 1. rewrite (bind_step _ _ w base w) by (now rewrite Hb).
  rewrite Hd.
  assert (Hplain : negb (base =? "") && (len (TheDict d) =? 0)%nat = false).
  { destruct Hne as [-> | Hne]; [reflexivity|].
    destruct d; [congruence|]. cbn. apply andb_false_r. }
  rewrite Hplain. cbn [ne_empty_str].
  unfold parse_custom_basis_set.
  rewrite (bind_step get_calc _ w (calc w) w) by reflexivity. cbv zeta.
  unfold unique_atoms_of in Habs. rewrite Hd in *.
  destruct (fold_left _ _ _) as [unique_atoms normal_atoms]. cbn [fst] in Habs.
  cbn [items]. unfold lift at 1.
  rewrite (bind_step _ _ w d w) by reflexivity.
  rewrite (bind_step _ _ _ _ _
             (splice_elements_absent env unique_atoms _ d w Habs)).
  cbn [custom_atoms not_recoginzed_bs to_append_ecp List.length Nat.ltb Nat.leb when].
  unfold bind, ret, try_except, add_basis_set, read_basis_set, get_self, bind.
  rewrite Hnone. reflexivity.
Qed.

Lemma X16_overrides_for_absent_atoms_witness :
  handle_basis_sets sample_env (start absent_override_request)
  = (Ok tt,
     store_basis_set ("basis " ++ nl ++ " * library 6-31g " ++ nl ++ " end")
       (start absent_override_request)).
Proof.
  apply (X16_overrides_for_absent_atoms sample_env
           (start absent_override_request) [("Xx", "sdd")] "6-31g");
    try reflexivity.
  - right. discriminate.
  - intros el kw [H|[]]. inversion H. reflexivity.
Defined.

(** ** Text within one line survives the stripping of the lines *)

Lemma startswith_line (p s : string) :
  chr_in "010" p = false -> startswith p s = true ->
  exists h t, split "010" s = (h :: t)%list /\ startswith p h = true.
Proof.
  revert s; induction p as [|a p IH]; intros s Hp H.
  - destruct (split_cons "010" s) as (h & t & E). exists h, t. split; auto.
  - destruct s as [|b s]; cbn in H; [discriminate|].
    apply andb_true_iff in H as [H1 H2]. apply Ascii.eqb_eq in H1; subst b.
    rewrite chr_in_cons in Hp. apply orb_false_iff in Hp as [Ha Hp].
    destruct (IH s Hp H2) as (h & t & E & F).
    cbn [split]. rewrite Ascii.eqb_sym, Ha.
    rewrite E. exists (String a h), t. split; [reflexivity|].
    cbn. now rewrite Ascii.eqb_refl.
Qed.

Lemma contains_line (p s : string) :
  p <> "" -> chr_in "010" p = false -> contains p s = true ->
  exists l, In l (split "010" s) /\ contains p l = true.
Proof.
  intros Hne Hp. induction s as [|c s IH]; intros H.
  - now rewrite contains_nil_r in H.
  - cbn [contains] in H. apply orb_true_iff in H as [H|H].
    + destruct (startswith_line _ _ Hp H) as (h & t & E & F).
      exists h. rewrite E. split; [now left | now apply contains_startswith].
    + destruct (IH H) as (l & Hin & Hl).
      cbn [split]. destruct (Ascii.eqb c "010"); [exists l; split; [now right | assumption]|].
      destruct (split_cons "010" s) as (h & t & E). rewrite E in *.
      destruct Hin as [<-|Hin].
      * exists (String c h). split; [now left | now apply contains_cons].
      * exists l. split; [now right | assumption].
Qed.

Lemma contains_lstrip_head (a : ascii) (p s : string) :
  isspace a = false -> contains (String a p) s = true ->
  contains (String a p) (lstrip s) = true.
Proof.
  intros Ha. induction s as [|c s IH]; intros H; [assumption|].
  cbn [lstrip]. destruct (isspace c) eqn:Hc; [|assumption].
  apply IH. cbn [contains] in H. apply orb_true_iff in H as [H|H]; [|assumption].
  cbn in H. apply andb_true_iff in H as [H _]. apply Ascii.eqb_eq in H; subst a.
  congruence.
Qed.

Lemma rstrip_fixed_tail (a : ascii) (p : string) :
  p <> "" -> rstrip (String a p) = String a p -> rstrip p = p.
Proof.
  intros Hne H. cbn [rstrip] in H. destruct (rstrip p) as [|r rs] eqn:E.
  - destruct (isspace a); [discriminate|]. inversion H. congruence.
  - now inversion H.
Qed.

Lemma startswith_rstrip_fixed (p s : string) :
  p <> "" -> rstrip p = p -> startswith p s = true ->
  startswith p (rstrip s) = true.
Proof.
  revert s; induction p as [|a p IH]; intros s Hne Hp H; [congruence|].
  destruct s as [|b s]; cbn in H; [discriminate|].
  apply andb_true_iff in H as [H1 H2]. apply Ascii.eqb_eq in H1; subst b.
  destruct p as [|a' p'].
  - cbn [rstrip] in Hp. destruct (isspace a) eqn:Ha; [discriminate|].
    cbn [rstrip]. destruct (rstrip s); rewrite ?Ha; cbn; now rewrite Ascii.eqb_refl.
  - assert (Hp' : rstrip (String a' p') = String a' p')
      by (apply (rstrip_fixed_tail a); [discriminate | exact Hp]).
    specialize (IH s ltac:(discriminate) Hp' H2).
    rewrite rstrip_cons.
    + cbn [startswith]. now rewrite Ascii.eqb_refl.
    + intros E. rewrite E in IH. discriminate.
Qed.

Lemma contains_rstrip_fixed (p s : string) :
  p <> "" -> rstrip p = p -> contains p s = true ->
  contains p (rstrip s) = true.
Proof.
  intros Hne Hp. induction s as [|c s IH]; intros H; [assumption|].
  cbn [contains] in H. apply orb_true_iff in H as [H|H].
  - now apply contains_startswith, startswith_rstrip_fixed.
  - specialize (IH H). rewrite rstrip_cons.
    + now apply contains_cons.
    + intros E. rewrite E, contains_nil_r in IH by assumption. discriminate.
Qed.

Lemma contains_strip_lines_solid (p raw : string) :
  solid p -> contains p raw = true -> contains p (strip_lines raw) = true.
Proof.
  intros (Hn & Hl & Hr & Hne) H. unfold strip_lines.
  destruct (contains_line p raw Hne Hn H) as (l & Hin & Hc).
  apply contains_join with (x := strip l); [now apply in_map|].
  unfold strip. apply contains_rstrip_fixed; [assumption..|].
  destruct p as [|a p]; [congruence|].
  apply contains_lstrip_head; [|exact Hc].
  cbn [lstrip] in Hl. destruct (isspace a); [|reflexivity].
  exfalso.
  assert (L : String.length (lstrip p) <= String.length p).
  { clear. induction p as [|x p IH]; cbn; [lia|]. destruct (isspace x); cbn; lia. }
  rewrite Hl in L. cbn in L. lia.
Qed.

Lemma rstrip_app (x y : string) :
  rstrip y <> "" -> rstrip (x ++ y) = x ++ rstrip y.
Proof.
  intros H. induction x as [|c x IH]; [reflexivity|].
  change (String c x ++ y) with (String c (x ++ y)).
  rewrite rstrip_cons; rewrite IH; [reflexivity|].
  destruct x; cbn; [exact H | discriminate].
Qed.

Lemma contains_template_tasks (p header name mem charge xyz_structure basis_set
    method_block calculation_block additional_block tasks : string) :
  contains p tasks = true ->
  contains p (TEMPLATE_format header name mem charge xyz_structure basis_set
                method_block calculation_block additional_block tasks) = true.
Proof.
  intros H. unfold TEMPLATE_format.
  repeat first [ apply contains_app_l; exact H | apply contains_app_r ].
Qed.

Lemma contains_template_method (p header name mem charge xyz_structure basis_set
    method_block calculation_block additional_block tasks : string) :
  contains p method_block = true ->
  contains p (TEMPLATE_format header name mem charge xyz_structure basis_set
                method_block calculation_block additional_block tasks) = true.
Proof.
  intros H. unfold TEMPLATE_format.
  repeat first [ apply contains_app_l; exact H | apply contains_app_r ].
Qed.

(** ** The task directives *)

Lemma contains_refl (p : string) : contains p p = true.
Proof.
  apply contains_startswith. rewrite <- (append_nil_r p) at 2. apply startswith_app.
Qed.

Lemma contains_prefix (p q s : string) :
  contains (p ++ q) s = true -> contains p s = true.
Proof.
  induction s as [|c s IH]; cbn [contains].
  - destruct p; [reflexivity|]. cbn. discriminate.
  - intros H. apply orb_true_iff in H as [H|H]; apply orb_true_iff.
    + left. revert H. generalize (String c s). clear.
      induction p as [|a p IH]; intros s H; [apply startswith_nil|].
      destruct s as [|b s]; cbn in *; [discriminate|].
      apply andb_true_iff in H as [H1 H2]. rewrite H1. now apply IH.
    + right. now apply IH.
Qed.

Lemma task_loop_run (words : list string) :
  forall w,
    exists t,
      for_each words (fun word =>
        c <- get_calc ;;
        let keyword :=
          if theory_level (parameters c) =? "ccsd"
          then method (parameters c) else theory_level (parameters c) in
        add_tasks ("task " ++ keyword ++ " " ++ word ++ " " ++ nl)) w
      = (Ok tt, mkWorld (calc w) (with_tasks t (self w)) (warnings w)
                  (printed w) (files w))
      /\ (contains (tasks (self w)) t = true)
      /\ (forall p, contains p (tasks (self w)) = true -> contains p t = true)
      /\ forall word, In word words ->
           contains (task_line (parameters (calc w)) word) t = true.
Proof.
  induction words as [|x words IH]; intros w.
  - exists (tasks (self w)). split; [now destruct w as [c [] ws ps fs]|].
    split; [apply contains_refl|]. split; [auto | intros ? []].
  - match goal with
    | |- context [for_each _ ?f _] => set (body := f) in *
    end.
    set (w1 := mkWorld (calc w)
                 (with_tasks (tasks (self w) ++ task_line (parameters (calc w)) x)
                    (self w)) (warnings w) (printed w) (files w)).
    destruct (IH w1) as (t & E & Hself & Hkeep & Hall).
    exists t. split; [|split; [|split]].
    + change (for_each (x :: words) body w) with (for_each words body w1).
      rewrite E. destruct w as [c [] ws ps fs]; reflexivity.
    + apply Hkeep. cbn. apply contains_app_l, contains_refl.
    + intros p Hp. apply Hkeep. cbn. now apply contains_app_l.
    + intros word [<-|Hin]; [|now apply Hall].
      apply Hkeep. cbn. apply contains_app_r, contains_refl.
Qed.

Lemma handle_tasks_directives env w w1 words word :
  handle_tasks env w = (Ok tt, w1) ->
  KEYWORDS (calc_type (calc w)) = Some words -> In word words ->
  contains (task_line (parameters (calc w)) word) (tasks (self w1)) = true.
Proof.
  intros H Hk Hin. unfold handle_tasks in H.
  rewrite (bind_step get_calc _ w (calc w) w) in H by reflexivity.
  rewrite Hk in H. cbn [subscript] in H.
  rewrite (bind_step (ret words) _ w words w) in H by reflexivity.
  destruct (task_loop_run words w) as (t & E & _ & _ & Hall).
  rewrite (bind_step _ _ _ _ _ E) in H.
  set (p := task_line (parameters (calc w)) word) in *.
  refine (preserves_run (fun w0 => contains p (tasks (self w0)) = true)
            _ _ _ _ _ H _).
  - assert (Hm : forall s, preserves (fun w0 => contains p (tasks (self w0)) = true)
                              (add_method_block s)) by (intros s w0 K; exact K).
    assert (Hc : forall s, preserves (fun w0 => contains p (tasks (self w0)) = true)
                              (add_calculation_block s)) by (intros s w0 K; exact K).
    frame.
  - cbn. now apply Hall.
Qed.

Lemma route_tasks_unchanged c o temp spec :
  in_list spec string_synonyms = false ->
  tasks (fst (route c (o, temp) spec)) = tasks o.
Proof.
  intros H. unfold route.
  destruct (re_search_block spec) as [[start command]|]; cbv zeta;
    rewrite ?H; route_cases; reflexivity.
Qed.

Lemma fold_route_tasks_unchanged c tokens o temp :
  (forall tok, In tok tokens -> in_list tok string_synonyms = false) ->
  tasks (fst (fold_left (route c) tokens (o, temp))) = tasks o.
Proof.
  revert o temp; induction tokens as [|tok tokens IH]; intros o temp H;
    [reflexivity|].
  cbn [fold_left].
  destruct (route c (o, temp) tok) as [o1 temp1] eqn:E.
  rewrite IH by (intros; apply H; now right).
  change o1 with (fst (o1, temp1)). rewrite <- E.
  apply route_tasks_unchanged, H. now left.
Qed.

Lemma routed_tasks_unchanged c o :
  (forall tok, In tok (tokens_of (specifications (parameters c))) ->
               in_list tok string_synonyms = false) ->
  tasks (routed c o) = tasks o.
Proof.
  intros H. rewrite routed_tasks. unfold tokens_of in H.
  destruct (negb (strip (clean (specifications (parameters c))) =? ""));
    [|reflexivity].
  now apply fold_route_tasks_unchanged.
Qed.

Lemma keyword_words (t : CalcType) (words : list string) (word : string) :
  KEYWORDS t = Some words -> In word words ->
  chr_in "010" word = false /\ rstrip word = word /\ word <> "".
Proof.
  destruct t; cbn; intros H; inversion H; subst; cbn;
    intros Hin;
    repeat match goal with
           | K : _ \/ _ |- _ => destruct K as [K|K]
           | K : False |- _ => contradiction
           end; subst; (split; [reflexivity | split; [reflexivity | discriminate]]).
Qed.

Lemma closed_keeps_tasks o : tasks (closed o) = tasks o.
Proof.
  unfold closed, close_additional_block, close_calculation_block, close_method_block.
  repeat match goal with
         | |- context [if ?b then _ else _] => destruct b
         end; reflexivity.
Qed.

(** X17. A generated document holds one task directive for each task
    keyword of the calculation kind, [task <keyword> <word>], the keyword
    being the method for coupled cluster and the normalised theory level
    otherwise, provided the specification string holds no bare
    reaction-path synonym (which rewrites the directives) and the keyword
    has no newline. *)
Theorem X17_task_directives
    (env : Collaborators) (c : Calculation) (doc : string) (w : World)
    (words : list string) (word : string) :
  generate env c = (Ok doc, w) ->
  KEYWORDS (calc_type c) = Some words -> In word words ->
  (forall tok, In tok (tokens_of (specifications (parameters c))) ->
               in_list tok string_synonyms = false) ->
  chr_in "010" (task_keyword (parameters (calc (configured c)))) = false ->
  contains ("task " ++ task_keyword (parameters (calc (configured c)))
              ++ " " ++ word) doc = true.
Proof.
  intros H Hk Hin Hsyn Hkw.
  set (kw := task_keyword (parameters (calc (configured c)))) in *.
  set (p := "task " ++ kw ++ " " ++ word).
  destruct (keyword_words _ _ _ Hk Hin) as (W1 & W2 & W3).
  assert (Hsolid : solid p).
  { unfold solid, p. split; [|split; [reflexivity|split; [|discriminate]]].
    - rewrite !chr_in_app, Hkw, W1. reflexivity.
    - replace ("task " ++ kw ++ " " ++ word) with (("task " ++ kw ++ " ") ++ word)
        by (now rewrite !append_assoc).
      rewrite rstrip_app; rewrite W2; [reflexivity | exact W3]. }
  destruct (generate_document env c doc w H) as (b & _ & ->).
  apply generate_Ok in H
    as (_ & w1 & w2 & w3 & w4 & w5 & E1 & E2 & E3 & E4 & E5 & E6 & _).
  apply contains_strip_lines_solid; [exact Hsolid|].
  apply contains_template_tasks.
  set (T := fun w0 : World => contains p (tasks (self w0)) = true).
  assert (Tlogs : ignores_logs T).
  { unfold ignores_logs, preserves; repeat split; intros;
      match goal with K : T _ |- _ => exact K end. }
  assert (T1 : T w1).
  { unfold T. apply contains_prefix with (q := " " ++ nl).
    replace (p ++ " " ++ nl) with (task_line (parameters (calc (configured c))) word)
      by (unfold task_line, p; fold kw; now rewrite !append_assoc).
    apply (handle_tasks_directives env (configured c) w1 words word E1); assumption. }
  assert (C1 : calc w1 = calc (configured c)).
  { exact (preserves_run _ _ _ _ _ (handle_tasks_keeps_request env _) E1 eq_refl). }
  assert (C2 : calc w2 = calc (configured c)).
  { exact (preserves_run _ _ _ _ _ (handle_solvation_keeps_request env _) E2 C1). }
  assert (T2 : T w2).
  { eapply preserves_run; [|exact E2|exact T1].
    apply handle_solvation_frame; auto; intros ? ? K; exact K. }
  apply handle_specifications_Ok in E3.
  apply (after_routing env T Tlogs) with (wr := snd (route_specifications w2))
    (w3 := w3) (w4 := w4) (w5 := w5); auto; try (intros ? ? K; exact K).
  - intros w0 K. rewrite close_blocks_run. unfold T in *. cbn [snd self].
    now rewrite closed_keeps_tasks.
  - rewrite route_specifications_run. unfold T in *. cbn [snd self].
    rewrite routed_tasks_unchanged; [exact T2|].
    rewrite C2. exact Hsyn.
Qed.

Lemma X17_task_directives_witness :
  exists doc w,
    generate sample_env sample_request = (Ok doc, w)
    /\ contains "task dft energy" doc = true.
Proof.
  eexists; eexists.
  assert (H : generate sample_env sample_request
              = (fst (generate sample_env sample_request),
                 snd (generate sample_env sample_request)))
    by (now destruct (generate sample_env sample_request)).
  vm_compute in H.
  split; [vm_compute; reflexivity|].
  match type of H with
  | _ = (Ok ?d, ?w) =>
      refine (X17_task_directives sample_env sample_request d w ["energy"] "energy"
                eq_refl eq_refl (or_introl eq_refl) _ eq_refl)
  end.
  intros tok [].
Defined.

(** ** The dispersion correction *)

Lemma handle_tasks_dft env w w1 :
  theory_level (parameters (calc w)) = "dft" ->
  handle_tasks env w = (Ok tt, w1) ->
  method_block (self w1)
  = method_block (self w) ++ dft_block (calc w) ++ dispersion (parameters (calc w)).
Proof.
  intros Ht H.
  destruct w as [c o ws ps fs]. destruct c as [p k hd nm m ch mu x cs].
  destruct p as [sw th me bs cb so sm sr csr sp d3_ d3bj_].
  cbn in Ht. subst th. unfold handle_tasks in H. unfold dispersion.
  cbn [calc self parameters d3 d3bj].
  destruct k, d3_, d3bj_; cbn in H; inversion H; cbn [self method_block with_method_block
    with_tasks with_calculation_block];
    rewrite ?append_nil_r, ?append_assoc; reflexivity.
Qed.

Lemma route_method_block_grows c o temp spec :
  exists s, method_block (fst (route c (o, temp) spec)) = method_block o ++ s.
Proof.
  unfold route. destruct (re_search_block spec) as [[start command]|]; cbv zeta;
    route_cases; cbn [fst method_block with_method_block with_tasks
                      with_calculation_block with_additional_block];
    first [ eexists; reflexivity | exists ""; now rewrite append_nil_r ].
Qed.

Lemma fold_route_method_block_grows c tokens :
  forall o temp,
    exists s,
      method_block (fst (fold_left (route c) tokens (o, temp))) = method_block o ++ s.
Proof.
  induction tokens as [|tok tokens IH]; intros o temp.
  - exists "". cbn. now rewrite append_nil_r.
  - cbn [fold_left].
    destruct (route_method_block_grows c o temp tok) as [s1 E1].
    destruct (route c (o, temp) tok) as [o1 temp1]. cbn [fst] in E1.
    destruct (IH o1 temp1) as [s2 E2]. exists (s1 ++ s2).
    now rewrite E2, E1, append_assoc.
Qed.

Lemma routed_method_block_grows c o :
  in_list (theory_level (parameters c)) ["mp2"; "ccsd"] = false ->
  exists s, method_block (routed c o) = method_block o ++ s.
Proof.
  intros Ht. unfold in_list in Ht. cbn [existsb] in Ht.
  apply orb_false_iff in Ht as [H1 Ht]. apply orb_false_iff in Ht as [H2 _].
  unfold routed. cbv zeta. rewrite H1, H2. cbn [andb].
  match goal with
  | |- context [if negb ?g then ?a else o] =>
      assert (K : exists s, method_block (if negb g then a else o)
                            = method_block o ++ s);
      [|set (o1 := if negb g then a else o) in *]
  end.
  { destruct (negb _).
    - destruct (fold_route_method_block_grows c
                  (split "010" (separate_lines (specifications (parameters c)))) o nl)
        as [s E].
      destruct (fold_left _ _ _) as [o' temp]. cbn [fst] in E.
      exists s. destruct (negb (temp =? nl)); exact E.
    - exists "". now rewrite append_nil_r. }
  destruct K as [s E]. exists s. clearbody o1.
  destruct (contains "string" (tasks o1)); exact E.
Qed.

Lemma closed_method_block_grows o :
  exists s, method_block (closed o) = method_block o ++ s.
Proof.
  rewrite (proj1 (closed_fields o)). unfold close_method_block.
  destruct (_ && _); [eexists; reflexivity | exists ""; now rewrite append_nil_r].
Qed.

(** What the Task/Keyword Deriver appends to the method block for density-
    functional theory stays in it, and so reaches the document. *)
Lemma dft_text_in_document env c doc w p :
  generate env c = (Ok doc, w) ->
  nwchem_theory_level (parameters c) = "dft" ->
  solid p ->
  contains p (dft_block (calc (configured c)) ++ dispersion (parameters c)) = true ->
  contains p doc = true.
Proof.
  intros H Ht Hsolid Hp.
  destruct (generate_document env c doc w H) as (b & _ & ->).
  apply generate_Ok in H
    as (_ & w1 & w2 & w3 & w4 & w5 & E1 & E2 & E3 & E4 & E5 & E6 & _).
  apply contains_strip_lines_solid; [exact Hsolid|].
  apply contains_template_method.
  set (T := fun w0 : World => contains p (method_block (self w0)) = true).
  assert (Tlogs : ignores_logs T).
  { unfold ignores_logs, preserves; repeat split; intros;
      match goal with K : T _ |- _ => exact K end. }
  assert (T1 : T w1).
  { unfold T. rewrite (handle_tasks_dft env (configured c) w1 Ht E1).
    apply contains_app_r. exact Hp. }
  assert (C1 : calc w1 = calc (configured c)).
  { exact (preserves_run _ _ _ _ _ (handle_tasks_keeps_request env _) E1 eq_refl). }
  assert (C2 : calc w2 = calc (configured c)).
  { exact (preserves_run _ _ _ _ _ (handle_solvation_keeps_request env _) E2 C1). }
  assert (T2 : T w2).
  { eapply preserves_run; [|exact E2|exact T1].
    apply handle_solvation_frame; auto; intros ? ? K; exact K. }
  apply handle_specifications_Ok in E3.
  apply (after_routing env T Tlogs) with (wr := snd (route_specifications w2))
    (w3 := w3) (w4 := w4) (w5 := w5); auto; try (intros ? ? K; exact K).
  - intros w0 K. rewrite close_blocks_run. unfold T in *. cbn [snd self].
    destruct (closed_method_block_grows (self w0)) as [s ->].
    now apply contains_app_l.
  - rewrite route_specifications_run. unfold T in *. cbn [snd self].
    destruct (routed_method_block_grows (calc w2) (self w2)) as [s ->].
    + rewrite C2. cbn. rewrite Ht. reflexivity.
    + now apply contains_app_l.
Qed.

(** X18. For density-functional theory the document of a request with
    the flag [d3] holds the directive [disp vdw 3], and that of a request
    with [d3bj] and without [d3] holds [disp vdw 4]: text the specification
    router appends to the method block and the closing marker leave the
    directive in place. *)
Theorem X18_dispersion_directive
    (env : Collaborators) (c : Calculation) (doc : string) (w : World) :
  generate env c = (Ok doc, w) ->
  nwchem_theory_level (parameters c) = "dft" ->
  (d3 (parameters c) = true -> contains "disp vdw 3" doc = true)
  /\ (d3 (parameters c) = false -> d3bj (parameters c) = true ->
      contains "disp vdw 4" doc = true).
Proof.
  intros H Ht. split.
  - intros Hd. apply (dft_text_in_document env c doc w _ H Ht).
    + repeat split; discriminate.
    + apply contains_app_r. unfold dispersion. rewrite Hd. reflexivity.
  - intros Hd Hbj. apply (dft_text_in_document env c doc w _ H Ht).
    + repeat split; discriminate.
    + apply contains_app_r. unfold dispersion. rewrite Hd, Hbj. reflexivity.
Qed.

Lemma X18_dispersion_directive_witness :
  exists doc w,
    generate sample_env d3_request = (Ok doc, w)
    /\ contains "disp vdw 3" doc = true.
Proof.
  eexists; eexists.
  assert (H : generate sample_env d3_request
              = (fst (generate sample_env d3_request),
                 snd (generate sample_env d3_request)))
    by (now destruct (generate sample_env d3_request)).
  vm_compute in H.
  split; [vm_compute; reflexivity|].
  match type of H with
  | _ = (Ok ?d, ?w) =>
      exact (proj1 (X18_dispersion_directive sample_env d3_request d w
                      eq_refl eq_refl) eq_refl)
  end.
Defined.

(** ** The custom solvation radii *)

Lemma parse_custom_solvation_radii_unfold env w :
  parse_custom_solvation_radii env w
  = for_each (split ";" (custom_solvation_radii (parameters (calc w))))
      (parse_radius env) w.
Proof. reflexivity. Qed.

Lemma dict_get_set_keeps k k' v d :
  dict_get k d <> None -> dict_get k (dict_set k' v d) <> None.
Proof.
  intros H. destruct (String.eqb_spec k k') as [->|Hne].
  - rewrite dict_get_set_same. discriminate.
  - now rewrite dict_get_set_other.
Qed.

Lemma parse_radius_cases env seg w :
  (strip seg = "" /\ parse_radius env seg w = (Ok tt, w))
  \/ (strip seg <> "" /\ exists E r,
        radius_ok env seg E r
        /\ parse_radius env seg w
           = (Ok tt, mkWorld (calc w)
                       (with_solvation_radii
                          (dict_set E r (self_solvation_radii (self w))) (self w))
                       (warnings w) (printed w) (files w)))
  \/ (strip seg <> "" /\ (forall E r, ~ radius_ok env seg E r)
      /\ parse_radius env seg w = (Raise InvalidParameter, w)).
Proof.
  unfold parse_radius, radius_ok.
  destruct (String.eqb_spec (strip seg) "") as [E0|E0]; [left; auto|].
  right.
  destruct (split "=" seg) as [|element [|rad [|x l]]] eqn:Es;
    try (right; split; [exact E0|]; split; [|reflexivity];
         intros E r (el & rd & K & _); discriminate).
  destruct (LOWERCASE_ATOMIC_SYMBOLS env element) as [E|] eqn:El.
  - destruct (float_str env rad) as [r|] eqn:Er.
    + left. split; [exact E0|]. exists E, r. split; [|reflexivity].
      exists element, rad. auto.
    + right. split; [exact E0|]. split; [|reflexivity].
      intros E' r' (el & rd & K & K1 & K2). inversion K; subst. congruence.
  - right. split; [exact E0|]. split; [|reflexivity].
    intros E' r' (el & rd & K & K1 & K2). inversion K; subst. congruence.
Qed.

Lemma parse_radii_loop env (segs : list string) :
  forall w r w',
    for_each segs (parse_radius env) w = (r, w') ->
    (r = Ok tt \/ r = Raise InvalidParameter)
    /\ calc w' = calc w /\ warnings w' = warnings w /\ printed w' = printed w
    /\ files w' = files w
    /\ (forall k, dict_get k (self_solvation_radii (self w)) <> None ->
                  dict_get k (self_solvation_radii (self w')) <> None)
    /\ (r = Ok tt ->
        forall seg, In seg segs -> strip seg <> "" ->
          exists E rad,
            radius_ok env seg E rad
            /\ dict_get E (self_solvation_radii (self w')) <> None)
    /\ (r = Raise InvalidParameter ->
        exists seg, In seg segs /\ strip seg <> ""
                    /\ forall E rad, ~ radius_ok env seg E rad).
Proof.
  induction segs as [|seg segs IH]; intros w r w' H.
  - inversion H; subst. repeat split; auto; try discriminate.
    intros _ seg [].
  - cbn [for_each] in H. unfold bind in H.
    destruct (parse_radius_cases env seg w)
      as [[Hb E]|[(Hn & El & rd & Hok & E)|(Hn & Hbad & E)]]; rewrite E in H.
    + destruct (IH _ _ _ H) as (A1 & A2 & A3 & A4 & A5 & A6 & A7 & A8).
      repeat split; auto.
      * intros Hr s [<-|Hin] Hs; [contradiction | now apply A7].
      * intros Hr. destruct (A8 Hr) as (s & Hin & Hs). exists s. split; [now right | exact Hs].
    + destruct (IH _ _ _ H) as (A1 & A2 & A3 & A4 & A5 & A6 & A7 & A8).
      cbn [calc warnings printed files self self_solvation_radii
           with_solvation_radii] in *.
      repeat split; auto.
      * intros k Hk. apply A6. now apply dict_get_set_keeps.
      * intros Hr s [<-|Hin] Hs; [|now apply A7].
        exists El, rd. split; [exact Hok|]. apply A6.
        rewrite dict_get_set_same. discriminate.
      * intros Hr. destruct (A8 Hr) as (s & Hin & Hs). exists s. split; [now right | exact Hs].
    + inversion H; subst. repeat split; auto; try discriminate.
      intros _. exists seg. split; [now left | auto].
Qed.

(** X19. [parse_custom_solvation_radii] either returns or raises
    [InvalidParameter], and touches neither the request, the warnings nor
    the files.  It returns exactly when every non-blank segment of the
    radii string has the form [<atom>=<radius>] with a known lower-case
    symbol and a number; the table of radii then has an entry for the
    symbol of every such segment. *)
Theorem X19_custom_solvation_radii (env : Collaborators) (w : World) :
  let segs := split ";" (custom_solvation_radii (parameters (calc w))) in
  let r := fst (parse_custom_solvation_radii env w) in
  let w' := snd (parse_custom_solvation_radii env w) in
  (r = Ok tt \/ r = Raise InvalidParameter)
  /\ (r = Ok tt <->
      forall seg, In seg segs -> strip seg <> "" ->
                  exists E rad, radius_ok env seg E rad)
  /\ (r = Ok tt ->
      forall seg E rad, In seg segs -> strip seg <> "" -> radius_ok env seg E rad ->
                        dict_get E (self_solvation_radii (self w')) <> None)
  /\ calc w' = calc w /\ warnings w' = warnings w /\ files w' = files w.
Proof.
  cbv zeta. rewrite parse_custom_solvation_radii_unfold.
  destruct (for_each _ _ w) as [r w'] eqn:H. cbn [fst snd].
  destruct (parse_radii_loop env _ _ _ _ H)
    as (A1 & A2 & A3 & A4 & A5 & A6 & A7 & A8).
  split; [exact A1|]. split; [|split; [|auto]].
  - split.
    + intros Hr seg Hin Hs. destruct (A7 Hr seg Hin Hs) as (E & rad & K & _). eauto.
    + intros Hall. destruct A1 as [A1|A1]; [exact A1|].
      destruct (A8 A1) as (seg & Hin & Hs & Hbad).
      destruct (Hall seg Hin Hs) as (E & rad & K). elim (Hbad E rad K).
  - intros Hr seg E rad Hin Hs (el & rd & K1 & K2 & K3).
    destruct (A7 Hr seg Hin Hs) as (E' & rad' & (el' & rd' & L1 & L2 & L3) & K).
    rewrite K1 in L1. inversion L1; subst. congruence.
Qed.

Lemma X19_custom_solvation_radii_witness :
  fst (parse_custom_solvation_radii radii_env (start radii_request)) = Ok tt.
Proof.
  apply (proj1 (proj2 (X19_custom_solvation_radii radii_env (start radii_request)))).
  intros seg [<-|[<-|[]]] Hs.
  - exists "H", "1.2". exists "h", "1.2". repeat split.
  - elim Hs. reflexivity.
Defined.

(** ** The spliced basis block *)

Section Collect.

Variable env : Collaborators.
Variable unique_atoms : list string.





End Collect.


Lemma endswith_refl (s : string) : endswith s s = true.
Proof. destruct s; cbn [endswith]; now rewrite String.eqb_refl. Qed.





(** ** Free text among the specifications *)

Lemma re_search_block_bare (spec : string) :
  chr_in "010" spec = false -> chr_in ")" spec = false ->
  re_search_block spec = None.
Proof.
  intros Hn Hp. unfold re_search_block. rewrite (split_fresh "010" _ Hn).
  cbn [search_lines]. now rewrite match_line_bare.
Qed.

(** X21. A token without a closing parenthesis is free text: the router
    appends it, followed by a blank and a newline, to the ancillary block,
    unless it is one of the reaction-path synonyms, which only rewrite the
    task directives. *)
Theorem X21_free_text_token
    (c : Calculation) (o : NWChemCalculation) (temp spec : string) :
  chr_in "010" spec = false -> chr_in ")" spec = false ->
  route c (o, temp) spec
  = if in_list spec string_synonyms
    then (with_tasks (replace "neb" "string" (tasks o)) o, temp)
    else (with_additional_block (additional_block o ++ spec ++ " " ++ nl) o, temp).
Proof.
  intros Hn Hp. unfold route. now rewrite (re_search_block_bare spec Hn Hp).
Qed.

Lemma X21_free_text_token_witness :
  route sample_request (self (start sample_request), nl) "direct"
  = (with_additional_block ("direct " ++ nl) (self (start sample_request)), nl).
Proof.
  exact (X21_free_text_token sample_request (self (start sample_request)) nl
           "direct" eq_refl eq_refl).
Defined.

(** ** The memory line *)

Lemma contains_template_mem (p header name mem charge xyz_structure basis_set
    method_block calculation_block additional_block tasks : string) :
  contains p ("memory total " ++ mem) = true ->
  contains p (TEMPLATE_format header name mem charge xyz_structure basis_set
                method_block calculation_block additional_block tasks) = true.
Proof.
  intros H. unfold TEMPLATE_format.
  do 8 apply contains_app_r.
  apply (contains_app_r p "    ").
  apply (contains_app_l p ("memory total " ++ mem)). exact H.
Qed.

Lemma generate_memory_line env c doc w :
  generate env c = (Ok doc, w) ->
  chr_in "010" (format (mem c)) = false ->
  contains ("memory total " ++ format (mem c) ++ " mb") doc = true.
Proof.
  intros H Hn.
  destruct (generate_document env c doc w H) as (b & _ & ->).
  apply contains_strip_lines_solid.
  - split; [|split; [reflexivity|split; [|discriminate]]].
    + rewrite !chr_in_app, Hn. reflexivity.
    + replace ("memory total " ++ format (mem c) ++ " mb")
        with (("memory total " ++ format (mem c)) ++ " mb")
        by (now rewrite append_assoc).
      rewrite rstrip_app; [reflexivity | discriminate].
  - apply contains_template_mem. apply contains_refl.
Qed.

(** X22. A generated document holds the line [memory total <mem> mb].
    The unit is written into the caller's request, so a second generation
    from the request the first one leaves behind holds
    [memory total <mem> mb mb]. *)
Theorem X22_memory_line
    (env : Collaborators) (c : Calculation) (doc : string) (w : World) :
  generate env c = (Ok doc, w) ->
  chr_in "010" (format (mem c)) = false ->
  contains ("memory total " ++ format (mem c) ++ " mb") doc = true
  /\ forall doc2 w2,
       generate env (calc w) = (Ok doc2, w2) ->
       contains ("memory total " ++ format (mem c) ++ " mb mb") doc2 = true.
Proof.
  intros H Hn. split; [now apply (generate_memory_line env c doc w)|].
  intros doc2 w2 H2.
  pose proof (generate_request env c) as Hc. rewrite H in Hc. cbn [snd] in Hc.
  pose proof (generate_memory_line env (calc w) doc2 w2 H2) as K.
  rewrite Hc in K. cbn [configured calc mem set_mem set_parameters format] in K.
  rewrite append_assoc in K. apply K.
  rewrite chr_in_app, Hn. reflexivity.
Qed.

Lemma X22_memory_line_witness :
  exists doc w,
    generate sample_env sample_request = (Ok doc, w)
    /\ contains "memory total 1000 mb" doc = true
    /\ exists doc2 w2,
         generate sample_env (calc w) = (Ok doc2, w2)
         /\ contains "memory total 1000 mb mb" doc2 = true.
Proof.
  eexists; eexists.
  assert (H : generate sample_env sample_request
              = (fst (generate sample_env sample_request),
                 snd (generate sample_env sample_request)))
    by (now destruct (generate sample_env sample_request)).
  vm_compute in H.
  split; [vm_compute; reflexivity|].
  match type of H with
  | _ = (Ok ?d, ?w) =>
      pose proof (X22_memory_line sample_env sample_request d w eq_refl eq_refl)
        as [K1 K2]
  end.
  split; [exact K1|].
  eexists; eexists. split; [vm_compute; reflexivity|].
  eapply K2. vm_compute. reflexivity.
Defined.

(** ** The constraint block *)

Lemma scans_prefix (cs : list Constraint) (acc : string) :
  fold_left (fun acc k => if scan k then acc ++ to_nwchem k else acc) cs acc
  = acc ++ scans_text cs.
Proof.
  unfold scans_text. revert acc.
  induction cs as [|k cs IH]; intros acc; cbn [fold_left].
  - now rewrite append_nil_r.
  - rewrite IH. rewrite (IH (if scan k then "" ++ to_nwchem k else "")).
    destruct (scan k); cbn [append]; [now rewrite append_assoc | reflexivity].
Qed.

Lemma scans_run (cs : list Constraint) :
  forall c o ws ps fs,
    for_each cs (fun k => when (scan k) (add_additional_block (to_nwchem k)))
      (mkWorld c o ws ps fs)
    = (Ok tt,
       mkWorld c (with_additional_block (additional_block o ++ scans_text cs) o)
         ws ps fs).
Proof.
  induction cs as [|k cs IH]; intros c o ws ps fs.
  - cbn. rewrite append_nil_r. now destruct o.
  - cbn [for_each]. unfold bind at 1. unfold scans_text. cbn [fold_left].
    destruct (scan k); cbn [when].
    + unfold add_additional_block at 1, update_self at 1. cbn [calc self warnings printed files].
      rewrite IH. cbn [additional_block with_additional_block append].
      rewrite (scans_prefix cs (to_nwchem k)), append_assoc. reflexivity.
    + cbn [ret]. now rewrite IH.
Qed.

(** X23. The constraint stage in closed form.  For a kind other than the
    constrained optimisation it does nothing: the constraints of such a
    request are ignored.  For a constrained optimisation it raises
    [InvalidParameter] on an empty list, and otherwise appends to the
    ancillary block the [zcoord] block holding the text of every
    constraint (no block when that text is empty), followed, after the two
    closing markers, by the text of the scans once more. *)
Theorem X23_constraint_block (w : World) :
  handle_constraints w =
  if CalcType_eqb (calc_type (calc w)) CONSTR_OPT then
    match constraints (calc w) with
    | [] => (Raise InvalidParameter, w)
    | cs =>
        (Ok tt,
         mkWorld (calc w)
           (with_additional_block
              (additional_block (self w) ++ constraint_block cs) (self w))
           (warnings w) (printed w) (files w))
    end
  else (Ok tt, w).
Proof.
  unfold handle_constraints.
  rewrite (bind_step get_calc _ w (calc w) w) by reflexivity.
  destruct (CalcType_eqb (calc_type (calc w)) CONSTR_OPT); cbn [when];
    [|reflexivity].
  destruct (constraints (calc w)) as [|k cs] eqn:Hc; [reflexivity|].
  cbn [List.length Nat.eqb when].
  fold (constraints_text (k :: cs)).
  unfold constraint_block.
  destruct w as [c o ws ps fs]. cbn [calc self warnings printed files].
  destruct (constraints_text (k :: cs) =? ""); cbn [negb when].
  - unfold bind, ret. rewrite scans_run. cbn [append]. reflexivity.
  - unfold bind, ret, add_additional_block at 1, update_self at 1.
    cbn [calc self warnings printed files]. rewrite scans_run.
    cbn [additional_block with_additional_block].
    now rewrite !append_assoc.
Qed.

(** ** The frequency commands of an optimisation with frequencies *)

Lemma route_frequency c o temp spec :
  route c (o, temp) spec
  = match frequency_command c spec with
    | Some command => (o, temp ++ command ++ " " ++ nl)
    | None => (fst (route c (o, temp) spec), temp)
    end.
Proof.
  unfold frequency_command, route.
  destruct (re_search_block spec) as [[start command]|]; cbv zeta.
  - destruct (String.eqb_spec (take (start - 1) spec) "freq") as [E|E].
    + rewrite E. cbn [String.eqb Ascii.eqb Bool.eqb orb andb in_list existsb].
      destruct (calc_type c); reflexivity.
    + cbn [andb]. route_cases; reflexivity.
  - route_cases; reflexivity.
Qed.

Lemma frequency_prefix c tokens acc :
  fold_left
    (fun acc tok =>
       match frequency_command c tok with
       | Some command => acc ++ command ++ " " ++ nl
       | None => acc
       end) tokens acc
  = acc ++ frequency_text c tokens.
Proof.
  unfold frequency_text. revert acc.
  induction tokens as [|tok tokens IH]; intros acc; cbn [fold_left].
  - now rewrite append_nil_r.
  - rewrite IH.
    rewrite (IH (match frequency_command c tok with
                 | Some command => "" ++ command ++ " " ++ nl
                 | None => ""
                 end)).
    destruct (frequency_command c tok); cbn [append];
      [now rewrite append_assoc | reflexivity].
Qed.

Lemma fold_route_frequency c tokens :
  forall o temp,
    snd (fold_left (route c) tokens (o, temp)) = temp ++ frequency_text c tokens.
Proof.
  induction tokens as [|tok tokens IH]; intros o temp.
  - cbn. now rewrite append_nil_r.
  - cbn [fold_left]. rewrite route_frequency.
    unfold frequency_text. cbn [fold_left].
    destruct (frequency_command c tok) as [command|].
    + rewrite IH, (frequency_prefix c tokens ("" ++ command ++ " " ++ nl)).
      cbn [append]. now rewrite append_assoc.
    + apply IH.
Qed.

Lemma append_nl_eqb (s : string) : (nl ++ s =? nl) = (s =? "").
Proof. destruct s; reflexivity. Qed.

(** X24. In an optimisation with frequencies a token [freq(command)]
    leaves the object alone and adds its command to the frequency buffer;
    the buffer after the loop holds those commands, in the order of the
    tokens, and for every other kind it stays empty.  After the loop the
    router appends one [freq] block with the gathered commands to the
    ancillary block, and none when there is no command. *)
Theorem X24_frequency_commands (c : Calculation) (o : NWChemCalculation) :
  let tokens := tokens_of (specifications (parameters c)) in
  let o' := fst (fold_left (route c) tokens (o, nl)) in
  (forall tok command temp o0,
     frequency_command c tok = Some command ->
     route c (o0, temp) tok = (o0, temp ++ command ++ " " ++ nl))
  /\ snd (fold_left (route c) tokens (o, nl)) = nl ++ frequency_text c tokens
  /\ (calc_type c <> OPTFREQ -> frequency_text c tokens = "")
  /\ additional_block (routed c o)
     = if frequency_text c tokens =? "" then additional_block o'
       else additional_block o' ++ nl ++ " freq " ++ nl ++ frequency_text c tokens
            ++ " end " ++ nl.
Proof.
  cbv zeta. split; [|split; [|split]].
  - intros tok command temp o0 H. now rewrite route_frequency, H.
  - apply fold_route_frequency.
  - intros Hk. generalize (tokens_of (specifications (parameters c))).
    intros tokens. unfold frequency_text.
    assert (K : forall tok, frequency_command c tok = None).
    { intros tok. unfold frequency_command.
      destruct (re_search_block tok) as [[start command]|]; [|reflexivity].
      destruct (calc_type c); try congruence; now rewrite andb_false_r. }
    induction tokens as [|tok tokens IH]; [reflexivity|].
    cbn [fold_left]. now rewrite K.
  - unfold routed, tokens_of. cbv zeta.
    destruct (negb (strip (clean (specifications (parameters c))) =? "")).
    + pose proof (fold_route_frequency c
                    (split "010" (separate_lines (specifications (parameters c))))
                    o nl) as F.
      destruct (fold_left _ _ (o, nl)) as [o' temp]. cbn [fst snd] in *.
      subst temp. rewrite append_nl_eqb.
      destruct (frequency_text c _ =? ""); cbn [negb];
        route_cases; cbn [additional_block with_method_block
                          with_calculation_block with_additional_block];
        rewrite ?append_assoc; reflexivity.
    + cbn [fold_left fst]. unfold frequency_text. cbn [fold_left String.eqb].
      route_cases; reflexivity.
Qed.

Lemma X24_frequency_commands_witness :
  route optfreq_request (self (start optfreq_request), nl) "freq(temp 1 300)"
  = (self (start optfreq_request), nl ++ "temp 1 300" ++ " " ++ nl).
Proof.
  exact (proj1 (X24_frequency_commands optfreq_request (self (start optfreq_request)))
           "freq(temp 1 300)" "temp 1 300" nl (self (start optfreq_request)) eq_refl).
Defined.

(** ** The header of the calculation-type block *)

Lemma headed_app t block s : block <> "" -> headed t block -> headed t (block ++ s).
Proof.
  unfold headed. destruct (header_of t) as [h|]; [|congruence].
  intros Hne [[H _]|H]; [congruence|]. right. now apply startswith_app_l.
Qed.

Lemma headed_started t h s : header_of t = Some h -> headed t (h ++ s).
Proof. unfold headed. intros ->. right. apply startswith_app. Qed.

Lemma headed_nmr block : headed NMR block -> block <> "".
Proof.
  unfold headed. cbn. intros [[_ H]|H]; [congruence|].
  intros ->. discriminate.
Qed.

Ltac headed_step :=
  match goal with
  | H : headed _ ?b |- headed _ ?b => exact H
  | E : (?b =? "") = true |- headed _ ((?b ++ ?h) ++ _) =>
      apply String.eqb_eq in E; rewrite E; cbn [append];
      right; reflexivity
  | E : (?b =? "") = false, H : headed _ ?b |- headed _ (?b ++ _) =>
      apply String.eqb_neq in E; now apply headed_app
  | H : headed NMR ?b |- headed NMR (?b ++ _) =>
      apply headed_app; [now apply headed_nmr | exact H]
  end.

Lemma route_headed c o temp spec :
  headed (calc_type c) (calculation_block o) ->
  headed (calc_type c) (calculation_block (fst (route c (o, temp) spec))).
Proof.
  intros H. unfold route.
  destruct (re_search_block spec) as [[start command]|]; cbv zeta.
  - destruct (calc_type c) eqn:Hk; cbn [CalcType_eqb orb andb];
      rewrite ?andb_false_r, ?andb_true_r;
      route_cases;
      cbn [fst calculation_block with_calculation_block with_tasks
           with_additional_block with_method_block];
      try discriminate; headed_step.
  - route_cases;
      cbn [fst calculation_block with_calculation_block with_tasks
           with_additional_block with_method_block]; exact H.
Qed.

Lemma fold_route_headed c tokens :
  forall o temp,
    headed (calc_type c) (calculation_block o) ->
    headed (calc_type c) (calculation_block (fst (fold_left (route c) tokens (o, temp)))).
Proof.
  induction tokens as [|tok tokens IH]; intros o temp H; [exact H|].
  cbn [fold_left].
  pose proof (route_headed c o temp tok H) as K.
  destruct (route c (o, temp) tok) as [o1 temp1]. now apply IH.
Qed.

Lemma routed_headed c o :
  headed (calc_type c) (calculation_block o) ->
  contains "string" (tasks (routed c o)) = false ->
  headed (calc_type c) (calculation_block (routed c o)).
Proof.
  intros H. unfold routed. cbv zeta.
  match goal with
  | |- context [if contains "string" (tasks ?x) then _ else _] => set (o3 := x)
  end.
  assert (K : headed (calc_type c) (calculation_block o3)).
  { unfold o3.
    destruct (negb (strip (clean (specifications (parameters c))) =? "")).
    - pose proof (fold_route_headed c
                    (split "010" (separate_lines (specifications (parameters c))))
                    o nl H) as F.
      destruct (fold_left _ _ (o, nl)) as [o' temp]. cbn [fst] in F.
      route_cases; exact F.
    - route_cases; exact H. }
  destruct (contains "string" (tasks o3)) eqn:E; [|intros _; exact K].
  cbn [tasks with_calculation_block]. rewrite E. discriminate.
Qed.

Lemma closed_headed t o :
  headed t (calculation_block o) -> headed t (calculation_block (closed o)).
Proof.
  intros H. rewrite (proj1 (proj2 (closed_fields o))).
  unfold close_calculation_block.
  destruct (negb (contains ("end " ++ nl) (calculation_block o))); cbn [andb];
    [|exact H].
  destruct (String.eqb_spec (calculation_block o) "") as [E|E]; cbn [negb];
    [exact H|].
  cbn [calculation_block with_calculation_block]. now apply headed_app.
Qed.

(** X25. In the store of a run that returns a document, and whose task
    directives do not select the string method, the calculation-type block
    is empty or begins with the header of its kind: [driver] for the
    optimisations and the transition-state search, [freq] for the
    frequencies, [neb] for the minimum-energy path, the property block for
    the shieldings (never empty there); for the other kinds it is empty. *)
Theorem X25_calculation_block_header
    (env : Collaborators) (c : Calculation) (doc : string) (w : World) :
  generate env c = (Ok doc, w) ->
  contains "string" (tasks (self w)) = false ->
  headed (calc_type c) (calculation_block (self w)).
Proof.
  intros H Hs.
  apply generate_Ok in H
    as (_ & w1 & w2 & w3 & w4 & w5 & E1 & E2 & E3 & E4 & E5 & E6 & _).
  set (k := calc_type c).
  set (T := fun w0 : World => headed k (calculation_block (self w0))).
  assert (Tlogs : ignores_logs T).
  { unfold ignores_logs, preserves; repeat split; intros;
      match goal with K : T _ |- _ => exact K end. }
  assert (C1 : calc w1 = calc (configured c)).
  { exact (preserves_run _ _ _ _ _ (handle_tasks_keeps_request env _) E1 eq_refl). }
  assert (C2 : calc w2 = calc (configured c)).
  { exact (preserves_run _ _ _ _ _ (handle_solvation_keeps_request env _) E2 C1). }
  assert (T1 : T w1).
  { unfold T. destruct (handle_tasks_buffers env _ _ E1) as [_ B]. rewrite B.
    change (calc_type (calc (configured c))) with k.
    cbn [configured self calculation_block append].
    unfold headed. destruct k; cbn; auto; left; split; auto; discriminate. }
  assert (T2 : T w2).
  { eapply preserves_run; [|exact E2|exact T1].
    apply handle_solvation_frame; auto; intros ? ? K; exact K. }
  apply handle_specifications_Ok in E3.
  set (wr := snd (route_specifications w2)) in *.
  assert (Ht : tasks (self w) = tasks (self wr)).
  { apply (after_routing env (fun w0 => tasks (self w0) = tasks (self wr)))
      with (wr := wr) (w3 := w3) (w4 := w4) (w5 := w5); auto;
      try (intros ? ? K; exact K).
    - unfold ignores_logs, preserves; repeat split; intros; assumption.
    - intros w0 K. rewrite close_blocks_run. cbn [snd self].
      now rewrite closed_keeps_tasks. }
  apply (after_routing env T Tlogs) with (wr := wr)
    (w3 := w3) (w4 := w4) (w5 := w5); auto; try (intros ? ? K; exact K).
  - intros w0 K. rewrite close_blocks_run. unfold T in *. cbn [snd self].
    now apply closed_headed.
  - rewrite Ht in Hs. unfold wr in *.
    rewrite route_specifications_run in *. unfold T in *. cbn [snd self] in *.
    replace k with (calc_type (calc w2)) by (now rewrite C2).
    apply routed_headed; [|exact Hs].
    replace (calc_type (calc w2)) with k by (now rewrite C2). exact T2.
Qed.

Lemma X25_calculation_block_header_witness :
  exists doc w,
    generate sample_env optfreq_request = (Ok doc, w)
    /\ headed OPTFREQ (calculation_block (self w)).
Proof.
  eexists; eexists.
  assert (H : generate sample_env optfreq_request
              = (fst (generate sample_env optfreq_request),
                 snd (generate sample_env optfreq_request)))
    by (now destruct (generate sample_env optfreq_request)).
  vm_compute in H.
  split; [vm_compute; reflexivity|].
  match type of H with
  | _ = (Ok ?d, ?w) =>
      exact (X25_calculation_block_header sample_env optfreq_request d w
               eq_refl eq_refl)
  end.
Defined.

(** ** The density-functional block *)

(** *** The text of an integer *)

Lemma no_space_uint (d : Decimal.uint) :
  no_space (NilEmpty.string_of_uint d) = true.
Proof.
  induction d; cbn [NilEmpty.string_of_uint no_space]; rewrite ?IHd; reflexivity.
Qed.

Lemma no_space_of_Z (z : Z) : no_space (of_Z z) = true /\ of_Z z <> "".
Proof.
  unfold of_Z, NilZero.string_of_int, NilZero.string_of_uint.
  destruct (Z.to_int z) as [d|d]; destruct d;
    cbn [NilEmpty.string_of_uint no_space]; rewrite ?no_space_uint;
    split; first [reflexivity | discriminate].
Qed.

Lemma no_space_newline (s : string) :
  no_space s = true -> chr_in "010" s = false.
Proof.
  induction s as [|a s IH]; [reflexivity|]. cbn [no_space]. intros H.
  apply andb_true_iff in H as [Ha Hs]. rewrite chr_in_cons, (IH Hs), orb_false_r.
  apply Ascii.eqb_neq. intros <-. discriminate.
Qed.

Lemma no_space_rstrip (s : string) : no_space s = true -> rstrip s = s.
Proof.
  induction s as [|a s IH]; [reflexivity|]. cbn [no_space]. intros H.
  apply andb_true_iff in H as [Ha Hs]. apply negb_true_iff in Ha.
  cbn [rstrip]. rewrite (IH Hs). destruct s; [now rewrite Ha | reflexivity].
Qed.

(** X26. For density-functional theory a generated document holds the
    line [mult <multiplicity>] and, when the method is a non-empty name
    without a newline or a trailing blank, the line [xc <method>]. *)
Theorem X26_density_functional_block
    (env : Collaborators) (c : Calculation) (doc : string) (w : World) :
  generate env c = (Ok doc, w) ->
  nwchem_theory_level (parameters c) = "dft" ->
  contains ("mult " ++ of_Z (multiplicity c)) doc = true
  /\ (chr_in "010" (method (parameters c)) = false ->
      rstrip (method (parameters c)) = method (parameters c) ->
      method (parameters c) <> "" ->
      contains ("xc " ++ method (parameters c)) doc = true).
Proof.
  intros H Ht.
  destruct (no_space_of_Z (multiplicity c)) as [Hn Hne].
  split.
  - apply (dft_text_in_document env c doc w _ H Ht).
    + split; [|split; [reflexivity|split; [|discriminate]]].
      * rewrite chr_in_app, (no_space_newline _ Hn). reflexivity.
      * rewrite rstrip_app; rewrite (no_space_rstrip _ Hn); [reflexivity | exact Hne].
    + apply contains_app_l. unfold dft_block.
      change (multiplicity (calc (configured c))) with (multiplicity c).
      do 4 apply contains_app_r.
      apply (contains_app_r _ "            ").
      apply (contains_app_l _ ("mult " ++ of_Z (multiplicity c))), contains_refl.
  - intros M1 M2 M3.
    apply (dft_text_in_document env c doc w _ H Ht).
    + split; [|split; [reflexivity|split; [|discriminate]]].
      * rewrite chr_in_app, M1. reflexivity.
      * rewrite rstrip_app; rewrite M2; [reflexivity | exact M3].
    + apply contains_app_l. unfold dft_block.
      change (method (parameters (calc (configured c))))
        with (method (parameters c)).
      apply contains_app_r.
      apply (contains_app_r _ "            ").
      apply (contains_app_l _ ("xc " ++ method (parameters c))), contains_refl.
Qed.

Lemma X26_density_functional_block_witness :
  exists doc w,
    generate sample_env sample_request = (Ok doc, w)
    /\ contains "mult 1" doc = true /\ contains "xc b3lyp" doc = true.
Proof.
  eexists; eexists.
  assert (H : generate sample_env sample_request
              = (fst (generate sample_env sample_request),
                 snd (generate sample_env sample_request)))
    by (now destruct (generate sample_env sample_request)).
  vm_compute in H.
  split; [vm_compute; reflexivity|].
  match type of H with
  | _ = (Ok ?d, ?w) =>
      pose proof (X26_density_functional_block sample_env sample_request d w
                    eq_refl eq_refl) as [K1 K2]
  end.
  split; [exact K1|]. apply K2; [reflexivity | reflexivity | discriminate].
Defined.

(** * Properties of the tables of synonyms *)

Import documentation.

(** ** The order of the keys *)













(** ** The width of the first column *)














(** ** The final [strip] of the table *)

Lemma synonym_rows_prefix (ll : nat) (l : list string) (tab : string) :
  fold_left (synonym_row ll) l tab = tab ++ fold_left (synonym_row ll) l "".
Proof.
  revert tab. induction l as [|s l IH]; intros tab; cbn [fold_left].
  - now rewrite append_nil_r.
  - rewrite IH. rewrite (IH (synonym_row ll "" s)).
    unfold synonym_row. cbn [append]. now rewrite append_assoc.
Qed.

Lemma add_row_unfold (ll : nat) (tab : string) (k : string) (syns : list string) :
  add_row ll tab (k, syns)
  = if (1 <? List.length syns)%nat
    then fold_left (synonym_row ll) (tl syns)
           (tab ++ ljust k ll ++ " " ++ hd "" syns ++ nl)
    else tab ++ ljust k ll ++ " " ++ hd "" syns ++ nl.
Proof. reflexivity. Qed.

Lemma add_row_prefix (ll : nat) (tab : string) (item : string * list string) :
  add_row ll tab item = tab ++ add_row ll "" item.
Proof.
  destruct item as [k syns]. rewrite !add_row_unfold.
  destruct (1 <? List.length syns)%nat; [|reflexivity].
  rewrite synonym_rows_prefix.
  rewrite (synonym_rows_prefix ll (tl syns) ("" ++ _)).
  cbn [append]. now rewrite !append_assoc.
Qed.

Lemma rows_prefix (ll : nat) (items : entries) (tab : string) :
  fold_left (add_row ll) items tab = tab ++ fold_left (add_row ll) items "".
Proof.
  revert tab. induction items as [|item items IH]; intros tab; cbn [fold_left].
  - now rewrite append_nil_r.
  - rewrite IH, (IH (add_row ll "" item)), add_row_prefix. now rewrite append_assoc.
Qed.

Lemma table_shape (d : entries) (name : string) :
  exists body,
    table d name
    = times (width d name) "=" ++ String " " (String "=" (body ++ " ========")).
Proof.
  exists ("=======" ++ nl ++ ljust name (width d name) ++ " Synonyms" ++ nl
          ++ times (width d name) "=" ++ " ========" ++ nl
          ++ fold_left (add_row (width d name)) (sorted d) ""
          ++ times (width d name) "=").
  unfold table. fold (width d name). cbv zeta. rewrite rows_prefix.
  rewrite !append_assoc. reflexivity.
Qed.

Lemma strip_solid (c : ascii) (s : string) :
  isspace c = false ->
  strip (String c (s ++ " ========")) = String c (s ++ " ========").
Proof.
  intros H. unfold strip. cbn [lstrip]. rewrite H.
  change (String c (s ++ " ========")) with (String c s ++ " ========").
  rewrite rstrip_app; [reflexivity | discriminate].
Qed.

(** X29. The final [strip] changes the table only in the degenerate case:
    when the title, a name or a synonym is not empty the table begins and
    ends with its rule and is returned as it is; when all are empty the
    width is zero and [strip] removes the one leading blank of the first
    rule. *)
Theorem X29_strip_of_the_table (d : entries) (name : string) :
  format_dict_str d name
  = if (0 <? width d name)%nat then table d name else drop 1 (table d name).
Proof.
  unfold format_dict_str. destruct (table_shape d name) as [body ->].
  destruct (width d name) as [|n].
  - change (times 0 "=" ++ String " " (String "=" (body ++ " ========")))
      with (String " " (String "=" (body ++ " ========"))).
    change ((0 <? 0)%nat) with false. cbv iota. cbn [drop].
    unfold strip. cbn [lstrip].
    change (isspace " ") with true. cbv iota.
    apply (strip_solid "=" body). reflexivity.
  - change ((0 <? S n)%nat) with true. cbv iota.
    change (times (S n) "=" ++ String " " (String "=" (body ++ " ========")))
      with (String "=" (times n "=" ++ String " " (String "=" (body ++ " ========")))).
    replace (times n "=" ++ String " " (String "=" (body ++ " ========")))
      with ((times n "=" ++ String " " (String "=" body)) ++ " ========")
      by (now rewrite append_assoc).
    apply strip_solid. reflexivity.
Qed.

(** ** The table of an enumeration *)

Lemma assign_fresh k v (d : entries) :
  ~ In k (map fst d) -> assign k v d = (d ++ [(k, v)])%list.
Proof.
  induction d as [|[k' v'] d IH]; intros H; [reflexivity|].
  cbn [assign]. destruct (String.eqb_spec k k') as [->|Hne].
  - elim H. now left.
  - cbn. rewrite IH; [reflexivity|]. intros K. apply H. now right.
Qed.

Lemma fold_assign_fresh {K : Type} (name_of : K -> string)
    (l : list (K * list string)) :
  forall acc,
    NoDup (map fst acc ++ map (fun kv => name_of (fst kv)) l)%list ->
    fold_left (fun acc kv => assign (name_of (fst kv)) (snd kv) acc) l acc
    = (acc ++ map (fun kv => (name_of (fst kv), snd kv)) l)%list.
Proof.
  induction l as [|kv l IH]; intros acc H; cbn [fold_left map].
  - now rewrite app_nil_r.
  - rewrite assign_fresh.
    + rewrite IH.
      * now rewrite <- app_assoc.
      * rewrite map_app. cbn [map fst]. rewrite <- app_assoc. exact H.
    + cbn [map] in H. apply NoDup_remove_2 in H.
      intros K0. apply H. apply in_or_app. now left.
Qed.

(** X30. For a [dict] keyed by members of an enumeration whose names are
    pairwise distinct, [format_dict_enum] gives the table [format_dict_str]
    gives for the same synonyms under the names of the members, in the same
    order. *)
Theorem X30_table_of_an_enumeration {K : Type} (name_of : K -> string)
    (d : list (K * list string)) (name : string) :
  NoDup (map (fun kv => name_of (fst kv)) d) ->
  format_dict_enum name_of d name
  = format_dict_str (map (fun kv => (name_of (fst kv), snd kv)) d) name.
Proof.
  intros H. unfold format_dict_enum.
  now rewrite (fold_assign_fresh name_of d []).
Qed.

Lemma X30_table_of_an_enumeration_witness :
  format_dict_enum (fun b : bool => if b then "yes" else "no")
    [(true, ["y"]); (false, ["n"])] "Answer"
  = format_dict_str [("yes", ["y"]); ("no", ["n"])] "Answer".
Proof.
  apply (X30_table_of_an_enumeration (fun b : bool => if b then "yes" else "no")
           [(true, ["y"]); (false, ["n"])] "Answer").
  repeat constructor; cbn; intuition discriminate.
Defined.
